(** * The UOL GPA / CGPA calculator, embedded in Rocq

    The TypeScript class [GpaCgpaService] (src/app/gpa-cgpa.service.ts) is
    embedded function by function, and after it the component [App] that
    calls it.

    - A JavaScript [number] is an IEEE 754 binary64 value, taken here as the
      [spec_float] of the Standard Library with its correctly rounded
      operations: sums, products and quotients are the ones the program
      computes, rounding and overflow to [Infinity] included.
    - [GRADE_POINTS] is an object literal: reading a property falls back on
      [Object.prototype] when the object has no own property of that name.
    - Array callbacks run in a small completion monad: reading a property of
      a [null] array slot is the only operation of the service that can
      throw.

    The proofs about magnitudes count the value of a finite number in units
    of [2^emin] (the spacing of the subnormal numbers), an integer, and
    follow the two phases of [binary_round_aux]: the shift that cuts the
    mantissa to 53 bits with its round and sticky bits, and the
    renormalisation with the overflow test. *)

From Stdlib Require Import ZArith List String Bool Lia QArith.
From Stdlib Require Import Floats.SpecFloat.
From Stdlib Require Import DecimalString.
Import ListNotations.

Local Open Scope string_scope.
Local Open Scope list_scope.
Local Open Scope Z_scope.

(** ** JavaScript numbers *)

Module Num.

Definition number : Type := spec_float.

Definition prec : Z := 53.
Definition emax : Z := 1024.

Definition NaN : number := S754_nan.
Definition Infinity : number := S754_infinity false.
Definition zero : number := S754_zero false.

Definition add : number -> number -> number := SFadd prec emax.
Definition mul : number -> number -> number := SFmul prec emax.
Definition div : number -> number -> number := SFdiv prec emax.

(** Relational operators; every comparison with [NaN] is false. *)
Definition lt (x y : number) : bool := SFltb x y.
Definition le (x y : number) : bool := SFleb x y.
Definition gt (x y : number) : bool := SFltb y x.
Definition ge (x y : number) : bool := SFleb y x.

(** [Number.isFinite] on a value that is a number. *)
Definition isFinite (x : number) : bool :=
  match x with
  | S754_zero _ | S754_finite _ _ _ => true
  | S754_infinity _ | S754_nan => false
  end.

(** The number denoted by an integer literal, and by a decimal literal
    [n / 10^k]: the binary64 value nearest to it. *)
Definition of_Z (n : Z) : number := binary_normalize prec emax n 0 false.
Definition decimal (n : Z) (k : Z) : number := div (of_Z n) (of_Z (10 ^ k)).

(** A well-formed binary64 value: the mantissa of a finite value is in
    canonical position. *)
Definition wf (x : number) : bool := valid_binary prec emax x.

(** [Math.round]: a value that is not finite or is integral is returned as
    it is; otherwise the result is the integer [floor (x + 1/2)], computed
    exactly (ties go towards +Infinity), and a zero result keeps the sign
    of [x]. *)
Definition Math_round (x : number) : number :=
  match x with
  | S754_finite s m (Zneg k) =>
      let n := (2 * cond_Zopp s (Zpos m) + 2 ^ Zpos k) / 2 ^ (Zpos k + 1) in
      match n with
      | Z0 => S754_zero s
      | _ => of_Z n
      end
  | _ => x
  end.

(** Rounding to the nearest integer with ties away from zero, the rounding
    the specification names: [floor (|x| + 1/2)] with the sign of [x]. *)
Definition round_half_away (x : number) : number :=
  match x with
  | S754_finite s m (Zneg k) =>
      let n := (2 * Zpos m + 2 ^ Zpos k) / 2 ^ (Zpos k + 1) in
      match n with
      | Z0 => S754_zero s
      | _ => of_Z (cond_Zopp s n)
      end
  | _ => x
  end.

(** A negative number midway between two integers: [-m / 2^k] whose
    fraction is exactly one half. *)
Definition negative_tie (x : number) : bool :=
  match x with
  | S754_finite true m (Zneg k) =>
      (2 * Zpos m) mod 2 ^ (Zpos k + 1) =? 2 ^ Zpos k
  | _ => false
  end.

(** The rational a finite number stands for, in lowest terms. *)
Definition to_Q (x : number) : option Q :=
  match x with
  | S754_zero _ => Some (0 # 1)%Q
  | S754_finite s m e =>
      let v := match e with
               | Zneg k => Qmake (Zpos m) (2 ^ k)%positive
               | _ => Qmake (Zpos m * 2 ^ e) 1
               end in
      Some (Qred (if s then Qopp v else v))
  | _ => None
  end.

End Num.

Import Num.

(** ** Completions and the array methods the service uses *)

Module Js.

Inductive completion (A : Type) : Type :=
| Normal (a : A)
| Throw (error : string).
Arguments Normal {A} a.
Arguments Throw {A} error.

Definition bind {A B} (c : completion A) (k : A -> completion B)
  : completion B :=
  match c with
  | Normal a => k a
  | Throw e => Throw e
  end.

Definition returns {A} (c : completion A) : Prop := exists a, c = Normal a.

(** Short-circuit [a && b] in a boolean context. *)
Definition and_then (a b : completion bool) : completion bool :=
  bind a (fun x => if x then b else Normal false).

(** An array slot holds an object or [null]; an object is truthy. *)
Definition truthy {A} (o : option A) : completion bool :=
  Normal (match o with Some _ => true | None => false end).

(** [o.f]: reading a property of [null] throws a TypeError. *)
Definition prop {A B} (f : A -> B) (o : option A) : completion B :=
  match o with
  | Some a => Normal (f a)
  | None => Throw "TypeError"
  end.

(** [Array.prototype.filter] *)
Fixpoint Array_filter {A} (cb : A -> completion bool) (l : list A)
  : completion (list A) :=
  match l with
  | [] => Normal []
  | x :: r =>
      bind (cb x) (fun keep =>
      bind (Array_filter cb r) (fun rest =>
      Normal (if keep then x :: rest else rest)))
  end.

(** [Array.prototype.reduce] with an initial value *)
Fixpoint Array_reduce {A B} (cb : B -> A -> completion B) (l : list A)
  (init : B) : completion B :=
  match l with
  | [] => Normal init
  | x :: r => bind (cb init x) (fun acc => Array_reduce cb r acc)
  end.

(** The values a property read of [GRADE_POINTS] can give: a number,
    [undefined], or a member of [Object.prototype]. *)
Inductive value : Type :=
| VUndefined
| VNumber (n : number)
| VObject (builtin : string).

(** The properties every object literal inherits from [Object.prototype]. *)
Definition Object_prototype : list string :=
  [ "constructor"; "hasOwnProperty"; "isPrototypeOf"; "propertyIsEnumerable";
    "toLocaleString"; "toString"; "valueOf"; "__proto__";
    "__defineGetter__"; "__defineSetter__"; "__lookupGetter__";
    "__lookupSetter__" ].

Fixpoint own {A} (o : list (string * A)) (k : string) : option A :=
  match o with
  | [] => None
  | (k', v) :: r => if String.eqb k' k then Some v else own r k
  end.

(** [o[k]] for an object literal [o] with the own properties listed: the own
    property if there is one, else the one inherited from
    [Object.prototype], else [undefined]. *)
Definition Get (o : list (string * number)) (k : string) : value :=
  match own o k with
  | Some n => VNumber n
  | None =>
      if existsb (String.eqb k) Object_prototype then VObject k
      else VUndefined
  end.

(** [v !== undefined] *)
Definition not_undefined (v : value) : bool :=
  match v with VUndefined => false | _ => true end.

(** [v ?? d] *)
Definition nullish (v d : value) : value :=
  match v with VUndefined => d | _ => v end.

(** [ToNumber]: a function or plain object converts through its string
    form, which is not a numeric literal, to [NaN]. *)
Definition ToNumber (v : value) : completion number :=
  match v with
  | VNumber n => Normal n
  | VUndefined | VObject _ => Normal NaN
  end.

(** [x * v] for a number [x] *)
Definition times (x : number) (v : value) : completion number :=
  bind (ToNumber v) (fun y => Normal (mul x y)).

End Js.

Import Js.

Notation "x <- c ;; k" := (bind c (fun x => k))
  (at level 61, c at next level, right associativity).
Infix "&&&" := and_then (at level 40, left associativity).

(** ** The service *)

Module Course.
Record t : Type := { name : option string; creditHours : number; grade : string }.
End Course.

Module SemesterSummary.
Record t : Type := { name : string; gpa : number; creditHours : number }.
End SemesterSummary.

Record GpaResult : Type :=
  { gpa : number; totalCreditHours : number }.

(** The result of [calculateCgpa]: [cgpa] is a number or [null] ([None]);
    [totalCgpaCreditHours] is its field [totalCreditHours]. *)
Record CgpaResult : Type :=
  { cgpa : option number; totalCgpaCreditHours : number }.

Definition GRADE_POINTS : list (string * number) :=
  [ ("A", decimal 40 1); ("A-", decimal 375 2); ("B+", decimal 35 1);
    ("B", decimal 30 1); ("C+", decimal 25 1); ("C", decimal 20 1);
    ("D+", decimal 15 1); ("D", decimal 10 1); ("F", decimal 0 1) ].

Definition roundToTwo (value : number) : number :=
  div (Math_round (mul value (of_Z 100))) (of_Z 100).

Definition calculateGpa (courses : list (option Course.t))
  : completion GpaResult :=
  validCourses <-
    Array_filter (fun c =>
        truthy c
        &&& (h <- prop Course.creditHours c ;; Normal (isFinite h))
        &&& (h <- prop Course.creditHours c ;; Normal (gt h zero))
        &&& (g <- prop Course.grade c ;;
             Normal (not_undefined (Get GRADE_POINTS g))))
      courses ;;
  totalCreditHours <-
    Array_reduce (fun sum c =>
        h <- prop Course.creditHours c ;; Normal (add sum h))
      validCourses zero ;;
  if le totalCreditHours zero || negb (isFinite totalCreditHours) then
    Normal {| gpa := zero; totalCreditHours := zero |}
  else
    totalPoints <-
      Array_reduce (fun sum c =>
          g <- prop Course.grade c ;;
          let gradePoints := nullish (Get GRADE_POINTS g) (VNumber zero) in
          h <- prop Course.creditHours c ;;
          p <- times h gradePoints ;;
          Normal (add sum p))
        validCourses zero ;;
    let rawGpa := div totalPoints totalCreditHours in
    let gpa := if isFinite rawGpa then roundToTwo rawGpa else zero in
    Normal {| gpa := gpa; totalCreditHours := totalCreditHours |}.

Definition calculateCgpa (semesters : list (option SemesterSummary.t))
  : completion CgpaResult :=
  validSemesters <-
    Array_filter (fun s =>
        truthy s
        &&& (g <- prop SemesterSummary.gpa s ;; Normal (isFinite g))
        &&& (g <- prop SemesterSummary.gpa s ;; Normal (ge g zero))
        &&& (g <- prop SemesterSummary.gpa s ;; Normal (le g (of_Z 4)))
        &&& (h <- prop SemesterSummary.creditHours s ;; Normal (isFinite h))
        &&& (h <- prop SemesterSummary.creditHours s ;; Normal (gt h zero)))
      semesters ;;
  match validSemesters with
  | [] => Normal {| cgpa := None; totalCgpaCreditHours := zero |}
  | _ =>
      totalCreditHours <-
        Array_reduce (fun sum s =>
            h <- prop SemesterSummary.creditHours s ;; Normal (add sum h))
          validSemesters zero ;;
      if le totalCreditHours zero || negb (isFinite totalCreditHours) then
        Normal {| cgpa := None; totalCgpaCreditHours := zero |}
      else
        totalWeightedPoints <-
          Array_reduce (fun sum s =>
              g <- prop SemesterSummary.gpa s ;;
              h <- prop SemesterSummary.creditHours s ;;
              Normal (add sum (mul g h)))
            validSemesters zero ;;
        let rawCgpa := div totalWeightedPoints totalCreditHours in
        let cgpa := if isFinite rawCgpa then roundToTwo rawCgpa else zero in
        Normal {| cgpa := Some cgpa; totalCgpaCreditHours := totalCreditHours |}
  end.

Definition getGradeOptions : list string :=
  [ "A"; "A-"; "B+"; "B"; "C+"; "C"; "D+"; "D"; "F" ].

Definition getAllowedCreditHours : list number :=
  [ of_Z 1; of_Z 2; of_Z 3; of_Z 4 ].

(** ** What the specification calls the valid subset *)

(** [pointsFor]: the grade point of a letter of the table. *)
Definition pointsFor (g : string) : option number := own GRADE_POINTS g.

Definition validCourse (c : Course.t) : bool :=
  isFinite (Course.creditHours c)
  && gt (Course.creditHours c) zero
  && match pointsFor (Course.grade c) with Some _ => true | None => false end.

Definition validSemester (s : SemesterSummary.t) : bool :=
  isFinite (SemesterSummary.gpa s)
  && ge (SemesterSummary.gpa s) zero
  && le (SemesterSummary.gpa s) (of_Z 4)
  && isFinite (SemesterSummary.creditHours s)
  && gt (SemesterSummary.creditHours s) zero.

(** The sum of a list of numbers, added from the left starting at [0]. *)
Definition sum (l : list number) : number := fold_left add l zero.

Definition courseCredits (cs : list Course.t) : number :=
  sum (map Course.creditHours cs).

(** Credit hours times the table's grade point. *)
Definition coursePoints (c : Course.t) : number :=
  match pointsFor (Course.grade c) with
  | Some p => mul (Course.creditHours c) p
  | None => NaN
  end.

Definition courseWeighted (cs : list Course.t) : number :=
  sum (map coursePoints cs).

Definition semesterCredits (ss : list SemesterSummary.t) : number :=
  sum (map SemesterSummary.creditHours ss).

Definition semesterWeighted (ss : list SemesterSummary.t) : number :=
  sum (map (fun s => mul (SemesterSummary.gpa s) (SemesterSummary.creditHours s))
         ss).

(** The objects of an array, its [null] slots left out. *)
Definition objects {A} (l : list (option A)) : list A :=
  flat_map (fun o => match o with Some a => [a] | None => [] end) l.

(** ** What the two filters keep *)

(** The test of [calculateGpa]'s filter on an object: the grade only has to
    read as something other than [undefined]. *)
Definition keptCourse (c : Course.t) : bool :=
  isFinite (Course.creditHours c)
  && gt (Course.creditHours c) zero
  && not_undefined (Get GRADE_POINTS (Course.grade c)).

(** What the second [reduce] of [calculateGpa] adds for a course. *)
Definition addedPoints (c : Course.t) : number :=
  match nullish (Get GRADE_POINTS (Course.grade c)) (VNumber zero) with
  | VNumber p => mul (Course.creditHours c) p
  | VUndefined | VObject _ => mul (Course.creditHours c) NaN
  end.

(** A positive number, [Infinity] included, whose exponent is not below the
    exponent of the subnormal numbers. *)
Definition positive_number (x : number) : bool :=
  match x with
  | S754_finite false _ e => emin prec emax <=? e
  | S754_infinity false => true
  | _ => false
  end.

(** ** Concrete inputs: the scenarios of the specification and a few others *)

Definition mkCourse (h : number) (g : string) : Course.t :=
  {| Course.name := None; Course.creditHours := h; Course.grade := g |}.

Definition mkSemester (g h : number) : SemesterSummary.t :=
  {| SemesterSummary.name := "Semester"; SemesterSummary.gpa := g;
     SemesterSummary.creditHours := h |}.

(** Scenario 1: 3 credit hours of A and 3 of B. *)
Definition scenario1 : list Course.t :=
  [ mkCourse (of_Z 3) "A"; mkCourse (of_Z 3) "B" ].

(** Scenario 4: gpa 3.5 over 15 credit hours, gpa 3.0 over 12. *)
Definition scenario4 : list SemesterSummary.t :=
  [ mkSemester (decimal 35 1) (of_Z 15); mkSemester (decimal 30 1) (of_Z 12) ].

(** Scenario 5: one term whose gpa, 5, is out of range. *)
Definition scenario5 : list SemesterSummary.t :=
  [ mkSemester (of_Z 5) (of_Z 15) ].

(** Two courses, and two terms, of 1e308 credit hours each. *)
Definition hugeCourses : list Course.t :=
  [ mkCourse (of_Z (10 ^ 308)) "A"; mkCourse (of_Z (10 ^ 308)) "A" ].

Definition hugeSemesters : list SemesterSummary.t :=
  [ mkSemester (of_Z 4) (of_Z (10 ^ 308)); mkSemester (of_Z 4) (of_Z (10 ^ 308)) ].

(** A course whose grade is the name of a property that [GRADE_POINTS]
    inherits from [Object.prototype]. *)
Definition inheritedGrade : Course.t := mkCourse (of_Z 3) "constructor".

(** ** The two phases of the rounding of a result *)

(** The round bit and the sticky bit that stand for a location. *)
Definition loc_r (l : location) : bool :=
  match l with
  | loc_Inexact Eq | loc_Inexact Gt => true
  | _ => false
  end.

Definition loc_s (l : location) : bool :=
  match l with
  | loc_Inexact Lt | loc_Inexact Gt => true
  | _ => false
  end.

(** The second phase of [binary_round_aux]: the rounded mantissa [m] at
    exponent [e] is put back in canonical position and tested for overflow. *)
Definition finish (s : bool) (m e : Z) : number :=
  let '(mrs, e') := shr_fexp prec emax m e loc_Exact in
  match shr_m mrs with
  | Z0 => S754_zero s
  | Zpos m' =>
      if e' <=? emax - prec then S754_finite s m' e' else S754_infinity s
  | Zneg _ => S754_nan
  end.

(** The value of a non-negative finite number, counted in units of
    [2^emin], the spacing of the subnormal numbers: an integer. *)
Definition units (x : number) : Z :=
  match x with
  | S754_finite false m e => Zpos m * 2 ^ (e - emin prec emax)
  | _ => 0
  end.

(** A non-negative finite number in canonical form. *)
Definition nonneg (x : number) : bool :=
  match x with
  | S754_zero false => true
  | S754_finite false m e => bounded prec emax m e
  | _ => false
  end.

(** Whether a mantissa [q], cut off with the remainder [r] out of [p], is
    rounded up: beyond the half, or at the half when [q] is odd. *)
Definition round_up (p r q : Z) : bool :=
  (p <=? 2 * r) && ((negb (r =? 0) && negb (2 * r =? p)) || Z.odd q).

(** Rounding of a non-negative integer to 53 significant bits, to nearest
    with ties to even: the rounding of binary64 on values counted in units
    of [2^emin], overflow apart. *)
Definition round53 (v : Z) : Z :=
  let n := Zdigits2 v - prec in
  if n <=? 0 then v
  else
    let p := 2 ^ n in
    if round_up p (v mod p) (v / p) then (v / p + 1) * p else (v / p) * p.

(** The invariant of the two sums of [calculateGpa]: unless the credit hours
    [T] have overflowed, the points [P] are [NaN] (a grade read an inherited
    property), or have overflowed, or are at most four times [T]. *)
Definition points_within (P T : number) : Prop :=
  T = Infinity
  \/ (nonneg T = true
      /\ (P = NaN \/ P = Infinity
          \/ (nonneg P = true /\ units P <= 4 * units T))).


(** * The component

    The Angular component [App] (app.ts) keeps two reactive forms, one row
    per course and one row per term, and shows the results of the service.

    - A form control holds [null], [undefined], a number or a string (what a
      text, number or select control produces); the name and grade controls
      hold [null] or a string.  The conversion of a string to a number is a
      parameter, [StringToNumber].
    - A [FormArray] is the list of its rows; a row is named by its position.
      [push], [removeAt] and [reset] of a row each make the enclosing form
      emit [valueChanges] once, which runs every subscriber in turn.
    - [setTimeout] puts a task in the list of pending timers; a pending timer
      can run at any later moment, in any order.
    - The document title and meta tags set by [setupSeo] are not part of the
      state. *)

Module Control.

Inductive value : Type :=
| Null
| Undefined
| Num (n : number)
| Str (s : string).

(** [Number(v)] *)
Definition Number (StringToNumber : string -> number) (v : value) : number :=
  match v with
  | Null => zero
  | Undefined => NaN
  | Num n => n
  | Str s => StringToNumber s
  end.

(** [x || 0] for a number [x]: [NaN], [0] and [-0] are falsy. *)
Definition or_zero (x : number) : number :=
  match x with
  | S754_nan | S754_zero _ => zero
  | _ => x
  end.

(** [s ?? ''] *)
Definition or_empty (s : option string) : string :=
  match s with Some s => s | None => "" end.

(** The property key a grade value names: [null] names "null". *)
Definition key (g : option string) : string :=
  match g with Some g => g | None => "null" end.

End Control.

Module CourseGroup.
Record t : Type :=
  { name : option string; creditHours : Control.value; grade : option string }.
End CourseGroup.

Module SemesterGroup.
Record t : Type :=
  { name : option string; gpa : Control.value; creditHours : Control.value }.
End SemesterGroup.

Module FormArray.

(** [removeAt(index)]: the row at [index] is spliced out; no row is removed
    when there is none at [index]. *)
Fixpoint removeAt {A} (index : nat) (controls : list A) : list A :=
  match controls, index with
  | [], _ => []
  | _ :: rest, O => rest
  | c :: rest, S i => c :: removeAt i rest
  end.

(** [at(0).reset(value)]: the first row takes the given value; there being
    no first row, [at(0)] is [undefined] and the call throws. *)
Definition reset_first {A} (value : A) (controls : list A)
  : completion (list A) :=
  match controls with
  | [] => Throw "TypeError"
  | _ :: rest => Normal (value :: rest)
  end.

(** A row is given a new value by the user. *)
Fixpoint setValue {A} (index : nat) (value : A) (controls : list A) : list A :=
  match controls, index with
  | [], _ => []
  | _ :: rest, O => value :: rest
  | c :: rest, S i => c :: setValue i value rest
  end.

End FormArray.

Module App.

(** The callbacks handed to [setTimeout]: the outer one of a pulse sets the
    flag and starts the inner one, which clears it. *)
Inductive task : Type :=
| GpaPulseOn
| GpaPulseOff
| CgpaPulseOn
| CgpaPulseOff.

Record t : Type :=
  { courses : list CourseGroup.t;
    semesters : list SemesterGroup.t;
    gpaFormSubscribers : nat;
    semestersFormSubscribers : nat;
    currentGpa : number;
    currentTotalCreditHours : number;
    currentCgpa : option number;
    currentTotalCgpaCredits : number;
    isGpaPulsing : bool;
    isCgpaPulsing : bool;
    timers : list (Z * task) }.

Definition set_courses (v : list CourseGroup.t) (a : t) : t :=
  {| courses := v; semesters := semesters a;
     gpaFormSubscribers := gpaFormSubscribers a;
     semestersFormSubscribers := semestersFormSubscribers a;
     currentGpa := currentGpa a;
     currentTotalCreditHours := currentTotalCreditHours a;
     currentCgpa := currentCgpa a;
     currentTotalCgpaCredits := currentTotalCgpaCredits a;
     isGpaPulsing := isGpaPulsing a; isCgpaPulsing := isCgpaPulsing a;
     timers := timers a |}.

Definition set_semesters (v : list SemesterGroup.t) (a : t) : t :=
  {| courses := courses a; semesters := v;
     gpaFormSubscribers := gpaFormSubscribers a;
     semestersFormSubscribers := semestersFormSubscribers a;
     currentGpa := currentGpa a;
     currentTotalCreditHours := currentTotalCreditHours a;
     currentCgpa := currentCgpa a;
     currentTotalCgpaCredits := currentTotalCgpaCredits a;
     isGpaPulsing := isGpaPulsing a; isCgpaPulsing := isCgpaPulsing a;
     timers := timers a |}.

Definition subscribe (a : t) : t :=
  {| courses := courses a; semesters := semesters a;
     gpaFormSubscribers := S (gpaFormSubscribers a);
     semestersFormSubscribers := S (semestersFormSubscribers a);
     currentGpa := currentGpa a;
     currentTotalCreditHours := currentTotalCreditHours a;
     currentCgpa := currentCgpa a;
     currentTotalCgpaCredits := currentTotalCgpaCredits a;
     isGpaPulsing := isGpaPulsing a; isCgpaPulsing := isCgpaPulsing a;
     timers := timers a |}.

Definition set_gpa (r : GpaResult) (a : t) : t :=
  {| courses := courses a; semesters := semesters a;
     gpaFormSubscribers := gpaFormSubscribers a;
     semestersFormSubscribers := semestersFormSubscribers a;
     currentGpa := gpa r;
     currentTotalCreditHours := totalCreditHours r;
     currentCgpa := currentCgpa a;
     currentTotalCgpaCredits := currentTotalCgpaCredits a;
     isGpaPulsing := isGpaPulsing a; isCgpaPulsing := isCgpaPulsing a;
     timers := timers a |}.

Definition set_cgpa (r : CgpaResult) (a : t) : t :=
  {| courses := courses a; semesters := semesters a;
     gpaFormSubscribers := gpaFormSubscribers a;
     semestersFormSubscribers := semestersFormSubscribers a;
     currentGpa := currentGpa a;
     currentTotalCreditHours := currentTotalCreditHours a;
     currentCgpa := cgpa r;
     currentTotalCgpaCredits := totalCgpaCreditHours r;
     isGpaPulsing := isGpaPulsing a; isCgpaPulsing := isCgpaPulsing a;
     timers := timers a |}.

Definition set_isGpaPulsing (v : bool) (a : t) : t :=
  {| courses := courses a; semesters := semesters a;
     gpaFormSubscribers := gpaFormSubscribers a;
     semestersFormSubscribers := semestersFormSubscribers a;
     currentGpa := currentGpa a;
     currentTotalCreditHours := currentTotalCreditHours a;
     currentCgpa := currentCgpa a;
     currentTotalCgpaCredits := currentTotalCgpaCredits a;
     isGpaPulsing := v; isCgpaPulsing := isCgpaPulsing a;
     timers := timers a |}.

Definition set_isCgpaPulsing (v : bool) (a : t) : t :=
  {| courses := courses a; semesters := semesters a;
     gpaFormSubscribers := gpaFormSubscribers a;
     semestersFormSubscribers := semestersFormSubscribers a;
     currentGpa := currentGpa a;
     currentTotalCreditHours := currentTotalCreditHours a;
     currentCgpa := currentCgpa a;
     currentTotalCgpaCredits := currentTotalCgpaCredits a;
     isGpaPulsing := isGpaPulsing a; isCgpaPulsing := v;
     timers := timers a |}.

Definition set_timers (v : list (Z * task)) (a : t) : t :=
  {| courses := courses a; semesters := semesters a;
     gpaFormSubscribers := gpaFormSubscribers a;
     semestersFormSubscribers := semestersFormSubscribers a;
     currentGpa := currentGpa a;
     currentTotalCreditHours := currentTotalCreditHours a;
     currentCgpa := currentCgpa a;
     currentTotalCgpaCredits := currentTotalCgpaCredits a;
     isGpaPulsing := isGpaPulsing a; isCgpaPulsing := isCgpaPulsing a;
     timers := v |}.

(** [setTimeout(callback, delay)] *)
Definition setTimeout (callback : task) (delay : Z) (a : t) : t :=
  set_timers (timers a ++ [(delay, callback)]) a.

(** The field initialisers of the class, and the two empty forms. *)
Definition fields : t :=
  {| courses := []; semesters := [];
     gpaFormSubscribers := 0; semestersFormSubscribers := 0;
     currentGpa := zero; currentTotalCreditHours := zero;
     currentCgpa := None; currentTotalCgpaCredits := zero;
     isGpaPulsing := false; isCgpaPulsing := false;
     timers := [] |}.

(** The group [addCourse] builds, and the value [removeCourse] and
    [resetCourses] reset the first row to. *)
Definition defaultCourse : CourseGroup.t :=
  {| CourseGroup.name := Some "";
     CourseGroup.creditHours := Control.Num (of_Z 3);
     CourseGroup.grade := Some "A" |}.

(** The group [addSemester] builds as row number [index]; with [index] 1, the
    value [removeSemester] and [resetSemesters] reset the first row to. *)
Definition blankSemester (index : nat) : SemesterGroup.t :=
  {| SemesterGroup.name :=
       Some (String.append "Semester "
               (NilEmpty.string_of_uint (Nat.to_uint index)));
     SemesterGroup.gpa := Control.Null;
     SemesterGroup.creditHours := Control.Null |}.

(** [valueChanges] of a form with that many subscribers. *)
Fixpoint emit (subscribers : nat) (next : t -> completion t) (a : t)
  : completion t :=
  match subscribers with
  | O => Normal a
  | S n => a' <- next a ;; emit n next a'
  end.

Definition triggerGpaPulse (a : t) : t :=
  setTimeout GpaPulseOn 0 (set_isGpaPulsing false a).

Definition triggerCgpaPulse (a : t) : t :=
  setTimeout CgpaPulseOn 0 (set_isCgpaPulsing false a).

(** A pending timer runs. *)
Definition callback (k : task) (a : t) : t :=
  match k with
  | GpaPulseOn => setTimeout GpaPulseOff 220 (set_isGpaPulsing true a)
  | GpaPulseOff => set_isGpaPulsing false a
  | CgpaPulseOn => setTimeout CgpaPulseOff 220 (set_isCgpaPulsing true a)
  | CgpaPulseOff => set_isCgpaPulsing false a
  end.

Section Methods.

Variable StringToNumber : string -> number.

(** The object [recalculateGpa] maps a row of the form to. *)
Definition rawCourse (c : CourseGroup.t) : Course.t :=
  {| Course.name := Some (Control.or_empty (CourseGroup.name c));
     Course.creditHours :=
       Control.or_zero (Control.Number StringToNumber (CourseGroup.creditHours c));
     Course.grade := Control.key (CourseGroup.grade c) |}.

Definition rawSemester (s : SemesterGroup.t) : SemesterSummary.t :=
  {| SemesterSummary.name := Control.or_empty (SemesterGroup.name s);
     SemesterSummary.gpa := Control.Number StringToNumber (SemesterGroup.gpa s);
     SemesterSummary.creditHours :=
       Control.Number StringToNumber (SemesterGroup.creditHours s) |}.

Definition recalculateGpa (a : t) : completion t :=
  let rawCourses := map (fun c => Some (rawCourse c)) (courses a) in
  result <- calculateGpa rawCourses ;;
  let a := set_gpa result a in
  Normal (if gt (currentTotalCreditHours a) zero then triggerGpaPulse a else a).

Definition recalculateCgpa (a : t) : completion t :=
  let rawSemesters := map (fun s => Some (rawSemester s)) (semesters a) in
  result <- calculateCgpa rawSemesters ;;
  let a := set_cgpa result a in
  Normal (match currentCgpa a with
          | Some _ => triggerCgpaPulse a
          | None => a
          end).

(** The courses array is changed and [gpaForm] emits [valueChanges]. *)
Definition courses_changed (v : list CourseGroup.t) (a : t) : completion t :=
  emit (gpaFormSubscribers a) recalculateGpa (set_courses v a).

Definition semesters_changed (v : list SemesterGroup.t) (a : t)
  : completion t :=
  emit (semestersFormSubscribers a) recalculateCgpa (set_semesters v a).

Definition addCourse (a : t) : completion t :=
  courses_changed (courses a ++ [defaultCourse]) a.

Definition removeCourse (index : nat) (a : t) : completion t :=
  a <- (if (1 <? List.length (courses a))%nat then
          courses_changed (FormArray.removeAt index (courses a)) a
        else
          v <- FormArray.reset_first defaultCourse (courses a) ;;
          courses_changed v a) ;;
  recalculateGpa a.

(** The loop [while (this.courses.length > 1) this.courses.removeAt(0)],
    with a bound on the number of rounds. *)
Fixpoint removeCourses (fuel : nat) (a : t) : completion t :=
  if (1 <? List.length (courses a))%nat then
    match fuel with
    | O => Throw "out of fuel"
    | S n =>
        a <- courses_changed (FormArray.removeAt 0 (courses a)) a ;;
        removeCourses n a
    end
  else Normal a.

Definition resetCourses (a : t) : completion t :=
  a <- removeCourses (List.length (courses a)) a ;;
  a <- (if (List.length (courses a) =? 0)%nat then addCourse a
        else
          v <- FormArray.reset_first defaultCourse (courses a) ;;
          courses_changed v a) ;;
  recalculateGpa a.

Definition addSemester (a : t) : completion t :=
  let index := (List.length (semesters a) + 1)%nat in
  semesters_changed (semesters a ++ [blankSemester index]) a.

Definition removeSemester (index : nat) (a : t) : completion t :=
  a <- (if (1 <? List.length (semesters a))%nat then
          semesters_changed (FormArray.removeAt index (semesters a)) a
        else
          v <- FormArray.reset_first (blankSemester 1) (semesters a) ;;
          semesters_changed v a) ;;
  recalculateCgpa a.

Fixpoint removeSemesters (fuel : nat) (a : t) : completion t :=
  if (1 <? List.length (semesters a))%nat then
    match fuel with
    | O => Throw "out of fuel"
    | S n =>
        a <- semesters_changed (FormArray.removeAt 0 (semesters a)) a ;;
        removeSemesters n a
    end
  else Normal a.

Definition resetSemesters (a : t) : completion t :=
  a <- removeSemesters (List.length (semesters a)) a ;;
  a <- (if (List.length (semesters a) =? 0)%nat then addSemester a
        else
          v <- FormArray.reset_first (blankSemester 1) (semesters a) ;;
          semesters_changed v a) ;;
  recalculateCgpa a.

(** [new App()]: the two forms are built empty, then a first course row and
    a first term row are added. *)
Definition constructor : completion t :=
  a <- addCourse fields ;;
  addSemester a.

Definition ngOnInit (a : t) : completion t :=
  a <- recalculateGpa (subscribe a) ;;
  recalculateCgpa a.

(** What happens to a component once it is on the page: the user presses a
    button, gives a row a new value, or a pending timer runs. *)
Inductive event : Type :=
| AddCourse
| RemoveCourse (index : nat)
| ResetCourses
| SetCourse (index : nat) (value : CourseGroup.t)
| AddSemester
| RemoveSemester (index : nat)
| ResetSemesters
| SetSemester (index : nat) (value : SemesterGroup.t)
| Timeout (index : nat).

Definition handle (e : event) (a : t) : completion t :=
  match e with
  | AddCourse => addCourse a
  | RemoveCourse index => removeCourse index a
  | ResetCourses => resetCourses a
  | SetCourse index value =>
      if (index <? List.length (courses a))%nat then
        courses_changed (FormArray.setValue index value (courses a)) a
      else Normal a
  | AddSemester => addSemester a
  | RemoveSemester index => removeSemester index a
  | ResetSemesters => resetSemesters a
  | SetSemester index value =>
      if (index <? List.length (semesters a))%nat then
        semesters_changed (FormArray.setValue index value (semesters a)) a
      else Normal a
  | Timeout index =>
      match nth_error (timers a) index with
      | Some (_, k) =>
          Normal (callback k (set_timers (FormArray.removeAt index (timers a)) a))
      | None => Normal a
      end
  end.

Fixpoint run (events : list event) (a : t) : completion t :=
  match events with
  | [] => Normal a
  | e :: rest => a <- handle e a ;; run rest a
  end.

(** The component after its construction and [ngOnInit], then the events. *)
Definition session (events : list event) : completion t :=
  a <- constructor ;;
  a <- ngOnInit a ;;
  run events a.

End Methods.

End App.

(** ** What holds of a component on the page *)

(** The numbers shown are the service's results for the rows of the forms. *)
Definition gpa_shown (N : string -> number) (a : App.t) : Prop :=
  calculateGpa (map (fun c => Some (App.rawCourse N c)) (App.courses a))
  = Normal {| gpa := App.currentGpa a;
              totalCreditHours := App.currentTotalCreditHours a |}.

Definition cgpa_shown (N : string -> number) (a : App.t) : Prop :=
  calculateCgpa (map (fun s => Some (App.rawSemester N s)) (App.semesters a))
  = Normal {| cgpa := App.currentCgpa a;
              totalCgpaCreditHours := App.currentTotalCgpaCredits a |}.

(** A pulse that is on has its end pending. *)
Definition pulses_end (a : App.t) : Prop :=
  (App.isGpaPulsing a = true -> In (220, App.GpaPulseOff) (App.timers a))
  /\ (App.isCgpaPulsing a = true -> In (220, App.CgpaPulseOff) (App.timers a)).

Definition on_page (N : string -> number) (a : App.t) : Prop :=
  App.courses a <> []
  /\ App.semesters a <> []
  /\ App.gpaFormSubscribers a = 1%nat
  /\ App.semestersFormSubscribers a = 1%nat
  /\ gpa_shown N a
  /\ cgpa_shown N a
  /\ pulses_end a.

(** What a recalculation of the GPA leaves as it is, the rows apart: the
    term side, the subscriptions and the pending timers; it turns no pulse
    on. *)
Definition gpa_side (a a' : App.t) : Prop :=
  App.semesters a' = App.semesters a
  /\ App.gpaFormSubscribers a' = App.gpaFormSubscribers a
  /\ App.semestersFormSubscribers a' = App.semestersFormSubscribers a
  /\ App.currentCgpa a' = App.currentCgpa a
  /\ App.currentTotalCgpaCredits a' = App.currentTotalCgpaCredits a
  /\ App.isCgpaPulsing a' = App.isCgpaPulsing a
  /\ (App.isGpaPulsing a' = true -> App.isGpaPulsing a = true)
  /\ (forall k, In k (App.timers a) -> In k (App.timers a')).

Definition cgpa_side (a a' : App.t) : Prop :=
  App.courses a' = App.courses a
  /\ App.gpaFormSubscribers a' = App.gpaFormSubscribers a
  /\ App.semestersFormSubscribers a' = App.semestersFormSubscribers a
  /\ App.currentGpa a' = App.currentGpa a
  /\ App.currentTotalCreditHours a' = App.currentTotalCreditHours a
  /\ App.isGpaPulsing a' = App.isGpaPulsing a
  /\ (App.isCgpaPulsing a' = true -> App.isCgpaPulsing a = true)
  /\ (forall k, In k (App.timers a) -> In k (App.timers a')).

(** The numbers of a row, as valid binary64 values. *)
Definition course_wf (N : string -> number) (c : CourseGroup.t) : Prop :=
  wf (Control.Number N (CourseGroup.creditHours c)) = true.

Definition semester_wf (N : string -> number) (s : SemesterGroup.t) : Prop :=
  wf (Control.Number N (SemesterGroup.gpa s)) = true
  /\ wf (Control.Number N (SemesterGroup.creditHours s)) = true.

Definition event_wf (N : string -> number) (e : App.event) : Prop :=
  match e with
  | App.SetCourse _ c => course_wf N c
  | App.SetSemester _ s => semester_wf N s
  | _ => True
  end.

Definition rows_wf (N : string -> number) (a : App.t) : Prop :=
  Forall (course_wf N) (App.courses a)
  /\ Forall (semester_wf N) (App.semesters a).
(** * Proofs *)

(** ** The array methods on callbacks that do not throw *)

Lemma Array_filter_pure {A} (cb : A -> completion bool) (p : A -> bool) l :
  (forall x, cb x = Normal (p x)) ->
  Array_filter cb l = Normal (filter p l).
Proof.
  intros Hcb. induction l as [|x r IH]; simpl; [reflexivity|].
  rewrite Hcb, IH. simpl. reflexivity.
Qed.

Lemma Array_reduce_pure {A B} (cb : B -> A -> completion B) (g : B -> A -> B) l :
  Forall (fun x => forall acc, cb acc x = Normal (g acc x)) l ->
  forall init, Array_reduce cb l init = Normal (fold_left g l init).
Proof.
  induction 1 as [|x r Hx _ IH]; intros init; simpl; [reflexivity|].
  rewrite Hx. simpl. apply IH.
Qed.

Lemma filter_objects {A} (p : A -> bool) (l : list (option A)) :
  filter (fun o => match o with Some a => p a | None => false end) l
  = map Some (filter p (objects l)).
Proof.
  induction l as [|[a|] r IH]; simpl; auto.
  destruct (p a); simpl; congruence.
Qed.

Lemma objects_map_Some {A} (l : list A) : objects (map Some l) = l.
Proof. induction l; simpl; congruence. Qed.

Lemma objects_app {A} (l1 l2 : list (option A)) :
  objects (l1 ++ l2) = objects l1 ++ objects l2.
Proof. unfold objects. apply flat_map_app. Qed.

Lemma fold_left_map {A B C} (f : B -> C -> B) (g : A -> C) l init :
  fold_left f (map g l) init = fold_left (fun acc x => f acc (g x)) l init.
Proof. revert init. induction l; simpl; auto. Qed.

(** ** The calculators in closed form *)

Lemma calculateGpa_filter (courses : list (option Course.t)) :
  Array_filter (fun c =>
      truthy c
      &&& (h <- prop Course.creditHours c ;; Normal (isFinite h))
      &&& (h <- prop Course.creditHours c ;; Normal (gt h zero))
      &&& (g <- prop Course.grade c ;;
           Normal (not_undefined (Get GRADE_POINTS g))))
    courses
  = Normal (map Some (filter keptCourse (objects courses))).
Proof.
  rewrite <- filter_objects. apply Array_filter_pure.
  intros [c|]; [|reflexivity]. unfold keptCourse. simpl.
  destruct (isFinite _); [|reflexivity]. simpl.
  destruct (gt _ _); reflexivity.
Qed.

Lemma calculateGpa_eq (courses : list (option Course.t)) :
  calculateGpa courses =
  let vs := filter keptCourse (objects courses) in
  let total := courseCredits vs in
  Normal
    (if le total zero || negb (isFinite total) then
       {| gpa := zero; totalCreditHours := zero |}
     else
       let raw := div (sum (map addedPoints vs)) total in
       {| gpa := if isFinite raw then roundToTwo raw else zero;
          totalCreditHours := total |}).
Proof.
  unfold calculateGpa. rewrite calculateGpa_filter. cbn zeta. simpl bind at 1.
  set (vs := filter keptCourse (objects courses)).
  rewrite (Array_reduce_pure _ (fun s c => match c with
                                           | Some c => add s (Course.creditHours c)
                                           | None => s end)).
  2:{ apply Forall_forall. intros x Hx. apply in_map_iff in Hx.
      destruct Hx as (c & <- & _). reflexivity. }
  simpl bind at 1. rewrite fold_left_map.
  unfold courseCredits, sum. rewrite fold_left_map.
  destruct (_ || _); [reflexivity|].
  rewrite (Array_reduce_pure _ (fun s c => match c with
                                           | Some c => add s (addedPoints c)
                                           | None => s end)).
  2:{ apply Forall_forall. intros x Hx. apply in_map_iff in Hx.
      destruct Hx as (c & <- & _). intros acc. unfold addedPoints. simpl.
      destruct (nullish _ _); reflexivity. }
  simpl bind at 1. rewrite !fold_left_map. reflexivity.
Qed.

Lemma calculateCgpa_filter (semesters : list (option SemesterSummary.t)) :
  Array_filter (fun s =>
      truthy s
      &&& (g <- prop SemesterSummary.gpa s ;; Normal (isFinite g))
      &&& (g <- prop SemesterSummary.gpa s ;; Normal (ge g zero))
      &&& (g <- prop SemesterSummary.gpa s ;; Normal (le g (of_Z 4)))
      &&& (h <- prop SemesterSummary.creditHours s ;; Normal (isFinite h))
      &&& (h <- prop SemesterSummary.creditHours s ;; Normal (gt h zero)))
    semesters
  = Normal (map Some (filter validSemester (objects semesters))).
Proof.
  rewrite <- filter_objects. apply Array_filter_pure.
  intros [s|]; [|reflexivity]. unfold validSemester. simpl.
  destruct (isFinite (SemesterSummary.gpa s)); [|reflexivity]. simpl.
  destruct (ge _ _); [|reflexivity]. simpl.
  destruct (le _ _); [|reflexivity]. simpl.
  destruct (isFinite _); [|reflexivity]. simpl.
  destruct (gt _ _); reflexivity.
Qed.

Lemma calculateCgpa_eq (semesters : list (option SemesterSummary.t)) :
  calculateCgpa semesters =
  let vs := filter validSemester (objects semesters) in
  let total := semesterCredits vs in
  Normal
    (match vs with
     | [] => {| cgpa := None; totalCgpaCreditHours := zero |}
     | _ =>
         if le total zero || negb (isFinite total) then
           {| cgpa := None; totalCgpaCreditHours := zero |}
         else
           let raw := div (semesterWeighted vs) total in
           {| cgpa := Some (if isFinite raw then roundToTwo raw else zero);
              totalCgpaCreditHours := total |}
     end).
Proof.
  unfold calculateCgpa. rewrite calculateCgpa_filter. cbn zeta. simpl bind at 1.
  set (vs := filter validSemester (objects semesters)).
  destruct vs as [|v vs']; [reflexivity|].
  change (map Some (v :: vs')) with (Some v :: map Some vs') at 1. cbv iota.
  rewrite (Array_reduce_pure _ (fun s c => match c with
                                   | Some c => add s (SemesterSummary.creditHours c)
                                   | None => s end)).
  2:{ apply Forall_forall. intros x Hx. apply in_map_iff in Hx.
      destruct Hx as (c & <- & _). reflexivity. }
  simpl bind at 1. rewrite fold_left_map.
  unfold semesterCredits, semesterWeighted, sum. rewrite !fold_left_map.
  destruct (_ || _); [reflexivity|].
  rewrite (Array_reduce_pure _ (fun s c => match c with
            | Some c => add s (mul (SemesterSummary.gpa c) (SemesterSummary.creditHours c))
            | None => s end)).
  2:{ apply Forall_forall. intros x Hx. apply in_map_iff in Hx.
      destruct Hx as (c & <- & _). reflexivity. }
  simpl bind at 1. rewrite !fold_left_map. reflexivity.
Qed.

(** ** Binary64 rounding: shifts, digits and signs *)

(** Linear arithmetic over the constants of the binary64 format. *)
Ltac format_lia := unfold fexp, emin, prec, emax in *; lia.

Lemma digits2_pos_bounds (m : positive) :
  2 ^ (Zpos (digits2_pos m) - 1) <= Zpos m < 2 ^ Zpos (digits2_pos m).
Proof.
  induction m as [m IH|m IH|]; simpl digits2_pos.
  - rewrite Pos2Z.inj_succ.
    replace (Z.succ (Zpos (digits2_pos m)) - 1) with (Zpos (digits2_pos m) - 1 + 1) by lia.
    rewrite Z.pow_succ_r by lia. rewrite Z.pow_add_r by lia. lia.
  - rewrite Pos2Z.inj_succ.
    replace (Z.succ (Zpos (digits2_pos m)) - 1) with (Zpos (digits2_pos m) - 1 + 1) by lia.
    rewrite Z.pow_succ_r by lia. rewrite Z.pow_add_r by lia. lia.
  - simpl. lia.
Qed.

Lemma shr_m_of_loc m l : shr_m (shr_record_of_loc m l) = m.
Proof. destruct l as [|[| |]]; reflexivity. Qed.

Lemma shr_1_m mrs : 0 <= shr_m mrs -> shr_m (shr_1 mrs) = shr_m mrs / 2.
Proof.
  destruct mrs as [m r s]. simpl. intros Hm.
  destruct m as [|[p|p|]|p]; simpl; try lia; try reflexivity.
  - rewrite Pos2Z.inj_xI. apply Z.div_unique with 1; lia.
  - rewrite Pos2Z.inj_xO. apply Z.div_unique with 0; lia.
Qed.

Lemma pow2_xO p : 2 ^ Zpos p~0 = 2 ^ Zpos p * 2 ^ Zpos p.
Proof. rewrite <- Z.pow_add_r by lia. f_equal. lia. Qed.

Lemma pow2_xI p : 2 ^ Zpos p~1 = 2 * (2 ^ Zpos p * 2 ^ Zpos p).
Proof.
  rewrite <- Z.pow_add_r by lia. rewrite <- Z.pow_succ_r by lia. f_equal. lia.
Qed.

Lemma iter_shr_m p : forall mrs,
  0 <= shr_m mrs -> shr_m (iter_pos shr_1 p mrs) = shr_m mrs / 2 ^ Zpos p.
Proof.
  assert (Hpow : forall q, 0 < 2 ^ Zpos q) by (intros; apply Z.pow_pos_nonneg; lia).
  induction p as [p IH|p IH|]; intros mrs Hm; simpl iter_pos.
  - assert (H1 : 0 <= shr_m (shr_1 mrs))
      by (rewrite shr_1_m by auto; apply Z.div_pos; lia).
    assert (H2 : 0 <= shr_m (iter_pos shr_1 p (shr_1 mrs)))
      by (rewrite IH by auto; apply Z.div_pos; auto).
    rewrite IH, IH, shr_1_m by auto.
    rewrite !Z.div_div by (auto; lia).
    f_equal. symmetry. apply pow2_xI.
  - assert (H2 : 0 <= shr_m (iter_pos shr_1 p mrs))
      by (rewrite IH by auto; apply Z.div_pos; auto).
    rewrite IH, IH by auto.
    rewrite !Z.div_div by (auto; lia).
    f_equal. symmetry. apply pow2_xO.
  - rewrite shr_1_m by auto. reflexivity.
Qed.

Lemma round_nearest_even_ge m l : m <= round_nearest_even m l.
Proof. destruct l as [|[| |]]; simpl; try lia. destruct (Z.even m); lia. Qed.

Lemma Zdigits2_pos_bounds m :
  0 < m -> 2 ^ (Zdigits2 m - 1) <= m < 2 ^ Zdigits2 m.
Proof. destruct m; try lia. intros _. apply digits2_pos_bounds. Qed.

Lemma shr_fexp_pos m e l mrs e' :
  0 < m -> emin prec emax <= e ->
  shr_fexp prec emax m e l = (mrs, e') ->
  0 < shr_m mrs /\ e <= e'.
Proof.
  intros Hm He. unfold shr_fexp, shr.
  pose proof (Zdigits2_pos_bounds m Hm) as Hd.
  assert (Hd1 : 1 <= Zdigits2 m) by (destruct m; simpl; lia).
  destruct (fexp prec emax (Zdigits2 m + e) - e) as [|p|p] eqn:En;
    intros [= <- <-]; rewrite ?iter_shr_m, ?shr_m_of_loc by (rewrite shr_m_of_loc; lia);
    try (split; lia).
  split; [|lia].
  apply Z.div_str_pos. split; [apply Z.pow_pos_nonneg; lia|].
  apply Z.le_trans with (2 ^ (Zdigits2 m - 1)); [|lia].
  apply Z.pow_le_mono_r; [lia|].
  revert En He. format_lia.
Qed.

Lemma binary_round_aux_pos s m e l :
  0 < m -> emin prec emax <= e ->
  (exists m' e', binary_round_aux prec emax s m e l = S754_finite s m' e'
                 /\ emin prec emax <= e')
  \/ binary_round_aux prec emax s m e l = S754_infinity s.
Proof.
  intros Hm He. unfold binary_round_aux.
  destruct (shr_fexp prec emax m e l) as [mrs1 e1] eqn:E1.
  destruct (shr_fexp_pos _ _ _ _ _ Hm He E1) as [Hm1 He1].
  destruct (shr_fexp prec emax _ e1 loc_Exact) as [mrs2 e2] eqn:E2.
  apply shr_fexp_pos in E2;
    [|pose proof (round_nearest_even_ge (shr_m mrs1) (loc_of_shr_record mrs1)); lia|lia].
  destruct E2 as [Hm2 He2].
  destruct (shr_m mrs2) as [|m2|m2]; try lia.
  destruct (e2 <=? emax - prec); [left|right; reflexivity].
  exists m2, e2. split; [reflexivity|lia].
Qed.

Lemma wf_finite_emin s m e :
  wf (S754_finite s m e) = true -> emin prec emax <= e.
Proof.
  unfold wf, valid_binary, bounded, canonical_mantissa, fexp.
  intros H. apply andb_true_iff in H. destruct H as [H _].
  apply Z.eqb_eq in H. lia.
Qed.

Lemma shl_align_snd m e e' :
  snd (shl_align m e e') = e \/ snd (shl_align m e e') = e'.
Proof. unfold shl_align. destruct (e' - e); simpl; auto. Qed.

Lemma binary_round_pos s m e :
  emin prec emax <= e ->
  (exists m' e', binary_round prec emax s m e = S754_finite s m' e'
                 /\ emin prec emax <= e')
  \/ binary_round prec emax s m e = S754_infinity s.
Proof.
  intros He. unfold binary_round.
  pose proof (shl_align_snd m e (fexp prec emax (Zpos (digits2_pos m) + e))) as Hs.
  destruct (shl_align m e _) as [mz ez]. simpl in Hs.
  apply binary_round_aux_pos; [lia|].
  destruct Hs as [-> | ->]; [assumption|]. unfold fexp. lia.
Qed.

Lemma add_positive x y :
  positive_number x = true -> positive_number y = true ->
  positive_number (add x y) = true.
Proof.
  destruct x as [sx|[|]| |[|] mx ex]; try discriminate;
  destruct y as [sy|[|]| |[|] my ey]; try discriminate; simpl; intros Hx Hy;
    try reflexivity; try assumption.
  apply Z.leb_le in Hx, Hy.
  destruct (binary_round_pos false
              (fst (shl_align mx ex (Z.min ex ey)) + fst (shl_align my ey (Z.min ex ey)))
              (Z.min ex ey)) as [(m' & e' & E & He)| E]; [lia| |];
    rewrite E; simpl; [apply Z.leb_le; assumption|reflexivity].
Qed.

Lemma fold_add_positive l :
  Forall (fun x => positive_number x = true) l ->
  forall acc, positive_number acc = true ->
  positive_number (fold_left add l acc) = true.
Proof.
  induction 1 as [|x r Hx _ IH]; intros acc Hacc; simpl; [assumption|].
  apply IH. apply add_positive; assumption.
Qed.

Lemma add_zero_positive x : positive_number x = true -> add zero x = x.
Proof. destruct x as [|[|]| |[|] m e]; try discriminate; reflexivity. Qed.

Lemma sum_positive l :
  l <> [] -> Forall (fun x => positive_number x = true) l ->
  positive_number (sum l) = true.
Proof.
  destruct l as [|x r]; [congruence|]. intros _ H. inversion H; subst.
  unfold sum. change (fold_left add (x :: r) zero) with (fold_left add r (add zero x)).
  rewrite add_zero_positive by assumption.
  apply fold_add_positive; assumption.
Qed.

Lemma positive_not_le_zero x : positive_number x = true -> le x zero = false.
Proof. destruct x as [|[|]| |[|] m e]; try discriminate; reflexivity. Qed.

Lemma positive_gt_zero x : positive_number x = true -> gt x zero = true.
Proof. destruct x as [|[|]| |[|] m e]; try discriminate; reflexivity. Qed.

Lemma finite_gt_zero_positive x :
  wf x = true -> isFinite x = true -> gt x zero = true ->
  positive_number x = true.
Proof.
  destruct x as [[|]|[|]| |[|] m e]; try discriminate. intros Hwf _ _.
  apply Z.leb_le. eapply wf_finite_emin; eassumption.
Qed.

(** The test of a sign by [lt x 0] and the sign of a rounded result. *)
Lemma binary_round_aux_sign s m e l :
  match binary_round_aux prec emax s m e l with
  | S754_finite s' _ _ => s' = s
  | _ => True
  end.
Proof.
  unfold binary_round_aux.
  destruct (shr_fexp prec emax m e l) as [mrs1 e1].
  destruct (shr_fexp prec emax _ e1 loc_Exact) as [mrs2 e2].
  destruct (shr_m mrs2); auto. destruct (e2 <=? emax - prec); auto.
Qed.

(** ** The filter of [calculateGpa] against the valid subset *)

Lemma validCourse_kept c : validCourse c = true -> keptCourse c = true.
Proof.
  unfold validCourse, keptCourse, pointsFor, Get.
  destruct (own GRADE_POINTS (Course.grade c)); [auto|].
  rewrite andb_false_r. discriminate.
Qed.

Lemma validCourse_addedPoints c :
  validCourse c = true -> addedPoints c = coursePoints c.
Proof.
  unfold validCourse, addedPoints, coursePoints, pointsFor, Get.
  destruct (own GRADE_POINTS (Course.grade c)); [reflexivity|].
  rewrite andb_false_r. discriminate.
Qed.

Lemma filter_all {A} (p : A -> bool) l :
  Forall (fun x => p x = true) l -> filter p l = l.
Proof. induction 1 as [|x r Hx _ IH]; simpl; [|rewrite Hx, IH]; reflexivity. Qed.

(** ** Right shifts with rounding bits *)

Lemma iter_pos_nat {A} (f : A -> A) p : forall x,
  iter_pos f p x = Nat.iter (Pos.to_nat p) f x.
Proof.
  induction p as [p IH|p IH|]; intros x; simpl iter_pos.
  - rewrite !IH, Pos2Nat.inj_xI, <- Nat.iter_succ_r, <- Nat.iter_add.
    f_equal. lia.
  - rewrite !IH, Pos2Nat.inj_xO, <- Nat.iter_add. f_equal. lia.
  - reflexivity.
Qed.

(** After [k >= 1] shifts of [(m, r0, s0)]: the mantissa is [m / 2^k], the
    round bit tells whether the remainder reaches the half, and the sticky
    bit whether anything else was lost. *)
Lemma iter_shr_1_bits (m : Z) (r0 s0 : bool) (k : nat) :
  0 <= m ->
  let mrs := Nat.iter (S k) shr_1 (Build_shr_record m r0 s0) in
  let p := 2 ^ Z.of_nat (S k) in
  shr_m mrs = m / p
  /\ shr_r mrs = (p <=? 2 * (m mod p))
  /\ shr_s mrs = (negb (m mod p =? 0) && negb (2 * (m mod p) =? p)) || r0 || s0.
Proof.
  intros Hm. induction k as [|k IH].
  - cbn zeta. change (2 ^ Z.of_nat 1) with 2.
    pose proof (Z.mod_pos_bound m 2 ltac:(lia)) as Hb.
    pose proof (Z.div_mod m 2 ltac:(lia)) as Hdm.
    simpl Nat.iter. unfold shr_1.
    destruct m as [|[q|q|]|q]; try lia; simpl shr_m; simpl shr_r; simpl shr_s.
    + repeat split; simpl; try reflexivity; destruct r0, s0; reflexivity.
    + rewrite Pos2Z.inj_xI in *. 
      assert (E : (2 * Zpos q + 1) mod 2 = 1)
        by (symmetry; apply Z.mod_unique with (Zpos q); lia).
      assert (E' : (2 * Zpos q + 1) / 2 = Zpos q)
        by (symmetry; apply Z.div_unique with 1; lia).
      rewrite E, E'. repeat split; simpl; try reflexivity; destruct r0, s0; reflexivity.
    + rewrite Pos2Z.inj_xO in *.
      assert (E : (2 * Zpos q) mod 2 = 0)
        by (symmetry; apply Z.mod_unique with (Zpos q); lia).
      assert (E' : (2 * Zpos q) / 2 = Zpos q)
        by (symmetry; apply Z.div_unique with 0; lia).
      rewrite E, E'. repeat split; simpl; try reflexivity; destruct r0, s0; reflexivity.
    + repeat split; simpl; try reflexivity; destruct r0, s0; reflexivity.
  - cbn zeta in *. set (p := 2 ^ Z.of_nat (S k)) in *.
    assert (Hp : 0 < p) by (apply Z.pow_pos_nonneg; lia).
    assert (Ep : 2 ^ Z.of_nat (S (S k)) = 2 * p).
    { unfold p. rewrite (Nat2Z.inj_succ (S k)), Z.pow_succ_r by lia. reflexivity. }
    rewrite Ep. change (Nat.iter (S (S k)) shr_1 ?x) with (shr_1 (Nat.iter (S k) shr_1 x)).
    destruct (Nat.iter (S k) shr_1 _) as [m1 r1 s1]. cbn [shr_m shr_r shr_s] in IH.
    destruct IH as (IHm & IHr & IHs).
    pose proof (Z.div_mod m p ltac:(lia)) as Hdm.
    pose proof (Z.mod_pos_bound m p ltac:(lia)) as Hb.
    assert (Hm1 : 0 <= m1) by (subst m1; apply Z.div_pos; lia).
    pose proof (Z.div_mod m1 2 ltac:(lia)) as Hdm1.
    pose proof (Z.mod_pos_bound m1 2 ltac:(lia)) as Hb1.
    assert (Ediv : m / (2 * p) = m1 / 2).
    { subst m1. rewrite (Z.mul_comm 2 p), Z.div_div by lia. reflexivity. }
    assert (Emod : m mod (2 * p) = (m1 mod 2) * p + m mod p).
    { symmetry. apply Z.mod_unique with (m1 / 2); [nia|]. subst m1. nia. }
    rewrite Ediv, Emod.
    assert (Hsh : shr_m (shr_1 (Build_shr_record m1 r1 s1)) = m1 / 2)
      by (apply shr_1_m; assumption).
    assert (Hr : shr_r (shr_1 (Build_shr_record m1 r1 s1)) = (m1 mod 2 =? 1)).
    { destruct m1 as [|[q|q|]|q]; try lia; simpl; try reflexivity.
      - rewrite Pos2Z.inj_xI.
        replace ((2 * Zpos q + 1) mod 2) with 1; [reflexivity|].
        apply Z.mod_unique with (Zpos q); lia.
      - rewrite Pos2Z.inj_xO.
        replace ((2 * Zpos q) mod 2) with 0; [reflexivity|].
        apply Z.mod_unique with (Zpos q); lia. }
    assert (Hs : shr_s (shr_1 (Build_shr_record m1 r1 s1)) = r1 || s1)
      by (destruct m1 as [|[q|q|]|q]; try lia; reflexivity).
    split; [exact Hsh|]. rewrite Hr, Hs, IHr, IHs. clear Hsh Hr Hs IHr IHs.
    assert (Hcases : m1 mod 2 = 0 \/ m1 mod 2 = 1) by lia.
    split.
    + destruct Hcases as [E|E]; rewrite E; simpl Z.eqb.
      * symmetry. apply Z.leb_gt. lia.
      * symmetry. apply Z.leb_le. lia.
    + destruct Hcases as [E|E]; rewrite E;
        destruct (Z.eqb_spec (m mod p) 0) as [E0|E0];
        destruct (Z.leb_spec p (2 * (m mod p)));
        destruct (Z.eqb_spec (2 * (m mod p)) p);
        repeat match goal with
               | |- context [?a =? ?b] => destruct (Z.eqb_spec a b)
               end; try lia; destruct r0, s0; reflexivity.
Qed.

Lemma shr_record_of_loc_bits m l :
  shr_record_of_loc m l = Build_shr_record m (loc_r l) (loc_s l).
Proof. destruct l as [|[| |]]; reflexivity. Qed.

Lemma round_nearest_even_bits m r s :
  round_nearest_even m (loc_of_shr_record (Build_shr_record m r s))
  = if r && (s || Z.odd m) then m + 1 else m.
Proof.
  rewrite <- Z.negb_even. destruct r, s; simpl; try reflexivity.
  destruct (Z.even m); reflexivity.
Qed.

Lemma Zdigits2_unique m k : 0 < m -> 2 ^ (k - 1) <= m < 2 ^ k -> Zdigits2 m = k.
Proof.
  intros Hm Hk. pose proof (Zdigits2_pos_bounds m Hm) as Hd.
  assert (1 <= Zdigits2 m) by (destruct m; simpl; lia).
  assert (0 < k).
  { destruct (Z.ltb_spec 0 k); [assumption|].
    destruct (Z.eq_dec k 0) as [->|]; [simpl in Hk; lia|].
    rewrite (Z.pow_neg_r 2 k) in Hk by lia. lia. }
  assert (Zdigits2 m - 1 < k)
    by (apply (Z.pow_lt_mono_r_iff 2); lia).
  assert (k - 1 < Zdigits2 m)
    by (apply (Z.pow_lt_mono_r_iff 2); lia).
  lia.
Qed.

Lemma Zdigits2_nonneg m : 0 <= Zdigits2 m.
Proof. destruct m; simpl; lia. Qed.

Lemma binary_round_aux_finish s m e l :
  binary_round_aux prec emax s m e l
  = let '(mrs, e') := shr_fexp prec emax m e l in
    finish s (round_nearest_even (shr_m mrs) (loc_of_shr_record mrs)) e'.
Proof.
  unfold binary_round_aux, finish.
  destruct (shr_fexp prec emax m e l) as [mrs e']. reflexivity.
Qed.

(** The first phase: a shift by [n = fexp (digits m + e) - e] bits. *)
Lemma shr_fexp_spec m e l :
  0 <= m -> 0 <= fexp prec emax (Zdigits2 m + e) - e ->
  exists r s,
    shr_fexp prec emax m e l
    = (Build_shr_record (m / 2 ^ (fexp prec emax (Zdigits2 m + e) - e)) r s,
       fexp prec emax (Zdigits2 m + e))
    /\ (fexp prec emax (Zdigits2 m + e) - e = 0 -> r = loc_r l /\ s = loc_s l)
    /\ (0 < fexp prec emax (Zdigits2 m + e) - e ->
        let p := 2 ^ (fexp prec emax (Zdigits2 m + e) - e) in
        r = (p <=? 2 * (m mod p))
        /\ s = (negb (m mod p =? 0) && negb (2 * (m mod p) =? p))
               || loc_r l || loc_s l).
Proof.
  intros Hm Hn. unfold shr_fexp, shr.
  set (f := fexp prec emax (Zdigits2 m + e)) in *.
  rewrite shr_record_of_loc_bits.
  destruct (f - e) as [|n|n] eqn:En; try lia.
  - exists (loc_r l), (loc_s l). rewrite Z.div_1_r.
    replace f with e by lia. repeat split; lia.
  - rewrite iter_pos_nat.
    destruct (Pos2Nat.is_succ n) as [k Ek]. rewrite Ek.
    pose proof (iter_shr_1_bits m (loc_r l) (loc_s l) k Hm) as H.
    cbn zeta in H. rewrite <- Ek, positive_nat_Z in H.
    destruct (Nat.iter (Pos.to_nat n) shr_1 _) as [m1 r1 s1] eqn:Ei.
    rewrite <- Ek, Ei. cbn [shr_m shr_r shr_s] in H. destruct H as (H1 & H2 & H3).
    exists r1, s1. replace (e + Zpos n) with f by lia. subst m1.
    split; [reflexivity|]. split; [lia|]. intros _. split; assumption.
Qed.

(** The second phase, on a mantissa of at most 53 bits up to [2^53], which
    has all its 53 bits unless the exponent is the lowest one. *)
Lemma finish_spec s m2 f :
  emin prec emax <= f -> 0 <= m2 <= 2 ^ 53 ->
  (emin prec emax < f -> 2 ^ 52 <= m2) ->
  (m2 = 0 /\ finish s m2 f = S754_zero s)
  \/ (exists m3 e3,
         0 < m2
         /\ Zpos m3 * 2 ^ (e3 - emin prec emax) = m2 * 2 ^ (f - emin prec emax)
         /\ canonical_mantissa prec emax m3 e3 = true
         /\ f <= e3
         /\ finish s m2 f = if e3 <=? emax - prec then S754_finite s m3 e3
                            else S754_infinity s).
Proof.
  intros Hf Hm Hnorm. unfold finish, shr_fexp, shr.
  destruct (Z.eq_dec m2 0) as [->|Hnz].
  { left. split; [reflexivity|]. simpl Zdigits2.
    destruct (fexp prec emax (0 + f) - f) as [|n|n] eqn:En; try reflexivity.
    revert En. format_lia. }
  right. assert (Hpos : 0 < m2) by lia.
  pose proof (Zdigits2_pos_bounds m2 Hpos) as Hd.
  destruct (Z.eq_dec m2 (2 ^ 53)) as [E53|N53].
  - assert (Ed : Zdigits2 m2 = 54)
      by (apply Zdigits2_unique; [assumption|]; subst m2; simpl; lia).
    rewrite Ed.
    replace (fexp prec emax (54 + f) - f) with 1
      by format_lia.
    subst m2. exists (2 ^ 52)%positive, (f + 1).
    split; [lia|]. split.
    { replace (f + 1 - emin prec emax) with (Z.succ (f - emin prec emax)) by lia.
      rewrite Z.pow_succ_r by lia. 
      change (Zpos (2 ^ 52)) with (2 ^ 52). change (2 ^ 53) with (2 * 2 ^ 52). lia. }
    split.
    { unfold canonical_mantissa. apply Z.eqb_eq.
      change (Zpos (digits2_pos (2 ^ 52))) with 53.
      format_lia. }
    split; [lia|]. reflexivity.
  - assert (Hlt : m2 < 2 ^ 53) by lia.
    assert (Hd53 : Zdigits2 m2 <= 53).
    { assert (Zdigits2 m2 - 1 < 53); [|lia].
      apply (Z.pow_lt_mono_r_iff 2); lia. }
    assert (Hdn : emin prec emax < f -> Zdigits2 m2 = 53).
    { intros Hlt'. specialize (Hnorm Hlt').
      apply Zdigits2_unique; [assumption|]. simpl. lia. }
    assert (En : fexp prec emax (Zdigits2 m2 + f) - f = 0).
    { destruct (Z.eq_dec f (emin prec emax)) as [->|Hne].
      - format_lia.
      - rewrite Hdn by lia. format_lia. }
    rewrite En. rewrite shr_m_of_loc.
    destruct m2 as [|m3|m3]; try lia.
    exists m3, f. split; [lia|]. split; [reflexivity|]. split.
    { unfold canonical_mantissa. apply Z.eqb_eq. simpl Zdigits2 in En. lia. }
    split; [lia|]. reflexivity.
Qed.

Lemma pow2_pos k : 0 <= k -> 0 < 2 ^ k.
Proof. intros. apply Z.pow_pos_nonneg; lia. Qed.

Lemma pow2_split a b : 0 <= a -> 0 <= b -> 2 ^ (a + b) = 2 ^ a * 2 ^ b.
Proof. intros. apply Z.pow_add_r; assumption. Qed.

Lemma pow2_le a b : 0 <= a <= b -> 2 ^ a <= 2 ^ b.
Proof. intros. apply Z.pow_le_mono_r; lia. Qed.

Lemma pow2_lt a b : 0 <= a < b -> 2 ^ a < 2 ^ b.
Proof. intros. apply Z.pow_lt_mono_r; lia. Qed.

(** The mantissa left by the first phase has at most 53 bits, and exactly
    53 unless the exponent is the lowest one. *)
Lemma shifted_mantissa_bounds m e :
  0 <= m -> 0 <= fexp prec emax (Zdigits2 m + e) - e ->
  0 <= m / 2 ^ (fexp prec emax (Zdigits2 m + e) - e) < 2 ^ 53
  /\ (emin prec emax < fexp prec emax (Zdigits2 m + e) ->
      2 ^ 52 <= m / 2 ^ (fexp prec emax (Zdigits2 m + e) - e)).
Proof.
  intros Hm Hn. set (f := fexp prec emax (Zdigits2 m + e)) in *.
  set (n := f - e) in *.
  assert (Hp : 0 < 2 ^ n) by (apply pow2_pos; lia).
  destruct (Z.eq_dec m 0) as [->|Hnz].
  { rewrite Z.div_0_l by lia. split; [simpl; lia|].
    subst n f. simpl Zdigits2 in *. format_lia. }
  assert (Hpos : 0 < m) by lia.
  pose proof (Zdigits2_pos_bounds m Hpos) as Hd.
  set (d := Zdigits2 m) in *.
  assert (Hd1 : 1 <= d) by (subst d; destruct m; simpl; lia).
  assert (Hfd : d - n <= 53) by (subst n f; unfold fexp, emin, prec, emax; lia).
  split; [split|].
  - apply Z.div_pos; lia.
  - destruct (Z.le_gt_cases n d) as [Hle|Hgt].
    + apply Z.div_lt_upper_bound; [lia|].
      apply Z.lt_le_trans with (2 ^ d); [lia|].
      replace d with (n + (d - n)) at 1 by lia.
      rewrite pow2_split by lia.
      apply Z.mul_le_mono_nonneg_l; [lia|]. apply pow2_le. lia.
    + rewrite Z.div_small; [simpl; lia|]. split; [lia|].
      apply Z.lt_trans with (2 ^ d); [lia|]. apply pow2_lt. lia.
  - intros Hf.
    assert (En : n = d - 53) by (subst n f; format_lia).
    apply Z.div_le_lower_bound; [lia|].
    apply Z.le_trans with (2 ^ (d - 1)); [|lia].
    replace (d - 1) with (n + 52) by lia.
    rewrite pow2_split by lia. lia.
Qed.

(** [binary_round_aux] in two phases. *)
Lemma binary_round_aux_spec sg m e l :
  0 <= m -> 0 <= fexp prec emax (Zdigits2 m + e) - e ->
  let f := fexp prec emax (Zdigits2 m + e) in
  let p := 2 ^ (f - e) in
  exists r s,
    binary_round_aux prec emax sg m e l
    = finish sg (if r && (s || Z.odd (m / p)) then m / p + 1 else m / p) f
    /\ (f - e = 0 -> r = loc_r l /\ s = loc_s l)
    /\ (0 < f - e ->
        r = (p <=? 2 * (m mod p))
        /\ s = (negb (m mod p =? 0) && negb (2 * (m mod p) =? p))
               || loc_r l || loc_s l).
Proof.
  intros Hm Hn f p.
  destruct (shr_fexp_spec m e l Hm Hn) as (r & s & E & H0 & H1).
  exists r, s. rewrite binary_round_aux_finish, E.
  cbn [shr_m]. rewrite round_nearest_even_bits. auto.
Qed.

Lemma pow2_lt_inv a b : 0 <= b -> 2 ^ a < 2 ^ b -> a < b.
Proof.
  intros Hb H. destruct (Z.lt_ge_cases a b) as [|Hge]; [assumption|].
  assert (2 ^ b <= 2 ^ a) by (apply pow2_le; lia). lia.
Qed.

Lemma canonical_digits m e :
  canonical_mantissa prec emax m e = true ->
  emin prec emax <= e
  /\ Zpos m < 2 ^ 53
  /\ (emin prec emax < e -> 2 ^ 52 <= Zpos m).
Proof.
  unfold canonical_mantissa. intros H. apply Z.eqb_eq in H.
  pose proof (digits2_pos_bounds m) as Hd.
  set (d := Zpos (digits2_pos m)) in *.
  assert (Hd53 : d <= 53) by (unfold fexp, emin, prec, emax in H; lia).
  split; [format_lia|]. split.
  - apply Z.lt_le_trans with (2 ^ d); [lia|]. apply pow2_le. lia.
  - intros He. assert (d = 53) by format_lia.
    replace 52 with (d - 1) by lia. lia.
Qed.

(** A rounded result does not exceed a representable bound [mb * 2^eb] that
    the exact value does not exceed.  The exact value lies in
    [[m * 2^e, (m+1) * 2^e)], at [m * 2^e] when the location is exact; the
    comparisons are made in units of [2^c]. *)
Lemma binary_round_aux_le m e l mb eb c :
  0 <= m -> 0 <= fexp prec emax (Zdigits2 m + e) - e ->
  0 < mb -> fexp prec emax (Zdigits2 mb + eb) <= eb ->
  c <= e -> c <= emin prec emax ->
  (m * 2 ^ (e - c) < mb * 2 ^ (eb - c)
   \/ (l = loc_Exact /\ m * 2 ^ (e - c) <= mb * 2 ^ (eb - c))) ->
  (nonneg (binary_round_aux prec emax false m e l) = true
   /\ units (binary_round_aux prec emax false m e l)
      <= mb * 2 ^ (eb - emin prec emax))
  \/ (binary_round_aux prec emax false m e l = Infinity /\ emax - prec < eb).
Proof.
  intros Hm Hn Hmb Hrep Hce Hcm Hv.
  destruct (binary_round_aux_spec false m e l Hm Hn) as (r & s & E & H0 & H1).
  destruct (shifted_mantissa_bounds m e Hm Hn) as ([Hq0 Hq53] & Hq52).
  cbn zeta in E, H1. rewrite E. clear E.
  set (f := fexp prec emax (Zdigits2 m + e)) in *.
  set (n := f - e) in *. set (p := 2 ^ n) in *. set (q := m / p) in *.
  assert (Hfmin : emin prec emax <= f) by (subst f; unfold fexp; lia).
  assert (Hebmin : emin prec emax <= eb) by (unfold fexp in Hrep; lia).
  assert (Hp : 0 < p) by (apply pow2_pos; lia).
  pose proof (Z.div_mod m p ltac:(lia)) as Hdm. fold q in Hdm.
  pose proof (Z.mod_pos_bound m p Hp) as Hrem.
  set (rem := m mod p) in *.
  (* powers of two, in units of 2^c *)
  set (Pe := 2 ^ (e - c)). set (Pf := 2 ^ (f - c)). set (Pb := 2 ^ (eb - c)).
  fold Pe Pb in Hv.
  assert (HPe : 0 < Pe) by (apply pow2_pos; lia).
  assert (HPf : Pf = Pe * p).
  { subst Pf Pe p n. rewrite <- pow2_split by lia. f_equal. lia. }
  pose proof (Zdigits2_pos_bounds mb Hmb) as Hdb.
  assert (Hdb1 : 1 <= Zdigits2 mb) by (destruct mb; simpl; lia).
  assert (Hdb53 : Zdigits2 mb <= 53)
    by (unfold fexp, emin, prec, emax in Hrep; lia).
  (* the rounded mantissa is below the bound *)
  set (m2 := if r && (s || Z.odd q) then q + 1 else q).
  assert (Hm2 : m2 * Pf <= mb * Pb).
  { subst m2. destruct (r && (s || Z.odd q)) eqn:Eup.
    - apply andb_true_iff in Eup. destruct Eup as [Er _].
      assert (Hlt : q * Pf < mb * Pb).
      { destruct (Z.eq_dec n 0) as [En0|Hn0].
        - destruct (H0 En0) as [Hr _]. rewrite Er in Hr.
          assert (l <> loc_Exact) by (intros ->; discriminate Hr).
          assert (p = 1) by (subst p; rewrite En0; reflexivity).
          destruct Hv as [Hv|[Hl _]]; [|contradiction]. nia.
        - destruct (H1 ltac:(lia)) as [Hr _]. rewrite Er in Hr.
          symmetry in Hr. apply Z.leb_le in Hr.
          assert (0 < rem) by lia.
          assert (q * Pf < m * Pe) by nia.
          destruct Hv as [Hv|[_ Hv]]; lia. }
      assert (Hfeb : f <= eb).
      { destruct (Z.eq_dec f (emin prec emax)) as [->|Hne]; [assumption|].
        specialize (Hq52 ltac:(lia)).
        assert (H52 : 2 ^ (52 + (f - c)) < 2 ^ (Zdigits2 mb + (eb - c))).
        { rewrite !pow2_split by lia. fold Pf Pb.
          apply Z.le_lt_trans with (q * Pf); [apply Z.mul_le_mono_nonneg_r; lia|].
          apply Z.lt_le_trans with (mb * Pb); [assumption|].
          assert (0 < Pb) by (apply pow2_pos; lia). nia. }
        apply pow2_lt_inv in H52; [|lia].
        format_lia. }
      assert (HPb : Pb = 2 ^ (eb - f) * Pf).
      { subst Pb Pf. rewrite <- pow2_split by lia. f_equal. lia. }
      assert (0 < Pf) by (subst Pf; apply pow2_pos; lia).
      rewrite HPb in *. 
      assert (q < mb * 2 ^ (eb - f)) by nia. nia.
    - destruct Hv as [Hv|[_ Hv]]; nia. }
  assert (Hm2b : 0 <= m2 <= 2 ^ 53)
    by (subst m2; destruct (r && (s || Z.odd q)); lia).
  assert (Hm2n : emin prec emax < f -> 2 ^ 52 <= m2)
    by (intros Hf; specialize (Hq52 Hf); subst m2;
        destruct (r && (s || Z.odd q)); lia).
  (* back to units of 2^emin *)
  assert (Hm2' : m2 * 2 ^ (f - emin prec emax) <= mb * 2 ^ (eb - emin prec emax)).
  { assert (Ef : Pf = 2 ^ (f - emin prec emax) * 2 ^ (emin prec emax - c))
      by (subst Pf; rewrite <- pow2_split by lia; f_equal; lia).
    assert (Eb : Pb = 2 ^ (eb - emin prec emax) * 2 ^ (emin prec emax - c))
      by (subst Pb; rewrite <- pow2_split by lia; f_equal; lia).
    assert (0 < 2 ^ (emin prec emax - c)) by (apply pow2_pos; lia).
    rewrite Ef, Eb in Hm2. nia. }
  destruct (finish_spec false m2 f Hfmin Hm2b Hm2n)
    as [[_ ->]|(m3 & e3 & Hpos & Hval & Hcan & Hfe & ->)].
  { left. split; [reflexivity|]. unfold units.
    assert (0 < 2 ^ (eb - emin prec emax)) by (apply pow2_pos; lia). nia. }
  destruct (Z.leb_spec e3 (emax - prec)) as [Hle|Hgt].
  - left. split.
    + simpl. unfold bounded. rewrite Hcan. apply Z.leb_le in Hle. rewrite Hle.
      reflexivity.
    + unfold units. rewrite Hval. exact Hm2'.
  - right. split; [reflexivity|].
    destruct (canonical_digits m3 e3 Hcan) as (_ & _ & H52).
    specialize (H52 ltac:(format_lia)).
    assert (H' : 2 ^ (52 + (e3 - emin prec emax))
                 < 2 ^ (Zdigits2 mb + (eb - emin prec emax))).
    { rewrite !pow2_split by format_lia.
      assert (0 < 2 ^ (e3 - emin prec emax))
        by (apply pow2_pos; format_lia).
      assert (0 < 2 ^ (eb - emin prec emax)) by (apply pow2_pos; lia).
      nia. }
    apply pow2_lt_inv in H'; lia.
Qed.

(** ** Comparison of canonical numbers *)

Lemma nonneg_finite m e :
  nonneg (S754_finite false m e) = true ->
  emin prec emax <= e <= emax - prec
  /\ Zpos m < 2 ^ 53
  /\ (emin prec emax < e -> 2 ^ 52 <= Zpos m).
Proof.
  simpl. unfold bounded. intros H. apply andb_true_iff in H.
  destruct H as [Hc Hb]. apply Z.leb_le in Hb.
  destruct (canonical_digits m e Hc) as (H1 & H2 & H3). auto with zarith.
Qed.

Lemma units_lt_of_exponent m1 e1 m2 e2 :
  nonneg (S754_finite false m1 e1) = true ->
  nonneg (S754_finite false m2 e2) = true ->
  e1 < e2 ->
  Zpos m1 * 2 ^ (e1 - emin prec emax) < Zpos m2 * 2 ^ (e2 - emin prec emax).
Proof.
  intros H1 H2 Hlt.
  destruct (nonneg_finite _ _ H1) as ([Hmin1 _] & Hm1 & _).
  destruct (nonneg_finite _ _ H2) as ([Hmin2 _] & _ & Hm2).
  specialize (Hm2 ltac:(lia)).
  replace (e2 - emin prec emax)
    with ((e1 - emin prec emax) + (e2 - e1)) by lia.
  rewrite pow2_split by lia.
  assert (0 < 2 ^ (e1 - emin prec emax)) by (apply pow2_pos; lia).
  assert (2 ^ 1 <= 2 ^ (e2 - e1)) by (apply pow2_le; lia).
  change (2 ^ 1) with 2 in *. change (2 ^ 53) with (2 * 2 ^ 52) in Hm1.
  set (P := 2 ^ (e1 - emin prec emax)) in *. set (Q := 2 ^ (e2 - e1)) in *.
  apply Z.lt_le_trans with (2 * 2 ^ 52 * P).
  - apply Z.mul_lt_mono_pos_r; assumption.
  - apply Z.le_trans with (Zpos m2 * (P * 2)); [nia|].
    apply Z.mul_le_mono_nonneg_l; [lia|]. apply Z.mul_le_mono_nonneg_l; lia.
Qed.

Lemma le_units x y :
  nonneg x = true -> nonneg y = true -> le x y = (units x <=? units y).
Proof.
  destruct x as [[|]| | |[|] m1 e1]; try discriminate;
  destruct y as [[|]| | |[|] m2 e2]; try discriminate; intros Hx Hy.
  - reflexivity.
  - unfold le, SFleb, SFcompare, units. cbv beta iota. symmetry. apply Z.leb_le.
    destruct (nonneg_finite _ _ Hy) as ([? _] & _).
    assert (0 < 2 ^ (e2 - emin prec emax)) by (apply pow2_pos; lia). nia.
  - unfold le, SFleb, SFcompare, units. cbv beta iota. symmetry. apply Z.leb_gt.
    destruct (nonneg_finite _ _ Hx) as ([? _] & _).
    assert (0 < 2 ^ (e1 - emin prec emax)) by (apply pow2_pos; lia). nia.
  - unfold le, SFleb, SFcompare, units.
    destruct (Z.compare_spec e1 e2) as [->|Hlt|Hgt].
    + destruct (nonneg_finite _ _ Hy) as ([? _] & _).
      assert (0 < 2 ^ (e2 - emin prec emax)) by (apply pow2_pos; lia).
      rewrite Pos.compare_cont_spec. cbn [Pos.switch_Eq].
      destruct (Pos.compare_spec m1 m2) as [->|Hm|Hm]; symmetry.
      * apply Z.leb_le. lia.
      * apply Z.leb_le. nia.
      * apply Z.leb_gt. nia.
    + symmetry. apply Z.leb_le.
      pose proof (units_lt_of_exponent _ _ _ _ Hx Hy Hlt). lia.
    + symmetry. apply Z.leb_gt.
      apply (units_lt_of_exponent _ _ _ _ Hy Hx). lia.
Qed.

(** ** Rounding an integer to 53 significant bits *)

Lemma round_up_spec p r q :
  0 < p -> 0 <= r ->
  round_up p r q = true <-> (p < 2 * r \/ (2 * r = p /\ Z.odd q = true)).
Proof.
  intros Hp Hr. unfold round_up.
  rewrite andb_true_iff, orb_true_iff, andb_true_iff, !negb_true_iff,
    Z.leb_le, !Z.eqb_neq.
  destruct (Z.odd q); intuition (try discriminate; try lia).
Qed.

Lemma Zdigits2_shift a k :
  0 < a -> 0 <= k -> Zdigits2 (a * 2 ^ k) = Zdigits2 a + k.
Proof.
  intros Ha Hk. pose proof (Zdigits2_pos_bounds a Ha) as Hd.
  assert (1 <= Zdigits2 a) by (destruct a; simpl; lia).
  assert (0 < 2 ^ k) by (apply pow2_pos; lia).
  apply Zdigits2_unique; [nia|].
  replace (Zdigits2 a + k - 1) with (Zdigits2 a - 1 + k) by lia.
  rewrite !pow2_split by lia. nia.
Qed.

Lemma round53_small v : Zdigits2 v <= 53 -> round53 v = v.
Proof.
  intros H. unfold round53, prec. cbn zeta.
  destruct (Z.leb_spec (Zdigits2 v - 53) 0); [reflexivity|lia].
Qed.

(** The case that rounds: more than 53 significant bits. *)
Lemma round53_large v :
  0 <= v -> 53 < Zdigits2 v ->
  let p := 2 ^ (Zdigits2 v - 53) in
  0 < p /\ 0 <= v mod p < p /\ v = v / p * p + v mod p
  /\ 2 ^ 52 <= v / p < 2 ^ 53
  /\ round53 v = if round_up p (v mod p) (v / p) then (v / p + 1) * p
                 else v / p * p.
Proof.
  intros Hv0 Hd p.
  assert (Hv : 0 < v) by (destruct v; simpl in *; lia).
  pose proof (Zdigits2_pos_bounds v Hv) as Hb.
  assert (Hp : 0 < p) by (apply pow2_pos; lia).
  split; [assumption|]. split; [apply Z.mod_pos_bound; assumption|].
  split; [rewrite Z.mul_comm; apply Z.div_mod; lia|].
  assert (E52 : 2 ^ (Zdigits2 v - 1) = p * 2 ^ 52)
    by (unfold p; rewrite <- pow2_split by lia; f_equal; lia).
  assert (E53 : 2 ^ Zdigits2 v = p * 2 ^ 53)
    by (unfold p; rewrite <- pow2_split by lia; f_equal; lia).
  split.
  - split.
    + apply Z.div_le_lower_bound; [assumption|]. lia.
    + apply Z.div_lt_upper_bound; [assumption|]. lia.
  - unfold round53, prec. cbn zeta.
    destruct (Z.leb_spec (Zdigits2 v - 53) 0); [lia|reflexivity].
Qed.

Lemma round53_fix a k : 0 <= a < 2 ^ 53 -> 0 <= k -> round53 (a * 2 ^ k) = a * 2 ^ k.
Proof.
  intros Ha Hk. destruct (Z.eq_dec a 0) as [->|Hnz]; [reflexivity|].
  assert (Hpos : 0 < a) by lia.
  pose proof (Zdigits2_pos_bounds a Hpos) as Hd.
  assert (Hd53 : Zdigits2 a <= 53).
  { assert (Zdigits2 a - 1 < 53); [|lia]. apply pow2_lt_inv; lia. }
  destruct (Z.le_gt_cases (Zdigits2 (a * 2 ^ k)) 53) as [Hs|Hl].
  { apply round53_small; assumption. }
  assert (Hk0 : 0 < 2 ^ k) by (apply pow2_pos; lia).
  destruct (round53_large (a * 2 ^ k) ltac:(nia) Hl) as (Hp & Hr & Hdm & Hq & ->).
  rewrite Zdigits2_shift in * by lia.
  set (n := Zdigits2 a + k - 53) in *.
  assert (E : a * 2 ^ k = a * 2 ^ (k - n) * 2 ^ n).
  { rewrite <- Z.mul_assoc, <- pow2_split by lia. do 2 f_equal. lia. }
  assert (Emod : (a * 2 ^ k) mod 2 ^ n = 0) by (rewrite E; apply Z.mod_mul; lia).
  assert (Ediv : a * 2 ^ k / 2 ^ n = a * 2 ^ (k - n))
    by (rewrite E; apply Z.div_mul; lia).
  rewrite Emod, Ediv. unfold round_up.
  destruct (Z.leb_spec (2 ^ n) (2 * 0)); [lia|]. simpl. lia.
Qed.

(** The rounded value is again a mantissa of at most 53 bits (or [2^53])
    times a power of two. *)
Lemma round53_representable v :
  0 <= v -> exists a k, round53 v = a * 2 ^ k /\ 0 <= a <= 2 ^ 53 /\ 0 <= k.
Proof.
  intros Hv. destruct (Z.le_gt_cases (Zdigits2 v) 53) as [Hs|Hl].
  - rewrite round53_small by assumption. exists v, 0. rewrite Z.mul_1_r.
    split; [reflexivity|]. split; [|lia].
    destruct (Z.eq_dec v 0) as [->|]; [simpl; lia|].
    pose proof (Zdigits2_pos_bounds v ltac:(lia)) as Hb.
    assert (2 ^ Zdigits2 v <= 2 ^ 53) by (apply pow2_le; pose proof (Zdigits2_nonneg v); lia).
    lia.
  - destruct (round53_large v Hv Hl) as (Hp & Hr & Hdm & Hq & ->).
    destruct (round_up _ _ _).
    + exists (v / 2 ^ (Zdigits2 v - 53) + 1), (Zdigits2 v - 53). lia.
    + exists (v / 2 ^ (Zdigits2 v - 53)), (Zdigits2 v - 53). lia.
Qed.

(** A representable bound above the value is above the rounded value. *)
Lemma round53_le_bound v a k :
  0 <= v -> 0 <= a <= 2 ^ 53 -> 0 <= k -> v <= a * 2 ^ k ->
  round53 v <= a * 2 ^ k.
Proof.
  intros Hv Ha Hk Hle.
  destruct (Z.le_gt_cases (Zdigits2 v) 53) as [Hs|Hl].
  { rewrite round53_small by assumption. assumption. }
  destruct (round53_large v Hv Hl) as (Hp & Hr & Hdm & Hq & ->).
  set (n := Zdigits2 v - 53) in *. set (p := 2 ^ n) in *.
  set (q := v / p) in *. set (r := v mod p) in *.
  destruct (round_up p r q) eqn:Eup; [|nia].
  apply round_up_spec in Eup; [|lia|lia].
  assert (Hr0 : 0 < r) by lia.
  assert (Hk0 : 0 < 2 ^ k) by (apply pow2_pos; lia).
  assert (Hnk : n <= k).
  { assert (H : 2 ^ (52 + n) < 2 ^ (53 + k)).
    { rewrite !pow2_split by lia. fold p. nia. }
    apply pow2_lt_inv in H; lia. }
  assert (E : 2 ^ k = 2 ^ (k - n) * p).
  { subst p. rewrite <- pow2_split by lia. f_equal. lia. }
  rewrite E in *. assert (q < a * 2 ^ (k - n)) by nia. nia.
Qed.

Lemma round53_mono a b : 0 <= a <= b -> round53 a <= round53 b.
Proof.
  intros Hab.
  destruct (round53_representable b ltac:(lia)) as (g & k & Eg & Hg & Hk).
  destruct (Z.le_gt_cases a (round53 b)) as [Hle|Hgt].
  { rewrite Eg in *. apply round53_le_bound; lia. }
  destruct (Z.le_gt_cases (Zdigits2 b) 53) as [Hs|Hl].
  { rewrite round53_small in Hgt by assumption. lia. }
  destruct (round53_large b ltac:(lia) Hl) as (Hp & Hr & Hdm & Hq & Eb).
  set (n := Zdigits2 b - 53) in *. set (p := 2 ^ n) in *.
  set (q := b / p) in *. set (r := b mod p) in *.
  destruct (round_up p r q) eqn:Eup; [rewrite Eb in Hgt; nia|].
  rewrite Eb in *.
  assert (Hda : Zdigits2 a = Zdigits2 b).
  { pose proof (Zdigits2_pos_bounds b ltac:(lia)) as Hbb.
    apply Zdigits2_unique; [nia|]. split; [|lia].
    replace (Zdigits2 b - 1) with (52 + n) by lia.
    rewrite pow2_split by lia. fold p. nia. }
  assert (Hla : 53 < Zdigits2 a) by lia.
  destruct (round53_large a ltac:(lia) Hla) as (_ & Hra & Hdma & _ & Ea).
  rewrite Hda in Hra, Hdma, Ea. fold n in Hra, Hdma, Ea. fold p in Hra, Hdma, Ea.
  assert (Eqa : a / p = q).
  { symmetry. apply Z.div_unique with (a - q * p); lia. }
  rewrite Eqa in *. rewrite Ea.
  destruct (round_up p (a mod p) q) eqn:Eupa; [|lia].
  apply round_up_spec in Eupa; [|lia|lia].
  assert (Hnb : ~ (p < 2 * r \/ 2 * r = p /\ Z.odd q = true)).
  { intros H. apply round_up_spec in H; [congruence|lia|lia]. }
  exfalso. apply Hnb. destruct Eupa as [H|[H Ho]]; [left; lia|].
  destruct (Z.eq_dec (2 * r) p); [right; auto|left; lia].
Qed.

Lemma round53_scale4 v : 0 <= v -> round53 (4 * v) = 4 * round53 v.
Proof.
  intros Hv. destruct (Z.eq_dec v 0) as [->|Hnz]; [reflexivity|].
  assert (Hd4 : Zdigits2 (4 * v) = Zdigits2 v + 2).
  { rewrite Z.mul_comm. change 4 with (2 ^ 2). apply Zdigits2_shift; lia. }
  destruct (Z.le_gt_cases (Zdigits2 v) 53) as [Hs|Hl].
  - rewrite (round53_small v) by assumption.
    rewrite Z.mul_comm. change 4 with (2 ^ 2). apply round53_fix; [|lia].
    pose proof (Zdigits2_pos_bounds v ltac:(lia)) as Hb.
    assert (2 ^ Zdigits2 v <= 2 ^ 53)
      by (apply pow2_le; pose proof (Zdigits2_nonneg v); lia).
    lia.
  - destruct (round53_large v Hv Hl) as (Hp & Hr & Hdm & Hq & ->).
    destruct (round53_large (4 * v) ltac:(lia) ltac:(lia)) as (_ & _ & _ & _ & ->).
    rewrite Hd4. set (n := Zdigits2 v - 53) in *.
    replace (Zdigits2 v + 2 - 53) with (2 + n) by lia.
    rewrite pow2_split by lia. change (2 ^ 2) with 4.
    set (p := 2 ^ n) in *.
    rewrite Z.mul_mod_distr_l, Z.div_mul_cancel_l by lia.
    assert (Eup : round_up (4 * p) (4 * (v mod p)) (v / p)
                  = round_up p (v mod p) (v / p)).
    { unfold round_up. f_equal; [|f_equal; f_equal; [|f_equal]].
      - destruct (Z.leb_spec (4 * p) (2 * (4 * (v mod p))));
          destruct (Z.leb_spec p (2 * (v mod p))); auto; lia.
      - destruct (Z.eqb_spec (4 * (v mod p)) 0);
          destruct (Z.eqb_spec (v mod p) 0); auto; lia.
      - destruct (Z.eqb_spec (2 * (4 * (v mod p))) (4 * p));
          destruct (Z.eqb_spec (2 * (v mod p)) p); auto; lia. }
    rewrite Eup. clear Eup. destruct (round_up p (v mod p) (v / p)); ring.
Qed.

(** The rounded sum of the points does not pass four times the rounded
    sum of the credit hours. *)
Lemma round53_four a b : 0 <= a <= 4 * b -> round53 a <= 4 * round53 b.
Proof.
  intros H. rewrite <- round53_scale4 by lia. apply round53_mono. assumption.
Qed.

(** ** Sums: rounding of an exact integer number of units *)

Lemma shl_align_spec m e e' :
  exists m', shl_align m e e' = (m', Z.min e e')
             /\ Zpos m' = Zpos m * 2 ^ (e - Z.min e e').
Proof.
  unfold shl_align. destruct (e' - e) as [|d|d] eqn:Ed.
  - exists m. replace (Z.min e e') with e by lia.
    rewrite Z.sub_diag. split; [reflexivity|]. simpl. lia.
  - exists m. replace (Z.min e e') with e by lia.
    rewrite Z.sub_diag. split; [reflexivity|]. simpl. lia.
  - exists (Pos.iter xO m d). replace (Z.min e e') with e' by lia.
    split; [reflexivity|].
    replace (e - e') with (Zpos d) by lia.
    change (Pos.iter xO m d) with (shift_pos d m).
    rewrite shift_pos_correct.
    change (Zpower_pos 2 d) with (2 ^ Zpos d). lia.
Qed.

Lemma round_up_scale p r q c :
  0 < c -> round_up (p * c) (r * c) q = round_up p r q.
Proof.
  intros Hc. unfold round_up. f_equal; [|f_equal; f_equal; [|f_equal]].
  - destruct (Z.leb_spec (p * c) (2 * (r * c)));
      destruct (Z.leb_spec p (2 * r)); auto; nia.
  - destruct (Z.eqb_spec (r * c) 0); destruct (Z.eqb_spec r 0); auto; nia.
  - destruct (Z.eqb_spec (2 * (r * c)) (p * c));
      destruct (Z.eqb_spec (2 * r) p); auto; nia.
Qed.

(** The rounding of [m * 2^e] is the rounding of its number of units. *)
Lemma binary_round_units (m : positive) (e : Z) :
  emin prec emax <= e ->
  binary_round prec emax false m e = Infinity
  \/ (nonneg (binary_round prec emax false m e) = true
      /\ units (binary_round prec emax false m e)
         = round53 (Zpos m * 2 ^ (e - emin prec emax))).
Proof.
  intros He. unfold binary_round.
  set (f0 := fexp prec emax (Zpos (digits2_pos m) + e)).
  assert (Hf0 : emin prec emax <= f0) by (subst f0; unfold fexp; lia).
  destruct (shl_align_spec m e f0) as (m' & -> & Em').
  set (e' := Z.min e f0) in *.
  assert (He' : emin prec emax <= e' /\ e' <= e /\ e' <= f0) by (subst e'; lia).
  assert (Hk : 0 < 2 ^ (e - e')) by (apply pow2_pos; lia).
  assert (Hd' : Zdigits2 (Zpos m') = Zdigits2 (Zpos m) + (e - e'))
    by (rewrite Em'; apply Zdigits2_shift; lia).
  assert (Ef : fexp prec emax (Zdigits2 (Zpos m') + e') = f0)
    by (rewrite Hd'; subst f0; simpl Zdigits2; f_equal; lia).
  assert (Hn : 0 <= fexp prec emax (Zdigits2 (Zpos m') + e') - e')
    by (rewrite Ef; lia).
  assert (Hv : Zpos m * 2 ^ (e - emin prec emax)
               = Zpos m' * 2 ^ (e' - emin prec emax)).
  { rewrite Em', <- Z.mul_assoc, <- pow2_split by lia. do 2 f_equal. lia. }
  rewrite Hv. clear Hv.
  destruct (binary_round_aux_spec false (Zpos m') e' loc_Exact ltac:(lia) Hn)
    as (r & s & E & H0 & H1).
  destruct (shifted_mantissa_bounds (Zpos m') e' ltac:(lia) Hn) as (Hq & Hq52).
  cbn zeta in E, H1. rewrite Ef in *. rewrite E. clear E.
  set (n := f0 - e') in *. set (p := 2 ^ n) in *.
  set (q := Zpos m' / p) in *.
  set (m2 := if r && (s || Z.odd q) then q + 1 else q).
  assert (Hm2b : 0 <= m2 <= 2 ^ 53)
    by (subst m2; destruct (r && (s || Z.odd q)); lia).
  assert (Hm2n : emin prec emax < f0 -> 2 ^ 52 <= m2)
    by (intros Hf; specialize (Hq52 Hf); subst m2;
        destruct (r && (s || Z.odd q)); lia).
  assert (Hround : round53 (Zpos m' * 2 ^ (e' - emin prec emax))
                   = m2 * 2 ^ (f0 - emin prec emax)).
  { destruct (Z.eq_dec n 0) as [En0|Hn0].
    - destruct (H0 En0) as [-> _]. subst m2. cbn [loc_r andb] in *.
      assert (p = 1) by (subst p; rewrite En0; reflexivity).
      assert (q = Zpos m') by (subst q; replace p with 1; apply Z.div_1_r).
      replace f0 with e' by lia. replace q with (Zpos m').
      apply round53_fix; lia.
    - destruct (H1 ltac:(lia)) as [-> ->]. subst m2. cbn [loc_r loc_s].
      rewrite !orb_false_r. fold (round_up p (Zpos m' mod p) q).
      set (k := e' - emin prec emax).
      assert (Hk0 : 0 <= k) by (subst k; lia).
      assert (HPk : 0 < 2 ^ k) by (apply pow2_pos; lia).
      assert (Hp : 0 < p) by (subst p; apply pow2_pos; lia).
      assert (Hfn : f0 = Zdigits2 (Zpos m') + e' - 53)
        by (rewrite <- Ef; format_lia).
      assert (Hl : 53 < Zdigits2 (Zpos m' * 2 ^ k))
        by (rewrite Zdigits2_shift by lia; lia).
      destruct (round53_large (Zpos m' * 2 ^ k) ltac:(nia) Hl)
        as (_ & _ & _ & _ & ->).
      rewrite Zdigits2_shift by lia.
      replace (Zdigits2 (Zpos m') + k - 53) with (n + k) by lia.
      replace (f0 - emin prec emax) with (n + k) by lia.
      rewrite pow2_split by lia. fold p.
      rewrite Z.mul_mod_distr_r, Z.div_mul_cancel_r by lia. fold q.
      rewrite round_up_scale by assumption.
      destruct (round_up p (Zpos m' mod p) q); ring. }
  rewrite Hround.
  destruct (finish_spec false m2 f0 Hf0 Hm2b Hm2n)
    as [[-> ->]|(m3 & e3 & Hpos & Hval & Hcan & Hfe & ->)].
  { right. split; reflexivity. }
  destruct (Z.leb_spec e3 (emax - prec)) as [Hle|Hgt]; [right|left; reflexivity].
  split.
  - simpl. unfold bounded. rewrite Hcan. apply Z.leb_le in Hle. rewrite Hle.
    reflexivity.
  - unfold units. exact Hval.
Qed.

Lemma units_fix x : nonneg x = true -> round53 (units x) = units x.
Proof.
  destruct x as [[|]| | |[|] m e]; try discriminate; intros H;
    [reflexivity|].
  destruct (nonneg_finite _ _ H) as ([? _] & ? & _).
  unfold units. apply round53_fix; lia.
Qed.

Lemma units_nonneg x : 0 <= units x.
Proof.
  destruct x as [| | |[|] m e]; unfold units; try lia.
  all: apply Z.mul_nonneg_nonneg; [lia|]; apply Z.pow_nonneg; lia.
Qed.

(** The sum of two non-negative numbers is the rounded sum of their units,
    unless it overflows. *)
Lemma add_units x y :
  nonneg x = true -> nonneg y = true ->
  add x y = Infinity
  \/ (nonneg (add x y) = true
      /\ units (add x y) = round53 (units x + units y)).
Proof.
  intros Hx Hy.
  destruct x as [[|]| | |[|] mx ex]; try discriminate;
  destruct y as [[|]| | |[|] my ey]; try discriminate.
  - right. split; reflexivity.
  - right. split; [exact Hy|]. 
    change (add (S754_zero false) (S754_finite false my ey))
      with (S754_finite false my ey).
    change (units (S754_zero false)) with 0. rewrite Z.add_0_l.
    symmetry. apply units_fix. assumption.
  - right. split; [exact Hx|].
    change (add (S754_finite false mx ex) (S754_zero false))
      with (S754_finite false mx ex).
    change (units (S754_zero false)) with 0. rewrite Z.add_0_r.
    symmetry. apply units_fix. assumption.
  - destruct (nonneg_finite _ _ Hx) as ([Hex _] & _).
    destruct (nonneg_finite _ _ Hy) as ([Hey _] & _).
    unfold add, SFadd. cbv zeta. unfold cond_Zopp.
    destruct (shl_align_spec mx ex (Z.min ex ey)) as (mx' & Ex & Emx).
    destruct (shl_align_spec my ey (Z.min ex ey)) as (my' & Ey & Emy).
    rewrite Ex, Ey. cbn [fst]. 
    change (Zpos mx' + Zpos my') with (Zpos (mx' + my')).
    unfold binary_normalize.
    destruct (binary_round_units (mx' + my') (Z.min ex ey) ltac:(lia))
      as [E|[Hn Hu]]; [left; exact E|right].
    split; [exact Hn|]. rewrite Hu. f_equal.
    rewrite Pos2Z.inj_add, Emx, Emy.
    replace (Z.min ex (Z.min ex ey)) with (Z.min ex ey) by lia.
    replace (Z.min ey (Z.min ex ey)) with (Z.min ex ey) by lia.
    unfold units.
    rewrite Z.mul_add_distr_r, <- !Z.mul_assoc, <- !pow2_split by lia.
    do 2 f_equal; f_equal; lia.
Qed.

(** ** Products and quotients below a bound *)

Lemma Zdigits2_mul_ge a b :
  0 < a -> 0 < b -> Zdigits2 a + Zdigits2 b - 1 <= Zdigits2 (a * b).
Proof.
  intros Ha Hb.
  pose proof (Zdigits2_pos_bounds a Ha) as Hda.
  pose proof (Zdigits2_pos_bounds b Hb) as Hdb.
  pose proof (Zdigits2_pos_bounds (a * b) ltac:(nia)) as Hdab.
  assert (1 <= Zdigits2 a) by (destruct a; simpl; lia).
  assert (1 <= Zdigits2 b) by (destruct b; simpl; lia).
  assert (0 <= Zdigits2 (a * b)) by apply Zdigits2_nonneg.
  assert (H2 : 2 ^ (Zdigits2 a - 1 + (Zdigits2 b - 1)) < 2 ^ Zdigits2 (a * b)).
  { rewrite pow2_split by lia.
    assert (0 < 2 ^ (Zdigits2 a - 1)) by (apply pow2_pos; lia).
    assert (0 < 2 ^ (Zdigits2 b - 1)) by (apply pow2_pos; lia).
    nia. }
  apply pow2_lt_inv in H2; lia.
Qed.

(** The product of two canonical numbers, one of them normal, does not
    exceed a representable bound that the exact product does not exceed. *)
Lemma mul_le_bound mx ex my ey mb eb c :
  nonneg (S754_finite false mx ex) = true ->
  nonneg (S754_finite false my ey) = true ->
  Zdigits2 (Zpos my) = 53 ->
  0 < mb -> fexp prec emax (Zdigits2 mb + eb) <= eb ->
  c <= ex + ey -> c <= emin prec emax ->
  Zpos mx * Zpos my * 2 ^ (ex + ey - c) <= mb * 2 ^ (eb - c) ->
  (nonneg (mul (S754_finite false mx ex) (S754_finite false my ey)) = true
   /\ units (mul (S754_finite false mx ex) (S754_finite false my ey))
      <= mb * 2 ^ (eb - emin prec emax))
  \/ (mul (S754_finite false mx ex) (S754_finite false my ey) = Infinity
      /\ emax - prec < eb).
Proof.
  intros Hx Hy Hdy Hmb Hrep Hc Hcm Hle.
  unfold mul, SFmul. cbn [xorb].
  apply binary_round_aux_le with (c := c); try assumption; try lia.
  - pose proof (Zdigits2_mul_ge (Zpos mx) (Zpos my) ltac:(lia) ltac:(lia)) as Hd.
    change (Zpos (mx * my)) with (Zpos mx * Zpos my).
    assert (1 <= Zdigits2 (Zpos mx)) by (simpl; lia).
    format_lia.
  - right. split; [reflexivity|]. exact Hle.
Qed.

(** The quotient of [P] by [T] when [P] is at most four times [T]. *)
Lemma div_le_four mx ex my ey :
  nonneg (S754_finite false mx ex) = true ->
  nonneg (S754_finite false my ey) = true ->
  units (S754_finite false mx ex) <= 4 * units (S754_finite false my ey) ->
  nonneg (div (S754_finite false mx ex) (S754_finite false my ey)) = true
  /\ units (div (S754_finite false mx ex) (S754_finite false my ey))
     <= 2 ^ (2 - emin prec emax).
Proof.
  intros Hx Hy Hle. unfold units in Hle.
  destruct (nonneg_finite _ _ Hx) as ([Hex Hex'] & _).
  destruct (nonneg_finite _ _ Hy) as ([Hey Hey'] & _).
  unfold div, SFdiv, SFdiv_core_binary. cbn [xorb]. cbv zeta.
  set (d1 := Zdigits2 (Zpos mx)). set (d2 := Zdigits2 (Zpos my)).
  set (D := d1 + ex - (d2 + ey)).
  set (e' := Z.min (fexp prec emax D) (ex - ey)).
  set (s := ex - ey - e').
  assert (Hs : 0 <= s) by (subst s e'; lia).
  assert (Es : s = ex - ey - e') by reflexivity. clearbody s.
  set (m' := match s with
             | 0 => Zpos mx
             | Zpos _ => Z.shiftl (Zpos mx) s
             | Zneg _ => 0
             end).
  assert (Em' : m' = Zpos mx * 2 ^ s).
  { subst m'. destruct s as [|p|p]; try lia.
    apply Z.shiftl_mul_pow2. lia. }
  assert (HPs : 0 < 2 ^ s) by (apply pow2_pos; lia).
  pose proof (Z_div_mod m' (Zpos my) ltac:(lia)) as Hdm.
  destruct (Z.div_eucl m' (Zpos my)) as [q r] eqn:Edm.
  destruct Hdm as [Hdm Hr].
  assert (Hq0 : 0 <= q) by nia.
  pose proof (digits2_pos_bounds mx) as Hb1. fold (Zdigits2 (Zpos mx)) in Hb1.
  pose proof (digits2_pos_bounds my) as Hb2. fold (Zdigits2 (Zpos my)) in Hb2.
  fold d1 in Hb1. fold d2 in Hb2.
  assert (Hd1 : 1 <= d1) by (subst d1; simpl; lia).
  assert (Hd2 : 1 <= d2) by (subst d2; simpl; lia).
  (* the location is exact only when the remainder is zero *)
  assert (Hloc : new_location (Zpos my) r = loc_Exact -> r = 0).
  { unfold new_location, new_location_even, new_location_odd.
    destruct (Z.even (Zpos my)); destruct (Z.eqb_spec r 0); auto; discriminate. }
  set (c := Z.min e' (emin prec emax)).
  assert (Hc : c <= e' /\ c <= emin prec emax /\ c <= 0 /\ e' <= ex - ey
               /\ e' <= fexp prec emax D)
    by (subst c e'; format_lia).
  destruct (binary_round_aux_le q e' (new_location (Zpos my) r) 1 2 c)
    as [[Hn Hu]|[_ Habs]]; try lia.
  - (* enough digits in the quotient *)
    destruct (Z.le_gt_cases e' (emin prec emax)) as [Hlow|Hhigh].
    { unfold fexp. lia. }
    assert (HfD : fexp prec emax D = D - 53)
      by format_lia.
    assert (Hds : 53 <= d1 + s - d2) by (subst s D; lia).
    assert (Hq : 2 ^ (d1 - 1 + s - d2) <= q).
    { assert (Hlt : 2 ^ (d1 - 1 + s - d2) * Zpos my < m' + 1 * Zpos my - r); [|nia].
      apply Z.lt_le_trans with (2 ^ (d1 - 1 + s - d2) * 2 ^ d2).
      - apply Z.mul_lt_mono_pos_l; [apply pow2_pos|]; lia.
      - rewrite <- pow2_split by lia.
        replace (d1 - 1 + s - d2 + d2) with (d1 - 1 + s) by lia.
        rewrite pow2_split by lia. nia. }
    assert (Hqpos : 0 < q).
    { assert (0 < 2 ^ (d1 - 1 + s - d2)) by (apply pow2_pos; lia). lia. }
    pose proof (Zdigits2_pos_bounds q Hqpos) as Hdq.
    assert (Hdq' : d1 - 1 + s - d2 < Zdigits2 q).
    { apply pow2_lt_inv; [apply Zdigits2_nonneg|]. lia. }
    assert (HD : D = d1 + ex - (d2 + ey)) by reflexivity.
    destruct Hc as (_ & _ & _ & _ & Hc). rewrite HfD in Hc.
    unfold fexp, prec. lia.
  - simpl. format_lia.
  - (* the exact quotient is at most 4 *)
    rewrite Z.mul_1_l.
    assert (Hexp : ex - ey - c = s + (e' - c)) by lia.
    assert (HPc : 0 < 2 ^ (e' - c)) by (apply pow2_pos; lia).
    assert (HP0 : 0 < 2 ^ (0 - c)) by (apply pow2_pos; lia).
    assert (HPy : 0 < 2 ^ (ey - emin prec emax)) by (apply pow2_pos; lia).
    (* m1 * 2^(ex - ey - c) <= 4 * m2 * 2^(-c) *)
    assert (Hmain : Zpos mx * 2 ^ (ex - ey - c) <= 4 * Zpos my * 2 ^ (0 - c)).
    { apply Z.mul_le_mono_pos_r with (2 ^ (ey - emin prec emax)); [assumption|].
      rewrite <- !Z.mul_assoc, <- !pow2_split by lia.
      replace (ex - ey - c + (ey - emin prec emax))
        with ((ex - emin prec emax) + (0 - c)) by lia.
      replace (0 - c + (ey - emin prec emax))
        with ((ey - emin prec emax) + (0 - c)) by lia.
      rewrite !pow2_split by lia. nia. }
    rewrite Hexp, pow2_split in Hmain by lia.
    replace (2 - c) with (2 + (0 - c)) by lia.
    rewrite pow2_split by lia. change (2 ^ 2) with 4.
    destruct (Z.eq_dec r 0) as [Hr0|Hr0].
    + destruct (new_location (Zpos my) r) eqn:El.
      * right. split; [reflexivity|].
        apply Z.mul_le_mono_pos_l with (Zpos my); [lia|]. nia.
      * left. 
        apply Z.mul_lt_mono_pos_l with (Zpos my); [lia|].
        exfalso. revert El. subst r.
        unfold new_location, new_location_even, new_location_odd.
        destruct (Z.even (Zpos my)); simpl; discriminate.
    + left. apply Z.mul_lt_mono_pos_l with (Zpos my); [lia|].
      assert (q * Zpos my < Zpos mx * 2 ^ s) by nia. nia.
  - split; [exact Hn|]. rewrite Z.mul_1_l in Hu. exact Hu.
  - unfold emax, prec in Habs. lia.
Qed.

(** A product with a normal factor that is at most 4. *)
Lemma mul_le_four h my ey :
  nonneg h = true ->
  nonneg (S754_finite false my ey) = true ->
  Zdigits2 (Zpos my) = 53 -> ey <= 0 -> Zpos my <= 2 ^ (2 - ey) ->
  mul h (S754_finite false my ey) = Infinity
  \/ (nonneg (mul h (S754_finite false my ey)) = true
      /\ units (mul h (S754_finite false my ey)) <= 4 * units h).
Proof.
  intros Hh Hy Hd Hey Hmy.
  destruct h as [[|]| | |[|] mx ex]; try discriminate.
  { right. split; [reflexivity|]. simpl. lia. }
  destruct (nonneg_finite _ _ Hh) as ([Hex _] & Hmx & _).
  pose proof (digits2_pos_bounds mx) as Hdx.
  assert (Hdx53 : Zpos (digits2_pos mx) <= 53).
  { assert (Zpos (digits2_pos mx) - 1 < 53); [|lia]. apply pow2_lt_inv; lia. }
  destruct (mul_le_bound mx ex my ey (Zpos mx) (ex + 2) (emin prec emax + ey))
    as [[Hn Hu]|[E _]]; try assumption; try lia.
  - simpl Zdigits2. format_lia.
  - replace (ex + ey - (emin prec emax + ey)) with (ex - emin prec emax) by lia.
    replace (ex + 2 - (emin prec emax + ey))
      with ((ex - emin prec emax) + (2 - ey)) by lia.
    rewrite pow2_split by lia.
    assert (0 < 2 ^ (ex - emin prec emax)) by (apply pow2_pos; lia).
    nia.
  - right. split; [exact Hn|]. unfold units at 2.
    replace (ex + 2 - emin prec emax) with (2 + (ex - emin prec emax)) in Hu by lia.
    rewrite pow2_split in Hu by lia. change (2 ^ 2) with 4 in Hu. lia.
  - left. exact E.
Qed.

Lemma own_In {A} (o : list (string * A)) k v : own o k = Some v -> In v (map snd o).
Proof.
  induction o as [|[k' v'] r IH]; simpl; [discriminate|].
  destruct (String.eqb k' k); [intros [= ->]; auto|auto].
Qed.

(** Credit hours times a grade point of the table: at most four times the
    credit hours. *)
Lemma mul_points_le h g p :
  nonneg h = true -> pointsFor g = Some p ->
  mul h p = Infinity
  \/ (nonneg (mul h p) = true /\ units (mul h p) <= 4 * units h).
Proof.
  intros Hh Hp. apply own_In in Hp. unfold GRADE_POINTS in Hp.
  cbn [map snd In] in Hp.
  repeat match type of Hp with
         | _ \/ _ => destruct Hp as [Hp|Hp]
         end; try contradiction; vm_compute in Hp; subst p;
    try (apply mul_le_four;
         [assumption|vm_compute; reflexivity|reflexivity|lia|vm_compute; discriminate]).
  (* F: zero points *)
  right. destruct h as [[|]| | |[|] mx ex]; try discriminate;
    (split; [reflexivity|]).
  - vm_compute. discriminate.
  - pose proof (units_nonneg (S754_finite false mx ex)).
    change (mul (S754_finite false mx ex) (S754_zero false)) with (S754_zero false).
    change (units (S754_zero false)) with 0. lia.
Qed.

Lemma units_four : nonneg (of_Z 4) = true /\ units (of_Z 4) = 2 ^ (2 - emin prec emax).
Proof. split; vm_compute; reflexivity. Qed.

(** A value of at most 4, times 100: at most 400. *)
Lemma mul_hundred_le x :
  nonneg x = true -> units x <= 2 ^ (2 - emin prec emax) ->
  nonneg (mul x (of_Z 100)) = true
  /\ units (mul x (of_Z 100)) <= 400 * 2 ^ (0 - emin prec emax).
Proof.
  intros Hx Hu.
  change (of_Z 100) with (S754_finite false 7036874417766400 (-46)).
  destruct x as [[|]| | |[|] mx ex]; try discriminate.
  { split; [reflexivity|]. vm_compute. discriminate. }
  destruct (nonneg_finite _ _ Hx) as ([Hex _] & _).
  unfold units in Hu.
  destruct (mul_le_bound mx ex 7036874417766400 (-46) 25 4 (emin prec emax - 46))
    as [[Hn Hb]|[_ Habs]]; try assumption; try lia; try reflexivity.
  - vm_compute. discriminate.
  - replace (ex + -46 - (emin prec emax - 46)) with (ex - emin prec emax) by lia.
    replace (4 - (emin prec emax - 46)) with (48 + (2 - emin prec emax))
      by format_lia.
    rewrite pow2_split by format_lia.
    change (Zpos 7036874417766400) with (25 * 2 ^ 48).
    assert (0 < 2 ^ 48) by (apply pow2_pos; lia). nia.
  - split; [exact Hn|].
    replace (4 - emin prec emax) with (4 + (0 - emin prec emax)) in Hb by lia.
    rewrite pow2_split in Hb by format_lia.
    change (2 ^ 4) with 16 in Hb. lia.
  - unfold emax, prec in Habs. lia.
Qed.

(** The integers from 1 to 400 are numbers, exactly. *)
Lemma of_Z_units n :
  0 < n <= 400 ->
  nonneg (of_Z n) = true /\ units (of_Z n) = n * 2 ^ (0 - emin prec emax).
Proof.
  intros Hn.
  assert (Hall : forallb (fun k => nonneg (of_Z (Z.of_nat k))
                                   && (units (of_Z (Z.of_nat k))
                                       =? Z.of_nat k * 2 ^ (0 - emin prec emax)))
                   (seq 1 400) = true) by (vm_compute; reflexivity).
  rewrite forallb_forall in Hall.
  specialize (Hall (Z.to_nat n)). rewrite Z2Nat.id in Hall by lia.
  assert (Hin : In (Z.to_nat n) (seq 1 400)) by (apply in_seq; lia).
  apply Hall in Hin. apply andb_true_iff in Hin. destruct Hin as [H1 H2].
  apply Z.eqb_eq in H2. auto.
Qed.

(** [Math.round] of a value between 0 and 400 stays between 0 and 400. *)
Lemma Math_round_le y :
  nonneg y = true -> units y <= 400 * 2 ^ (0 - emin prec emax) ->
  nonneg (Math_round y) = true
  /\ units (Math_round y) <= 400 * 2 ^ (0 - emin prec emax).
Proof.
  intros Hy Hu. destruct y as [[|]| | |[|] m e]; try discriminate.
  { split; assumption. }
  destruct e as [|e|k]; [split; assumption|split; assumption|].
  unfold Math_round. cbn [cond_Zopp].
  destruct (nonneg_finite _ _ Hy) as ([Hek _] & _).
  set (P := 2 ^ Zpos k) in *.
  assert (HP : 0 < P) by (apply pow2_pos; lia).
  assert (E1 : 2 ^ (Zpos k + 1) = 2 * P)
    by (rewrite pow2_split by lia; change (2 ^ 1) with 2; lia).
  rewrite E1.
  assert (Hm : Zpos m <= 400 * P).
  { unfold units in Hu.
    assert (E0 : 2 ^ (0 - emin prec emax) = 2 ^ (Zneg k - emin prec emax) * P).
    { subst P. rewrite <- pow2_split by lia. f_equal. lia. }
    rewrite E0 in Hu.
    assert (0 < 2 ^ (Zneg k - emin prec emax)) by (apply pow2_pos; lia). nia. }
  assert (Hn : 0 <= (2 * Zpos m + P) / (2 * P) <= 400).
  { split; [apply Z.div_pos; lia|].
    apply Z.lt_succ_r. apply Z.div_lt_upper_bound; lia. }
  destruct ((2 * Zpos m + P) / (2 * P)) as [|n|n] eqn:En; try lia.
  - split; [reflexivity|]. 
    assert (0 < 2 ^ (0 - emin prec emax)) by (apply pow2_pos; format_lia).
    change (units (S754_zero false)) with 0. lia.
  - destruct (of_Z_units (Zpos n) ltac:(lia)) as [H1 H2].
    split; [exact H1|]. rewrite H2.
    assert (0 < 2 ^ (0 - emin prec emax)) by (apply pow2_pos; format_lia).
    nia.
Qed.

(** The quotient by 100 of a value of at most 400. *)
Lemma div_hundred_le y :
  nonneg y = true -> units y <= 400 * 2 ^ (0 - emin prec emax) ->
  nonneg (div y (of_Z 100)) = true
  /\ units (div y (of_Z 100)) <= 2 ^ (2 - emin prec emax).
Proof.
  intros Hy Hu.
  change (of_Z 100) with (S754_finite false 7036874417766400 (-46)).
  destruct y as [[|]| | |[|] m e]; try discriminate.
  { split; [reflexivity|]. vm_compute. discriminate. }
  apply div_le_four; [assumption|reflexivity|].
  replace (units (S754_finite false 7036874417766400 (-46)))
    with (100 * 2 ^ (0 - emin prec emax)) by (vm_compute; reflexivity).
  lia.
Qed.

(** [roundToTwo] keeps a value between 0 and 4 between 0 and 4. *)
Lemma roundToTwo_range x :
  nonneg x = true -> units x <= 2 ^ (2 - emin prec emax) ->
  nonneg (roundToTwo x) = true
  /\ units (roundToTwo x) <= 2 ^ (2 - emin prec emax).
Proof.
  intros Hx Hu. unfold roundToTwo.
  destruct (mul_hundred_le x Hx Hu) as [H1 H2].
  destruct (Math_round_le _ H1 H2) as [H3 H4].
  apply div_hundred_le; assumption.
Qed.

(** ** The two sums of [calculateGpa] *)

Lemma keptCourse_facts c :
  wf (Course.creditHours c) = true -> keptCourse c = true ->
  nonneg (Course.creditHours c) = true
  /\ 0 < units (Course.creditHours c)
  /\ (addedPoints c = NaN
      \/ exists p, pointsFor (Course.grade c) = Some p
                   /\ addedPoints c = mul (Course.creditHours c) p).
Proof.
  unfold keptCourse, addedPoints, pointsFor, Get. intros Hwf Hk.
  apply andb_true_iff in Hk. destruct Hk as [Hk Hg].
  apply andb_true_iff in Hk. destruct Hk as [Hf Hgt].
  destruct (Course.creditHours c) as [[|]|[|]| |[|] m e]; try discriminate.
  split; [exact Hwf|]. split.
  - unfold units. pose proof (wf_finite_emin _ _ _ Hwf).
    assert (0 < 2 ^ (e - emin prec emax)) by (apply pow2_pos; lia). nia.
  - destruct (own GRADE_POINTS (Course.grade c)) as [p|].
    + right. exists p. split; reflexivity.
    + left. destruct (existsb _ _); [reflexivity|discriminate Hg].
Qed.

Lemma nonneg_cases x :
  nonneg x = true ->
  x = S754_zero false \/ exists m e, x = S754_finite false m e.
Proof.
  destruct x as [[|]| | |[|] m e]; try discriminate; eauto.
Qed.

Lemma points_within_step P T h w :
  points_within P T ->
  nonneg h = true -> 0 < units h ->
  (w = NaN \/ w = Infinity \/ (nonneg w = true /\ units w <= 4 * units h)) ->
  points_within (add P w) (add T h).
Proof.
  intros [->|[HT HP]] Hh Hpos Hw.
  { left. destruct (nonneg_cases h Hh) as [->|(m & e & ->)]; reflexivity. }
  destruct (add_units T h HT Hh) as [E|[HT' EuT]]; [left; exact E|].
  right. split; [exact HT'|].
  destruct HP as [->|[->|[HP HPle]]].
  - left. reflexivity.
  - destruct Hw as [->|[->|[Hw _]]].
    + left. reflexivity.
    + right. left. reflexivity.
    + right. left.
      destruct (nonneg_cases w Hw) as [->|(m & e & ->)]; reflexivity.
  - destruct Hw as [->|[->|[Hw Hwle]]].
    + left. destruct (nonneg_cases P HP) as [->|(m & e & ->)]; reflexivity.
    + right. left.
      destruct (nonneg_cases P HP) as [->|(m & e & ->)]; reflexivity.
    + destruct (add_units P w HP Hw) as [E|[HP' EuP]];
        [right; left; exact E|].
      right. right. split; [exact HP'|].
      rewrite EuP, EuT. apply round53_four.
      pose proof (units_nonneg P). pose proof (units_nonneg w). lia.
Qed.

Lemma points_within_sums vs :
  Forall (fun c => wf (Course.creditHours c) = true /\ keptCourse c = true) vs ->
  forall P T,
    points_within P T ->
    points_within (fold_left add (map addedPoints vs) P)
                  (fold_left add (map Course.creditHours vs) T).
Proof.
  induction 1 as [|c vs [Hwf Hk] _ IH]; intros P T Hinv; [exact Hinv|].
  cbn [map fold_left]. apply IH.
  destruct (keptCourse_facts c Hwf Hk) as (Hh & Hpos & Hw).
  apply points_within_step; try assumption.
  destruct Hw as [->|(p & Hp & ->)]; [left; reflexivity|].
  destruct (mul_points_le _ _ _ Hh Hp) as [E|H]; auto.
Qed.

(** The value returned when the sums pass the guards. *)
Lemma gpa_value_range P T :
  nonneg T = true -> 0 < units T ->
  (P = NaN \/ P = Infinity \/ (nonneg P = true /\ units P <= 4 * units T)) ->
  let raw := div P T in
  let g := if isFinite raw then roundToTwo raw else zero in
  nonneg g = true /\ units g <= 2 ^ (2 - emin prec emax).
Proof.
  intros HT Hpos HP. cbn zeta.
  assert (Hz : nonneg zero = true /\ units zero <= 2 ^ (2 - emin prec emax))
    by (split; [reflexivity|vm_compute; discriminate]).
  destruct (nonneg_cases T HT) as [->|(mt & et & ->)]; [simpl in Hpos; lia|].
  destruct HP as [->|[->|[HP HPle]]]; [exact Hz|exact Hz|].
  assert (Hraw : nonneg (div P (S754_finite false mt et)) = true
                 /\ units (div P (S754_finite false mt et))
                    <= 2 ^ (2 - emin prec emax)).
  { destruct (nonneg_cases P HP) as [->|(mp & ep & ->)].
    - split; [reflexivity|vm_compute; discriminate].
    - apply div_le_four; assumption. }
  destruct Hraw as [Hn Hu].
  destruct (isFinite _); [|exact Hz].
  apply roundToTwo_range; assumption.
Qed.


Lemma valid_courses_credits_positive cs :
  cs <> [] ->
  Forall (fun c => wf (Course.creditHours c) = true /\ validCourse c = true) cs ->
  positive_number (courseCredits cs) = true.
Proof.
  intros Hne Hall. apply sum_positive.
  - destruct cs; [congruence|discriminate].
  - apply Forall_map. eapply Forall_impl; [|exact Hall].
    intros c [Hwf Hv]. unfold validCourse in Hv.
    apply andb_true_iff in Hv. destruct Hv as [Hv _].
    apply andb_true_iff in Hv. destruct Hv as [Hf Hg].
    apply finite_gt_zero_positive; assumption.
Qed.

Lemma valid_semesters_credits_positive ss :
  ss <> [] ->
  Forall (fun s => wf (SemesterSummary.creditHours s) = true
                   /\ validSemester s = true) ss ->
  positive_number (semesterCredits ss) = true.
Proof.
  intros Hne Hall. apply sum_positive.
  - destruct ss; [congruence|discriminate].
  - apply Forall_map. eapply Forall_impl; [|exact Hall].
    intros c [Hwf Hv]. unfold validSemester in Hv.
    apply andb_true_iff in Hv. destruct Hv as [Hv Hg].
    apply andb_true_iff in Hv. destruct Hv as [_ Hf].
    apply finite_gt_zero_positive; assumption.
Qed.

(** * The claims *)

(** C1, as stated, fails: two courses of 1e308 credit hours each have valid
    fields, but their credit hours add up to [Infinity], and the guard on a
    total that is not finite returns gpa 0 with totalCreditHours 0, not the
    sum. *)
Lemma calculateGpa_average_overflow :
  ~ (forall cs : list Course.t,
        Forall (fun c => wf (Course.creditHours c) = true
                         /\ validCourse c = true) cs ->
        calculateGpa (map Some cs)
        = Normal {| gpa := roundToTwo (div (courseWeighted cs) (courseCredits cs));
                    totalCreditHours := courseCredits cs |}).
Proof.
  intros H. specialize (H hugeCourses).
  assert (Hin : Forall (fun c => wf (Course.creditHours c) = true
                                 /\ validCourse c = true) hugeCourses)
    by (repeat constructor; vm_compute; reflexivity).
  specialize (H Hin). vm_compute in H. discriminate H.
Qed.

(** C1 (amended): for every list of courses in which every course has a
    finite, strictly positive creditHours and a grade that is a key of the
    grade table, and whose credit hours add up to a finite number,
    calculateGpa returns totalCreditHours equal to that sum, and gpa equal to
    the two-decimal rounding of (sum of creditHours times grade points)
    divided by (sum of creditHours) when that quotient is finite, and 0 when
    it is not. *)
Theorem calculateGpa_weighted_average (cs : list Course.t) :
  Forall (fun c => wf (Course.creditHours c) = true /\ validCourse c = true) cs ->
  isFinite (courseCredits cs) = true ->
  calculateGpa (map Some cs)
  = Normal {| gpa := (let q := div (courseWeighted cs) (courseCredits cs) in
                      if isFinite q then roundToTwo q else zero);
              totalCreditHours := courseCredits cs |}.
Proof.
  intros Hall Hfin. rewrite calculateGpa_eq, objects_map_Some.
  rewrite filter_all
    by (eapply Forall_impl; [|exact Hall]; intros c [_ ?]; now apply validCourse_kept).
  cbn zeta. destruct cs as [|c cs']; [reflexivity|].
  rewrite positive_not_le_zero
    by (apply valid_courses_credits_positive; [discriminate|assumption]).
  rewrite Hfin. cbn [orb negb]. unfold courseWeighted.
  rewrite (map_ext_in addedPoints coursePoints); [reflexivity|].
  intros a Ha. apply validCourse_addedPoints.
  rewrite Forall_forall in Hall. apply Hall. assumption.
Qed.

(** Scenario 1 through the theorem: gpa 3.5 and 6 credit hours. *)
Lemma calculateGpa_weighted_average_witness :
  Forall (fun c => wf (Course.creditHours c) = true /\ validCourse c = true)
    scenario1
  /\ isFinite (courseCredits scenario1) = true
  /\ calculateGpa (map Some scenario1)
     = Normal {| gpa := decimal 35 1; totalCreditHours := of_Z 6 |}.
Proof.
  assert (H1 : Forall (fun c => wf (Course.creditHours c) = true
                                /\ validCourse c = true) scenario1)
    by (repeat constructor; vm_compute; reflexivity).
  assert (H2 : isFinite (courseCredits scenario1) = true) by (vm_compute; reflexivity).
  split; [exact H1|]. split; [exact H2|].
  rewrite (calculateGpa_weighted_average scenario1 H1 H2). vm_compute. reflexivity.
Defined.

(** C2, as stated, fails: two terms of gpa 4 and 1e308 credit hours each are
    valid, but their credit hours add up to [Infinity], and calculateCgpa
    returns [null] with totalCreditHours 0. *)
Lemma calculateCgpa_average_overflow :
  ~ (forall ss : list SemesterSummary.t,
        Forall (fun s => wf (SemesterSummary.creditHours s) = true
                         /\ validSemester s = true) ss ->
        calculateCgpa (map Some ss)
        = Normal {| cgpa := Some (roundToTwo (div (semesterWeighted ss)
                                                (semesterCredits ss)));
                    totalCgpaCreditHours := semesterCredits ss |}).
Proof.
  intros H. specialize (H hugeSemesters).
  assert (Hin : Forall (fun s => wf (SemesterSummary.creditHours s) = true
                                 /\ validSemester s = true) hugeSemesters)
    by (repeat constructor; vm_compute; reflexivity).
  specialize (H Hin). vm_compute in H. discriminate H.
Qed.

(** C2 (amended): for every non-empty list of terms in which every term has a
    finite gpa in [0, 4] and a finite, strictly positive creditHours, and
    whose credit hours add up to a finite number, calculateCgpa returns
    totalCreditHours equal to that sum, and cgpa equal to the two-decimal
    rounding of (sum of gpa times creditHours) divided by (sum of
    creditHours) when that quotient is finite, and 0 when it is not; in
    particular, for the terms (3.5, 15) and (3.0, 12) the result is
    cgpa = 3.28 and totalCreditHours = 27. *)
Theorem calculateCgpa_weighted_average :
  (forall ss : list SemesterSummary.t,
      ss <> [] ->
      Forall (fun s => wf (SemesterSummary.creditHours s) = true
                       /\ validSemester s = true) ss ->
      isFinite (semesterCredits ss) = true ->
      calculateCgpa (map Some ss)
      = Normal {| cgpa := Some (let q := div (semesterWeighted ss)
                                           (semesterCredits ss) in
                                if isFinite q then roundToTwo q else zero);
                  totalCgpaCreditHours := semesterCredits ss |})
  /\ calculateCgpa (map Some scenario4)
     = Normal {| cgpa := Some (decimal 328 2); totalCgpaCreditHours := of_Z 27 |}.
Proof.
  split; [|vm_compute; reflexivity].
  intros ss Hne Hall Hfin. rewrite calculateCgpa_eq, objects_map_Some.
  rewrite filter_all by (eapply Forall_impl; [|exact Hall]; now intros c [_ ?]).
  cbn zeta. destruct ss as [|s ss']; [congruence|].
  rewrite positive_not_le_zero
    by (apply valid_semesters_credits_positive; assumption).
  rewrite Hfin. reflexivity.
Qed.

(** Scenario 4 through the general half of the theorem. *)
Lemma calculateCgpa_weighted_average_witness :
  scenario4 <> []
  /\ Forall (fun s => wf (SemesterSummary.creditHours s) = true
                      /\ validSemester s = true) scenario4
  /\ isFinite (semesterCredits scenario4) = true
  /\ calculateCgpa (map Some scenario4)
     = Normal {| cgpa := Some (decimal 328 2); totalCgpaCreditHours := of_Z 27 |}.
Proof.
  assert (H0 : scenario4 <> []) by discriminate.
  assert (H1 : Forall (fun s => wf (SemesterSummary.creditHours s) = true
                                /\ validSemester s = true) scenario4)
    by (repeat constructor; vm_compute; reflexivity).
  assert (H2 : isFinite (semesterCredits scenario4) = true) by (vm_compute; reflexivity).
  split; [exact H0|]. split; [exact H1|]. split; [exact H2|].
  rewrite (proj1 calculateCgpa_weighted_average scenario4 H0 H1 H2). vm_compute. reflexivity.
Defined.

(** C3, as stated, fails on a negative tie: -0.125 times 100 is exactly
    -12.5, which [Math.round] takes to -12 (towards +Infinity), so roundToTwo
    gives -0.12, while rounding the half away from zero gives -0.13. *)
Lemma roundToTwo_negative_tie :
  roundToTwo (decimal (-125) 3) = decimal (-12) 2
  /\ div (round_half_away (mul (decimal (-125) 3) (of_Z 100))) (of_Z 100)
     = decimal (-13) 2
  /\ ~ (forall x : number,
          wf x = true ->
          roundToTwo x = div (round_half_away (mul x (of_Z 100))) (of_Z 100)).
Proof.
  split; [vm_compute; reflexivity|]. split; [vm_compute; reflexivity|].
  intros H. specialize (H (decimal (-125) 3) eq_refl).
  vm_compute in H. discriminate H.
Qed.

(** The floor of [(h - a) / 2h] is minus the floor of [(a + h) / 2h], unless
    [a] is [h] modulo [2h]. *)
Lemma floor_half_opp a h :
  0 < h -> a mod (2 * h) <> h ->
  (- a + h) / (2 * h) = - ((a + h) / (2 * h)).
Proof.
  intros Hh Hne.
  pose proof (Z.div_mod (a + h) (2 * h) ltac:(lia)) as Hdm.
  pose proof (Z.mod_pos_bound (a + h) (2 * h) ltac:(lia)) as Hr.
  set (q := (a + h) / (2 * h)) in *. set (r := (a + h) mod (2 * h)) in *.
  assert (Hr0 : r <> 0).
  { intros E. apply Hne.
    symmetry. apply (Z.mod_unique a (2 * h) (q - 1) h); lia. }
  symmetry. apply (Z.div_unique (- a + h) (2 * h) (- q) (2 * h - r)); lia.
Qed.

(** [Math.round] and rounding with halves away from zero differ on the
    negative ties only. *)
Lemma Math_round_half_away y :
  negative_tie y = false -> Math_round y = round_half_away y.
Proof.
  destruct y as [s|s| |s m [|k|k]]; try reflexivity.
  destruct s; [|reflexivity].
  unfold negative_tie, Math_round, round_half_away. intros Ht.
  apply Z.eqb_neq in Ht. cbn [cond_Zopp]. cbv zeta.
  assert (Hh : 0 < 2 ^ Zpos k) by (apply pow2_pos; lia).
  assert (EP : 2 ^ (Zpos k + 1) = 2 * 2 ^ Zpos k)
    by (rewrite pow2_split by lia; change (2 ^ 1) with 2; ring).
  rewrite EP in *.
  replace (2 * - Zpos m) with (- (2 * Zpos m)) by lia.
  rewrite (floor_half_opp (2 * Zpos m) (2 ^ Zpos k) Hh Ht).
  destruct ((2 * Zpos m + 2 ^ Zpos k) / (2 * 2 ^ Zpos k)); reflexivity.
Qed.

(** A number that is not negative has no negative hundredfold. *)
Lemma nonneg_no_negative_tie x :
  lt x zero = false -> negative_tie (mul x (of_Z 100)) = false.
Proof.
  intros Hx.
  destruct x as [s|s| |[|] m e]; try reflexivity; try discriminate Hx.
  change (of_Z 100) with (S754_finite false 7036874417766400 (-46)).
  unfold mul, SFmul. cbn [xorb].
  pose proof (binary_round_aux_sign false
                (Zpos (m * 7036874417766400)) (e + -46) loc_Exact) as Hs.
  destruct (binary_round_aux _ _ _ _ _ _) as [| | |s' m' e']; try reflexivity.
  subst s'. reflexivity.
Qed.

(** C3 (amended): for every number x whose hundredfold x*100 is not a
    negative number midway between two integers (so for every x that is not
    negative, and for every negative x that is not a tie), roundToTwo(x) is x
    times 100, rounded to the nearest integer with halves away from zero,
    divided by 100. *)
Theorem roundToTwo_half_away (x : number) :
  negative_tie (mul x (of_Z 100)) = false ->
  roundToTwo x = div (round_half_away (mul x (of_Z 100))) (of_Z 100).
Proof.
  intros Hx. unfold roundToTwo. f_equal. apply Math_round_half_away. exact Hx.
Qed.

(** -0.126 times 100 is about -12.6, negative and no tie: both roundings give
    -13, and roundToTwo gives -0.13. *)
Lemma roundToTwo_half_away_witness :
  negative_tie (mul (decimal (-126) 3) (of_Z 100)) = false
  /\ roundToTwo (decimal (-126) 3) = decimal (-13) 2.
Proof.
  assert (H : negative_tie (mul (decimal (-126) 3) (of_Z 100)) = false)
    by (vm_compute; reflexivity).
  split; [exact H|].
  rewrite (roundToTwo_half_away (decimal (-126) 3) H). vm_compute. reflexivity.
Defined.

(** What does hold of an entry that the filter rejects: it changes nothing,
    wherever it is inserted. *)
Lemma calculateGpa_rejected_ignored l1 l2 (c : Course.t) :
  keptCourse c = false ->
  calculateGpa (l1 ++ Some c :: l2) = calculateGpa (l1 ++ l2).
Proof.
  intros Hc. rewrite !calculateGpa_eq, !objects_app. simpl objects.
  rewrite !filter_app. simpl filter. rewrite Hc. reflexivity.
Qed.

Lemma calculateCgpa_invalid_ignored l1 l2 (s : SemesterSummary.t) :
  validSemester s = false ->
  calculateCgpa (l1 ++ Some s :: l2) = calculateCgpa (l1 ++ l2).
Proof.
  intros Hs. rewrite !calculateCgpa_eq, !objects_app. simpl objects.
  rewrite !filter_app. simpl filter. rewrite Hs. reflexivity.
Qed.

(** A course is rejected when its credit hours are not a finite positive
    number, or when its grade is neither a key of the table nor the name of
    an inherited property. *)
Lemma keptCourse_false (c : Course.t) :
  validCourse c = false ->
  existsb (String.eqb (Course.grade c)) Object_prototype = false ->
  keptCourse c = false.
Proof.
  unfold validCourse, keptCourse, pointsFor, Get. intros Hv Hp.
  destruct (own GRADE_POINTS (Course.grade c)); [exact Hv|].
  rewrite Hp. apply andb_false_r.
Qed.

(** C4, where the code departs from it: a course with grade "constructor" is
    not in the grade table, yet [GRADE_POINTS["constructor"]] is the inherited
    [Object] function, not [undefined], so the filter keeps the course: its 3
    credit hours are added to the total, and its points, [NaN], turn the gpa
    into 0. *)
Theorem calculateGpa_inherited_grade_inserted :
  validCourse inheritedGrade = false
  /\ calculateGpa [Some (mkCourse (of_Z 3) "A")]
     = Normal {| gpa := of_Z 4; totalCreditHours := of_Z 3 |}
  /\ calculateGpa [Some (mkCourse (of_Z 3) "A"); Some inheritedGrade]
     = Normal {| gpa := zero; totalCreditHours := of_Z 6 |}.
Proof. split; [|split]; vm_compute; reflexivity. Qed.

(** C5: for every list of terms whose valid subset is empty, calculateCgpa
    returns [null] as its value and totalCreditHours = 0; so it does on the
    empty list and on the list whose only term has gpa 5. *)
Theorem calculateCgpa_no_valid_term (ss : list (option SemesterSummary.t)) :
  filter validSemester (objects ss) = [] ->
  calculateCgpa ss = Normal {| cgpa := None; totalCgpaCreditHours := zero |}.
Proof. intros H. rewrite calculateCgpa_eq, H. reflexivity. Qed.

(** Scenario 5 and the empty list through the theorem. *)
Lemma calculateCgpa_no_valid_term_witness :
  (filter validSemester (objects (map Some scenario5)) = []
   /\ calculateCgpa (map Some scenario5)
      = Normal {| cgpa := None; totalCgpaCreditHours := zero |})
  /\ (filter validSemester (objects (@nil (option SemesterSummary.t))) = []
      /\ calculateCgpa []
         = Normal {| cgpa := None; totalCgpaCreditHours := zero |}).
Proof.
  split.
  - assert (H : filter validSemester (objects (map Some scenario5)) = [])
      by (vm_compute; reflexivity).
    split; [exact H|]. exact (calculateCgpa_no_valid_term _ H).
  - assert (H : filter validSemester (objects (@nil (option SemesterSummary.t))) = [])
      by (vm_compute; reflexivity).
    split; [exact H|]. exact (calculateCgpa_no_valid_term _ H).
Defined.

(** C6, where the code departs from it: the only course has grade
    "constructor", so the valid subset is empty, but the filter keeps the
    course and calculateGpa returns totalCreditHours 3, not 0. *)
Theorem calculateGpa_inherited_grade_alone :
  filter validCourse (objects [Some inheritedGrade]) = []
  /\ calculateGpa [Some inheritedGrade]
     = Normal {| gpa := zero; totalCreditHours := of_Z 3 |}.
Proof. split; vm_compute; reflexivity. Qed.

(** What does hold: when the filter keeps no course, the result is gpa 0 with
    totalCreditHours 0. *)
Lemma calculateGpa_none_kept (cs : list (option Course.t)) :
  filter keptCourse (objects cs) = [] ->
  calculateGpa cs = Normal {| gpa := zero; totalCreditHours := zero |}.
Proof. intros H. rewrite calculateGpa_eq, H. reflexivity. Qed.

(** C7: the grade table has exactly the nine entries A 4.0, A- 3.75, B+ 3.5,
    B 3.0, C+ 2.5, C 2.0, D+ 1.5, D 1.0, F 0.0, each value exact;
    getGradeOptions returns the nine letters in that order, and
    getAllowedCreditHours returns 1, 2, 3, 4. *)
Theorem grade_table_and_options :
  map (fun kv => (fst kv, to_Q (snd kv))) GRADE_POINTS
  = [ ("A", Some (4 # 1)%Q); ("A-", Some (15 # 4)%Q); ("B+", Some (7 # 2)%Q);
      ("B", Some (3 # 1)%Q); ("C+", Some (5 # 2)%Q); ("C", Some (2 # 1)%Q);
      ("D+", Some (3 # 2)%Q); ("D", Some (1 # 1)%Q); ("F", Some (0 # 1)%Q) ]
  /\ Forall (fun kv => wf (snd kv) = true) GRADE_POINTS
  /\ getGradeOptions = [ "A"; "A-"; "B+"; "B"; "C+"; "C"; "D+"; "D"; "F" ]
  /\ getGradeOptions = map fst GRADE_POINTS
  /\ (forall g, pointsFor g <> None <-> In g getGradeOptions)
  /\ map to_Q getAllowedCreditHours
     = [ Some (1 # 1)%Q; Some (2 # 1)%Q; Some (3 # 1)%Q; Some (4 # 1)%Q ]
  /\ Forall (fun h => wf h = true) getAllowedCreditHours.
Proof.
  split; [vm_compute; reflexivity|].
  split; [repeat constructor; vm_compute; reflexivity|].
  split; [reflexivity|]. split; [reflexivity|].
  split; [|split; [vm_compute; reflexivity|repeat constructor; vm_compute; reflexivity]].
  intros g. unfold pointsFor, GRADE_POINTS, getGradeOptions. cbn [own In].
  repeat match goal with
         | |- context [String.eqb ?a g] =>
             destruct (String.eqb_spec a g) as [<-|?]
         end;
    try (split; [intros _; tauto | intros _; discriminate]).
  split; [congruence|]. intros H. repeat destruct H as [H|H]; try congruence.
Qed.

(** C8: on every array of course objects or [null]s, and every array of term
    objects or [null]s, whatever numbers and strings the fields hold, both
    calculators return a result: no callback reads a property of [null]. *)
Theorem calculators_return
  (courses : list (option Course.t))
  (semesters : list (option SemesterSummary.t)) :
  returns (calculateGpa courses) /\ returns (calculateCgpa semesters).
Proof.
  split.
  - eexists. apply calculateGpa_eq.
  - eexists. apply calculateCgpa_eq.
Qed.


(** C9: for every list of courses, the gpa returned by calculateGpa lies in
    the closed interval [0, 4] and the returned totalCreditHours is >= 0. *)
Theorem calculateGpa_range (courses : list (option Course.t)) :
  Forall (fun c => wf (Course.creditHours c) = true) (objects courses) ->
  exists r,
    calculateGpa courses = Normal r
    /\ le zero (gpa r) = true
    /\ le (gpa r) (of_Z 4) = true
    /\ le zero (totalCreditHours r) = true.
Proof.
  intros Hwf. eexists. split; [apply calculateGpa_eq|]. cbn zeta.
  set (vs := filter keptCourse (objects courses)).
  assert (Hvs : Forall (fun c => wf (Course.creditHours c) = true
                                 /\ keptCourse c = true) vs).
  { apply Forall_forall. intros c Hc. apply filter_In in Hc.
    destruct Hc as [Hin Hk]. split; [|exact Hk].
    rewrite Forall_forall in Hwf. apply Hwf. exact Hin. }
  assert (Hinv : points_within (sum (map addedPoints vs)) (courseCredits vs)).
  { apply points_within_sums; [exact Hvs|].
    right. split; [reflexivity|]. right. right. split; [reflexivity|].
    simpl. lia. }
  destruct units_four as [Hn4 Hu4].
  destruct (le (courseCredits vs) zero || negb (isFinite (courseCredits vs)))
    eqn:Hguard.
  { cbn [gpa totalCreditHours]. repeat split; vm_compute; reflexivity. }
  apply orb_false_iff in Hguard. destruct Hguard as [Hle Hfin].
  apply negb_false_iff in Hfin.
  destruct Hinv as [E|[HT HP]]; [rewrite E in Hfin; discriminate Hfin|].
  assert (Hpos : 0 < units (courseCredits vs)).
  { rewrite (le_units _ zero HT eq_refl) in Hle. apply Z.leb_gt in Hle.
    exact Hle. }
  destruct (gpa_value_range _ _ HT Hpos HP) as [Hg Hgu].
  cbn zeta in Hg, Hgu. cbn [gpa totalCreditHours].
  split; [|split].
  - rewrite (le_units zero _ eq_refl Hg). apply Z.leb_le. apply units_nonneg.
  - rewrite (le_units _ _ Hg Hn4), Hu4. apply Z.leb_le. exact Hgu.
  - rewrite (le_units zero _ eq_refl HT). apply Z.leb_le. apply units_nonneg.
Qed.

(** Scenario 1 through the theorem. *)
Lemma calculateGpa_range_witness :
  Forall (fun c => wf (Course.creditHours c) = true) (objects (map Some scenario1))
  /\ exists r,
      calculateGpa (map Some scenario1) = Normal r
      /\ le zero (gpa r) = true
      /\ le (gpa r) (of_Z 4) = true
      /\ le zero (totalCreditHours r) = true.
Proof.
  assert (H : Forall (fun c => wf (Course.creditHours c) = true)
                (objects (map Some scenario1)))
    by (repeat constructor; vm_compute; reflexivity).
  split; [exact H|]. exact (calculateGpa_range (map Some scenario1) H).
Defined.

(** C10, as stated, fails: two valid terms of 1e308 credit hours each add up
    to [Infinity]; the second guard is reached and returns [null] although
    the valid subset is not empty. *)
Lemma calculateCgpa_sentinel_overflow :
  filter validSemester (objects (map Some hugeSemesters)) <> []
  /\ calculateCgpa (map Some hugeSemesters)
     = Normal {| cgpa := None; totalCgpaCreditHours := zero |}
  /\ ~ (forall ss : list (option SemesterSummary.t),
          Forall (fun s => wf (SemesterSummary.creditHours s) = true) (objects ss) ->
          exists r, calculateCgpa ss = Normal r
                    /\ (cgpa r = None <-> filter validSemester (objects ss) = [])).
Proof.
  split; [vm_compute; discriminate|]. split; [vm_compute; reflexivity|].
  intros H. destruct (H (map Some hugeSemesters)) as (r & Hr & Hiff).
  - repeat constructor; vm_compute; reflexivity.
  - assert (E : cgpa r = None)
      by (vm_compute in Hr; injection Hr as <-; reflexivity).
    apply Hiff in E. vm_compute in E. discriminate E.
Qed.

(** C10 (amended): for every list of terms, calculateCgpa returns [null] if
    and only if the valid subset is empty or its credit hours add up to
    [Infinity]; the sum of the strictly positive credit hours of a non-empty
    valid subset is never <= 0, so of the second guard only the test for a
    total that is not finite can fire; and when the result is a number,
    totalCreditHours is finite and > 0. *)
Theorem calculateCgpa_sentinel (ss : list (option SemesterSummary.t)) :
  Forall (fun s => wf (SemesterSummary.creditHours s) = true) (objects ss) ->
  exists r,
    calculateCgpa ss = Normal r
    /\ (cgpa r = None <->
        filter validSemester (objects ss) = []
        \/ semesterCredits (filter validSemester (objects ss)) = Infinity)
    /\ (filter validSemester (objects ss) <> [] ->
        le (semesterCredits (filter validSemester (objects ss))) zero = false)
    /\ (cgpa r <> None ->
        gt (totalCgpaCreditHours r) zero = true
        /\ isFinite (totalCgpaCreditHours r) = true).
Proof.
  intros Hwf. eexists. split; [apply calculateCgpa_eq|]. cbn zeta.
  assert (Hpos : filter validSemester (objects ss) <> [] ->
                 positive_number
                   (semesterCredits (filter validSemester (objects ss))) = true).
  { intros Hne. apply valid_semesters_credits_positive; [assumption|].
    apply Forall_forall. intros s Hs. apply filter_In in Hs.
    destruct Hs as [Hin Hv]. split; [|assumption].
    rewrite Forall_forall in Hwf. apply Hwf. assumption. }
  destruct (filter validSemester (objects ss)) as [|v vs] eqn:E.
  - simpl. repeat split; auto; congruence.
  - specialize (Hpos ltac:(discriminate)).
    rewrite (positive_not_le_zero _ Hpos). cbn [orb].
    pose proof (positive_gt_zero _ Hpos) as Hgt.
    destruct (semesterCredits (v :: vs)) as [|[|]| |[|] m e] eqn:Et;
      try discriminate Hpos; simpl.
    + repeat split; auto; congruence.
    + split; [split; [discriminate|intros [H|H]; discriminate H]|].
      split; [reflexivity|]. intros _. split; [exact Hgt|reflexivity].
Qed.

(** Scenario 4 (a number, 27 credit hours) through the theorem. *)
Lemma calculateCgpa_sentinel_witness :
  Forall (fun s => wf (SemesterSummary.creditHours s) = true)
    (objects (map Some scenario4))
  /\ exists r,
      calculateCgpa (map Some scenario4) = Normal r
      /\ (cgpa r = None <->
          filter validSemester (objects (map Some scenario4)) = []
          \/ semesterCredits (filter validSemester (objects (map Some scenario4)))
             = Infinity)
      /\ (filter validSemester (objects (map Some scenario4)) <> [] ->
          le (semesterCredits (filter validSemester (objects (map Some scenario4))))
            zero = false)
      /\ (cgpa r <> None ->
          gt (totalCgpaCreditHours r) zero = true
          /\ isFinite (totalCgpaCreditHours r) = true).
Proof.
  assert (H : Forall (fun s => wf (SemesterSummary.creditHours s) = true)
                (objects (map Some scenario4)))
    by (repeat constructor; vm_compute; reflexivity).
  split; [exact H|]. exact (calculateCgpa_sentinel (map Some scenario4) H).
Defined.

(** * Further properties of the service *)

(** ** The returned averages are two-decimal numbers *)

(** [Math.round] of a value between 0 and 400 is one of the integers
    0, ..., 400. *)
Lemma Math_round_integer y :
  nonneg y = true -> units y <= 400 * 2 ^ (0 - emin prec emax) ->
  exists k, 0 <= k <= 400 /\ Math_round y = of_Z k.
Proof.
  intros Hy Hu. destruct y as [[|]| | |[|] m e]; try discriminate.
  { exists 0. split; [lia|reflexivity]. }
  destruct (nonneg_finite _ _ Hy) as ([Hek _] & _ & Hnorm).
  assert (HP0 : 0 < 2 ^ (0 - emin prec emax)) by (apply pow2_pos; format_lia).
  destruct e as [|e|k].
  - exfalso. specialize (Hnorm ltac:(format_lia)). unfold units in Hu.
    change (2 ^ 52) with 4503599627370496 in Hnorm. nia.
  - exfalso. specialize (Hnorm ltac:(format_lia)). unfold units in Hu.
    assert (2 ^ (0 - emin prec emax) <= 2 ^ (Zpos e - emin prec emax))
      by (apply pow2_le; format_lia).
    change (2 ^ 52) with 4503599627370496 in Hnorm. nia.
  - unfold Math_round. cbn [cond_Zopp].
    set (P := 2 ^ Zpos k) in *.
    assert (HP : 0 < P) by (apply pow2_pos; lia).
    assert (E1 : 2 ^ (Zpos k + 1) = 2 * P)
      by (rewrite pow2_split by lia; change (2 ^ 1) with 2; lia).
    rewrite E1.
    assert (Hm : Zpos m <= 400 * P).
    { unfold units in Hu.
      assert (E0 : 2 ^ (0 - emin prec emax) = 2 ^ (Zneg k - emin prec emax) * P).
      { subst P. rewrite <- pow2_split by lia. f_equal. lia. }
      rewrite E0 in Hu.
      assert (0 < 2 ^ (Zneg k - emin prec emax)) by (apply pow2_pos; lia). nia. }
    assert (Hn : 0 <= (2 * Zpos m + P) / (2 * P) <= 400).
    { split; [apply Z.div_pos; lia|].
      apply Z.lt_succ_r. apply Z.div_lt_upper_bound; lia. }
    exists ((2 * Zpos m + P) / (2 * P)). split; [exact Hn|].
    destruct ((2 * Zpos m + P) / (2 * P)); reflexivity.
Qed.

(** [roundToTwo] of a value between 0 and 4 is one of the 401 numbers
    [k / 100], [k] from 0 to 400. *)
Lemma roundToTwo_decimal x :
  nonneg x = true -> units x <= 2 ^ (2 - emin prec emax) ->
  exists k, 0 <= k <= 400 /\ roundToTwo x = decimal k 2.
Proof.
  intros Hx Hu. destruct (mul_hundred_le x Hx Hu) as [H1 H2].
  destruct (Math_round_integer _ H1 H2) as (k & Hk & E).
  exists k. split; [exact Hk|]. unfold roundToTwo. rewrite E. reflexivity.
Qed.

Lemma gpa_value_decimal P T :
  nonneg T = true -> 0 < units T ->
  (P = NaN \/ P = Infinity \/ (nonneg P = true /\ units P <= 4 * units T)) ->
  exists k, 0 <= k <= 400
            /\ (if isFinite (div P T) then roundToTwo (div P T) else zero)
               = decimal k 2.
Proof.
  intros HT Hpos HP.
  assert (Hz : exists k, 0 <= k <= 400 /\ zero = decimal k 2)
    by (exists 0; split; [lia|reflexivity]).
  destruct (nonneg_cases T HT) as [->|(mt & et & ->)]; [simpl in Hpos; lia|].
  destruct HP as [->|[->|[HP HPle]]]; [exact Hz|exact Hz|].
  assert (Hraw : nonneg (div P (S754_finite false mt et)) = true
                 /\ units (div P (S754_finite false mt et))
                    <= 2 ^ (2 - emin prec emax)).
  { destruct (nonneg_cases P HP) as [->|(mp & ep & ->)].
    - split; [reflexivity|vm_compute; discriminate].
    - apply div_le_four; assumption. }
  destruct Hraw as [Hn Hu].
  destruct (isFinite _); [|exact Hz].
  apply roundToTwo_decimal; assumption.
Qed.

Lemma kept_courses_wf (courses : list (option Course.t)) :
  Forall (fun c => wf (Course.creditHours c) = true) (objects courses) ->
  Forall (fun c => wf (Course.creditHours c) = true /\ keptCourse c = true)
    (filter keptCourse (objects courses)).
Proof.
  intros Hwf. apply Forall_forall. intros c Hc. apply filter_In in Hc.
  destruct Hc as [Hin Hk]. split; [|exact Hk].
  rewrite Forall_forall in Hwf. apply Hwf. exact Hin.
Qed.

Lemma points_within_start : points_within zero zero.
Proof.
  right. split; [reflexivity|]. right. right. split; [reflexivity|].
  change (units zero) with 0. lia.
Qed.

(** The gpa is a two-decimal number of [0, 4]; both results are finite. *)
Lemma calculateGpa_decimal (courses : list (option Course.t)) :
  Forall (fun c => wf (Course.creditHours c) = true) (objects courses) ->
  exists r k,
    calculateGpa courses = Normal r
    /\ 0 <= k <= 400
    /\ gpa r = decimal k 2
    /\ isFinite (gpa r) = true
    /\ isFinite (totalCreditHours r) = true.
Proof.
  intros Hwf.
  assert (Hfin : forall k, 0 <= k <= 400 -> isFinite (decimal k 2) = true).
  { intros k Hk.
    assert (Hall : forallb (fun n => isFinite (decimal (Z.of_nat n) 2)) (seq 0 401)
                   = true) by (vm_compute; reflexivity).
    rewrite forallb_forall in Hall. specialize (Hall (Z.to_nat k)).
    rewrite Z2Nat.id in Hall by lia. apply Hall. apply in_seq. lia. }
  pose proof (points_within_sums _ (kept_courses_wf _ Hwf) _ _ points_within_start)
    as Hinv.
  fold (sum (map addedPoints (filter keptCourse (objects courses)))) in Hinv.
  fold (sum (map Course.creditHours (filter keptCourse (objects courses)))) in Hinv.
  fold (courseCredits (filter keptCourse (objects courses))) in Hinv.
  rewrite calculateGpa_eq. cbn zeta.
  set (vs := filter keptCourse (objects courses)) in *.
  destruct (le (courseCredits vs) zero || negb (isFinite (courseCredits vs)))
    eqn:Hguard.
  { exists {| gpa := zero; totalCreditHours := zero |}, 0.
    repeat split; try reflexivity; lia. }
  apply orb_false_iff in Hguard. destruct Hguard as [Hle Hf].
  apply negb_false_iff in Hf.
  destruct Hinv as [E|[HT HP]]; [rewrite E in Hf; discriminate Hf|].
  assert (Hpos : 0 < units (courseCredits vs)).
  { rewrite (le_units _ zero HT eq_refl) in Hle. apply Z.leb_gt in Hle.
    exact Hle. }
  destruct (gpa_value_decimal _ _ HT Hpos HP) as (k & Hk & E).
  eexists. exists k. split; [reflexivity|]. cbn [gpa totalCreditHours].
  split; [exact Hk|]. split; [exact E|]. split; [|exact Hf].
  rewrite E. apply Hfin. exact Hk.
Qed.

(** X1: for every list of courses (their creditHours binary64 values,
    [null] entries allowed), the gpa returned by calculateGpa is one
    of the 401 two-decimal numbers 0.00, 0.01, ..., 4.00 (the double nearest
    to k/100), and totalCreditHours is a finite number: neither is ever NaN
    or Infinity. *)
Theorem calculateGpa_two_decimals (courses : list (option Course.t)) :
  Forall (fun c => wf (Course.creditHours c) = true) (objects courses) ->
  exists r k,
    calculateGpa courses = Normal r
    /\ 0 <= k <= 400
    /\ gpa r = decimal k 2
    /\ isFinite (gpa r) = true
    /\ isFinite (totalCreditHours r) = true.
Proof. exact (calculateGpa_decimal courses). Qed.

(** Scenario 1 through the theorem. *)
Lemma calculateGpa_two_decimals_witness :
  Forall (fun c => wf (Course.creditHours c) = true) (objects (map Some scenario1))
  /\ exists r k,
      calculateGpa (map Some scenario1) = Normal r
      /\ 0 <= k <= 400
      /\ gpa r = decimal k 2
      /\ isFinite (gpa r) = true
      /\ isFinite (totalCreditHours r) = true.
Proof.
  assert (H : Forall (fun c => wf (Course.creditHours c) = true)
                (objects (map Some scenario1)))
    by (repeat constructor; vm_compute; reflexivity).
  split; [exact H|]. exact (calculateGpa_two_decimals (map Some scenario1) H).
Defined.

(** The product of two canonical numbers, whatever their size, does not
    exceed a representable bound that the exact product does not exceed. *)
Lemma mul_le_bound_canonical mx ex my ey mb eb c :
  nonneg (S754_finite false mx ex) = true ->
  nonneg (S754_finite false my ey) = true ->
  0 < mb -> fexp prec emax (Zdigits2 mb + eb) <= eb ->
  c <= ex + ey -> c <= emin prec emax ->
  Zpos mx * Zpos my * 2 ^ (ex + ey - c) <= mb * 2 ^ (eb - c) ->
  (nonneg (mul (S754_finite false mx ex) (S754_finite false my ey)) = true
   /\ units (mul (S754_finite false mx ex) (S754_finite false my ey))
      <= mb * 2 ^ (eb - emin prec emax))
  \/ (mul (S754_finite false mx ex) (S754_finite false my ey) = Infinity
      /\ emax - prec < eb).
Proof.
  intros Hx Hy Hmb Hrep Hc Hcm Hle.
  unfold mul, SFmul. cbn [xorb].
  apply binary_round_aux_le with (c := c); try assumption; try lia.
  - pose proof (Zdigits2_mul_ge (Zpos mx) (Zpos my) ltac:(lia) ltac:(lia)) as Hd.
    change (Zpos (mx * my)) with (Zpos mx * Zpos my).
    destruct (nonneg_finite _ _ Hx) as ([Hex _] & _ & Hnx).
    destruct (nonneg_finite _ _ Hy) as ([Hey _] & _ & Hny).
    pose proof (digits2_pos_bounds mx) as Hbx.
    pose proof (digits2_pos_bounds my) as Hby.
    change (Zdigits2 (Zpos mx)) with (Zpos (digits2_pos mx)) in Hd.
    change (Zdigits2 (Zpos my)) with (Zpos (digits2_pos my)) in Hd.
    destruct (Z.eq_dec ex (emin prec emax)) as [Ex|Nx].
    + destruct (Z.eq_dec ey (emin prec emax)) as [Ey|Ny]; [format_lia|].
      specialize (Hny ltac:(lia)).
      assert (52 < Zpos (digits2_pos my)) by (apply pow2_lt_inv; lia).
      format_lia.
    + specialize (Hnx ltac:(lia)).
      assert (52 < Zpos (digits2_pos mx)) by (apply pow2_lt_inv; lia).
      format_lia.
  - right. split; [reflexivity|]. exact Hle.
Qed.

(** A term's gpa of at most 4, times its credit hours: at most four times
    the credit hours. *)
Lemma mul_gpa_le g h :
  nonneg g = true -> units g <= 2 ^ (2 - emin prec emax) ->
  nonneg h = true -> 0 < units h ->
  mul g h = Infinity
  \/ (nonneg (mul g h) = true /\ units (mul g h) <= 4 * units h).
Proof.
  intros Hg Hgu Hh Hpos.
  destruct (nonneg_cases h Hh) as [->|(mh & eh & ->)]; [simpl in Hpos; lia|].
  destruct (nonneg_cases g Hg) as [->|(mg & eg & ->)].
  { right. split; [reflexivity|]. change (units (mul _ _)) with 0. lia. }
  destruct (nonneg_finite _ _ Hg) as ([Heg _] & _).
  destruct (nonneg_finite _ _ Hh) as ([Heh _] & Hmh & _).
  pose proof (digits2_pos_bounds mh) as Hdh.
  assert (Hdh53 : Zpos (digits2_pos mh) <= 53).
  { assert (Zpos (digits2_pos mh) - 1 < 53); [|lia]. apply pow2_lt_inv; lia. }
  unfold units in Hgu.
  set (c := Z.min (emin prec emax) (emin prec emax + eh)).
  assert (Hc : c <= emin prec emax /\ c <= emin prec emax + eh) by (subst c; lia).
  destruct (mul_le_bound_canonical mg eg mh eh (Zpos mh) (eh + 2) c)
    as [[Hn Hu]|[E _]]; try assumption; try lia.
  - simpl Zdigits2. format_lia.
  - (* mg * 2^(eg - emin) <= 2^(2 - emin), times mh * 2^(emin + eh - c) *)
    assert (E1 : eg + eh - c = (eg - emin prec emax) + (emin prec emax + eh - c))
      by lia.
    assert (E2 : eh + 2 - c = (2 - emin prec emax) + (emin prec emax + eh - c))
      by lia.
    rewrite E1, E2, !pow2_split by format_lia.
    assert (0 < 2 ^ (emin prec emax + eh - c)) by (apply pow2_pos; lia).
    assert (0 < 2 ^ (eg - emin prec emax)) by (apply pow2_pos; lia).
    set (A := 2 ^ (eg - emin prec emax)) in *.
    set (B := 2 ^ (2 - emin prec emax)) in *.
    set (C := 2 ^ (emin prec emax + eh - c)) in *.
    replace (Zpos mg * Zpos mh * (A * C)) with (Zpos mh * C * (Zpos mg * A)) by ring.
    replace (Zpos mh * (B * C)) with (Zpos mh * C * B) by ring.
    apply Z.mul_le_mono_nonneg_l; [nia|assumption].
  - right. split; [exact Hn|]. unfold units at 2.
    replace (eh + 2 - emin prec emax) with (2 + (eh - emin prec emax)) in Hu by lia.
    rewrite pow2_split in Hu by lia. change (2 ^ 2) with 4 in Hu. lia.
  - left. exact E.
Qed.

(** Adding a negative zero to the points changes nothing. *)
Lemma points_within_step_negzero P T h :
  points_within P T -> nonneg h = true ->
  points_within (add P (S754_zero true)) (add T h).
Proof.
  intros [->|[HT HP]] Hh.
  { left. destruct (nonneg_cases h Hh) as [->|(m & e & ->)]; reflexivity. }
  destruct (add_units T h HT Hh) as [E|[HT' EuT]]; [left; exact E|].
  right. split; [exact HT'|].
  destruct HP as [->|[->|[HP HPle]]].
  - left. reflexivity.
  - right. left. reflexivity.
  - right. right.
    assert (E : add P (S754_zero true) = P)
      by (destruct (nonneg_cases P HP) as [->|(m & e & ->)]; reflexivity).
    rewrite E. split; [exact HP|].
    assert (units T <= units (add T h)); [|lia].
    rewrite EuT, <- (units_fix T HT) at 1.
    apply round53_mono. pose proof (units_nonneg T). pose proof (units_nonneg h).
    lia.
Qed.

Lemma validSemester_facts s :
  wf (SemesterSummary.gpa s) = true ->
  wf (SemesterSummary.creditHours s) = true ->
  validSemester s = true ->
  nonneg (SemesterSummary.creditHours s) = true
  /\ 0 < units (SemesterSummary.creditHours s)
  /\ (SemesterSummary.gpa s = S754_zero true
      \/ (nonneg (SemesterSummary.gpa s) = true
          /\ units (SemesterSummary.gpa s) <= 2 ^ (2 - emin prec emax))).
Proof.
  unfold validSemester. intros Hwg Hwh Hv.
  apply andb_true_iff in Hv. destruct Hv as [Hv Hgt].
  apply andb_true_iff in Hv. destruct Hv as [Hv Hfh].
  apply andb_true_iff in Hv. destruct Hv as [Hv Hle4].
  apply andb_true_iff in Hv. destruct Hv as [Hfg Hge].
  split; [|split].
  - destruct (SemesterSummary.creditHours s) as [[|]|[|]| |[|] m e];
      try discriminate. exact Hwh.
  - destruct (SemesterSummary.creditHours s) as [[|]|[|]| |[|] m e];
      try discriminate.
    unfold units. pose proof (wf_finite_emin _ _ _ Hwh).
    assert (0 < 2 ^ (e - emin prec emax)) by (apply pow2_pos; lia). nia.
  - destruct units_four as [Hn4 Hu4].
    destruct (SemesterSummary.gpa s) as [[|]|[|]| |[|] m e] eqn:Eg;
      try discriminate.
    + left. reflexivity.
    + right. split; [reflexivity|]. change (units (S754_zero false)) with 0.
      assert (0 < 2 ^ (2 - emin prec emax)) by (apply pow2_pos; format_lia). lia.
    + assert (Hng : nonneg (S754_finite false m e) = true) by exact Hwg.
      right. split; [exact Hng|].
      rewrite (le_units _ _ Hng Hn4), Hu4 in Hle4. apply Z.leb_le in Hle4.
      exact Hle4.
Qed.

Lemma semester_sums_within vs :
  Forall (fun s => wf (SemesterSummary.gpa s) = true
                   /\ wf (SemesterSummary.creditHours s) = true
                   /\ validSemester s = true) vs ->
  forall P T,
    points_within P T ->
    points_within
      (fold_left add
         (map (fun s => mul (SemesterSummary.gpa s) (SemesterSummary.creditHours s))
            vs) P)
      (fold_left add (map SemesterSummary.creditHours vs) T).
Proof.
  induction 1 as [|s vs (Hwg & Hwh & Hv) _ IH]; intros P T Hinv; [exact Hinv|].
  cbn [map fold_left]. apply IH.
  destruct (validSemester_facts s Hwg Hwh Hv) as (Hh & Hpos & Hg).
  destruct Hg as [->|[Hg Hgu]].
  - destruct (nonneg_cases _ Hh) as [E|(m & e & E)]; rewrite E in *;
      [simpl in Hpos; lia|].
    change (mul (S754_zero true) (S754_finite false m e)) with (S754_zero true).
    apply points_within_step_negzero; [exact Hinv|exact Hh].
  - apply points_within_step; try assumption.
    destruct (mul_gpa_le _ _ Hg Hgu Hh Hpos) as [E|H]; auto.
Qed.

(** The cgpa is [null] or a two-decimal number of [0, 4]. *)
Lemma calculateCgpa_decimal (ss : list (option SemesterSummary.t)) :
  Forall (fun s => wf (SemesterSummary.gpa s) = true
                   /\ wf (SemesterSummary.creditHours s) = true) (objects ss) ->
  exists r,
    calculateCgpa ss = Normal r
    /\ ((cgpa r = None /\ totalCgpaCreditHours r = zero)
        \/ (exists k, 0 <= k <= 400
                      /\ cgpa r = Some (decimal k 2)
                      /\ le zero (decimal k 2) = true
                      /\ le (decimal k 2) (of_Z 4) = true
                      /\ gt (totalCgpaCreditHours r) zero = true
                      /\ isFinite (totalCgpaCreditHours r) = true)).
Proof.
  intros Hwf.
  assert (Hrange : forall k, 0 <= k <= 400 ->
                     le zero (decimal k 2) = true
                     /\ le (decimal k 2) (of_Z 4) = true).
  { intros k Hk.
    assert (Hall : forallb (fun n => le zero (decimal (Z.of_nat n) 2)
                                     && le (decimal (Z.of_nat n) 2) (of_Z 4))
                     (seq 0 401) = true) by (vm_compute; reflexivity).
    rewrite forallb_forall in Hall. specialize (Hall (Z.to_nat k)).
    rewrite Z2Nat.id in Hall by lia.
    apply andb_true_iff. apply Hall. apply in_seq. lia. }
  assert (Hvs : Forall (fun s => wf (SemesterSummary.gpa s) = true
                                 /\ wf (SemesterSummary.creditHours s) = true
                                 /\ validSemester s = true)
                  (filter validSemester (objects ss))).
  { apply Forall_forall. intros s Hs. apply filter_In in Hs.
    destruct Hs as [Hin Hv]. rewrite Forall_forall in Hwf.
    destruct (Hwf s Hin). auto. }
  pose proof (semester_sums_within _ Hvs _ _ points_within_start) as Hinv.
  fold (sum (map (fun s => mul (SemesterSummary.gpa s)
                             (SemesterSummary.creditHours s))
               (filter validSemester (objects ss)))) in Hinv.
  fold (semesterWeighted (filter validSemester (objects ss))) in Hinv.
  fold (sum (map SemesterSummary.creditHours (filter validSemester (objects ss))))
    in Hinv.
  fold (semesterCredits (filter validSemester (objects ss))) in Hinv.
  eexists. split; [apply calculateCgpa_eq|]. cbn zeta.
  set (vs := filter validSemester (objects ss)) in *. clearbody vs.
  destruct vs as [|v vs']; [left; split; reflexivity|].
  set (vs := v :: vs') in *. cbv iota.
  destruct (le (semesterCredits vs) zero || negb (isFinite (semesterCredits vs)))
    eqn:Hguard; [left; split; reflexivity|].
  apply orb_false_iff in Hguard. destruct Hguard as [Hle Hf].
  apply negb_false_iff in Hf.
  destruct Hinv as [E|[HT HP]]; [rewrite E in Hf; discriminate Hf|].
  assert (Hpos : 0 < units (semesterCredits vs)).
  { rewrite (le_units _ zero HT eq_refl) in Hle. apply Z.leb_gt in Hle.
    exact Hle. }
  destruct (gpa_value_decimal _ _ HT Hpos HP) as (k & Hk & E).
  right. exists k. cbn [cgpa totalCgpaCreditHours].
  destruct (Hrange k Hk) as [H0 H4].
  split; [exact Hk|]. split; [f_equal; exact E|].
  split; [exact H0|]. split; [exact H4|]. split; [|exact Hf].
  unfold gt, SFltb. unfold le, SFleb in Hle.
  destruct (nonneg_cases _ HT) as [E0|(m & e & E0)]; rewrite E0 in *;
    [discriminate Hle|reflexivity].
Qed.

(** X2: for every list of terms (their gpa and creditHours binary64
    values), calculateCgpa returns either [null] with
    totalCreditHours 0, or a cgpa that is one of the two-decimal numbers
    0.00, 0.01, ..., 4.00, hence within [0, 4], together with a finite
    totalCreditHours > 0. *)
Theorem calculateCgpa_two_decimals (ss : list (option SemesterSummary.t)) :
  Forall (fun s => wf (SemesterSummary.gpa s) = true
                   /\ wf (SemesterSummary.creditHours s) = true) (objects ss) ->
  exists r,
    calculateCgpa ss = Normal r
    /\ ((cgpa r = None /\ totalCgpaCreditHours r = zero)
        \/ (exists k, 0 <= k <= 400
                      /\ cgpa r = Some (decimal k 2)
                      /\ le zero (decimal k 2) = true
                      /\ le (decimal k 2) (of_Z 4) = true
                      /\ gt (totalCgpaCreditHours r) zero = true
                      /\ isFinite (totalCgpaCreditHours r) = true)).
Proof. exact (calculateCgpa_decimal ss). Qed.

(** Scenario 4 through the theorem. *)
Lemma calculateCgpa_two_decimals_witness :
  Forall (fun s => wf (SemesterSummary.gpa s) = true
                   /\ wf (SemesterSummary.creditHours s) = true)
    (objects (map Some scenario4))
  /\ exists r,
      calculateCgpa (map Some scenario4) = Normal r
      /\ ((cgpa r = None /\ totalCgpaCreditHours r = zero)
          \/ (exists k, 0 <= k <= 400
                        /\ cgpa r = Some (decimal k 2)
                        /\ le zero (decimal k 2) = true
                        /\ le (decimal k 2) (of_Z 4) = true
                        /\ gt (totalCgpaCreditHours r) zero = true
                        /\ isFinite (totalCgpaCreditHours r) = true)).
Proof.
  assert (H : Forall (fun s => wf (SemesterSummary.gpa s) = true
                               /\ wf (SemesterSummary.creditHours s) = true)
                (objects (map Some scenario4)))
    by (repeat constructor; vm_compute; reflexivity).
  split; [exact H|]. exact (calculateCgpa_two_decimals (map Some scenario4) H).
Defined.

(** ** Entries that do not count *)

(** X3: an entry that a filter rejects, inserted anywhere, changes nothing
    of the result: for calculateGpa a course whose creditHours is not a
    finite number > 0, or whose grade is neither a key of the grade table nor
    the name of a property inherited from [Object.prototype]; for
    calculateCgpa a term whose gpa is not a finite number of [0, 4] or whose
    creditHours is not a finite number > 0. *)
Theorem rejected_entries_ignored
  (l1 l2 : list (option Course.t)) (c : Course.t)
  (t1 t2 : list (option SemesterSummary.t)) (s : SemesterSummary.t) :
  isFinite (Course.creditHours c) && gt (Course.creditHours c) zero = false
  \/ (pointsFor (Course.grade c) = None
      /\ existsb (String.eqb (Course.grade c)) Object_prototype = false) ->
  validSemester s = false ->
  calculateGpa (l1 ++ Some c :: l2) = calculateGpa (l1 ++ l2)
  /\ calculateCgpa (t1 ++ Some s :: t2) = calculateCgpa (t1 ++ t2).
Proof.
  intros Hc Hs. split; [|apply calculateCgpa_invalid_ignored; exact Hs].
  apply calculateGpa_rejected_ignored.
  destruct Hc as [Hc|[Hp He]].
  - unfold keptCourse. rewrite Hc. reflexivity.
  - apply keptCourse_false; [|exact He].
    unfold validCourse. rewrite Hp. apply andb_false_r.
Qed.

(** A course of grade "Z" and the out-of-range term of scenario 5, put
    between the entries of scenarios 1 and 4. *)
Lemma rejected_entries_ignored_witness :
  calculateGpa ([Some (mkCourse (of_Z 3) "A")]
                ++ Some (mkCourse (of_Z 3) "Z") :: [Some (mkCourse (of_Z 3) "B")])
  = calculateGpa ([Some (mkCourse (of_Z 3) "A")] ++ [Some (mkCourse (of_Z 3) "B")])
  /\ calculateCgpa ([Some (mkSemester (decimal 35 1) (of_Z 15))]
                    ++ Some (mkSemester (of_Z 5) (of_Z 15))
                       :: [Some (mkSemester (decimal 30 1) (of_Z 12))])
     = calculateCgpa ([Some (mkSemester (decimal 35 1) (of_Z 15))]
                      ++ [Some (mkSemester (decimal 30 1) (of_Z 12))]).
Proof.
  apply (rejected_entries_ignored
           [Some (mkCourse (of_Z 3) "A")] [Some (mkCourse (of_Z 3) "B")]
           (mkCourse (of_Z 3) "Z")
           [Some (mkSemester (decimal 35 1) (of_Z 15))]
           [Some (mkSemester (decimal 30 1) (of_Z 12))]
           (mkSemester (of_Z 5) (of_Z 15))).
  - right. split; vm_compute; reflexivity.
  - vm_compute. reflexivity.
Defined.

(** X4: a [null] entry, anywhere in the array, changes nothing of the result
    of either calculator. *)
Theorem null_entries_ignored
  (l1 l2 : list (option Course.t)) (t1 t2 : list (option SemesterSummary.t)) :
  calculateGpa (l1 ++ None :: l2) = calculateGpa (l1 ++ l2)
  /\ calculateCgpa (t1 ++ None :: t2) = calculateCgpa (t1 ++ t2).
Proof.
  split.
  - rewrite !calculateGpa_eq, !objects_app. reflexivity.
  - rewrite !calculateCgpa_eq, !objects_app. reflexivity.
Qed.

Lemma positive_finite x :
  positive_number x = true -> isFinite x = true ->
  exists m e, x = S754_finite false m e.
Proof. destruct x as [|[|]| |[|] m e]; try discriminate; eauto. Qed.

(** Courses of grade F earn no points. *)
Lemma addedPoints_F vs :
  Forall (fun c => Course.grade c = "F" /\ keptCourse c = true) vs ->
  sum (map addedPoints vs) = zero.
Proof.
  unfold sum. induction 1 as [|c vs [Eg Hk] _ IH]; [reflexivity|].
  cbn [map fold_left].
  assert (E : addedPoints c = zero).
  { unfold addedPoints. unfold keptCourse in Hk. rewrite Eg in *.
    change (nullish (Get GRADE_POINTS "F") (VNumber zero)) with (VNumber zero).
    cbv iota.
    destruct (Course.creditHours c) as [[|]|[|]| |[|] m e];
      try discriminate Hk.
    reflexivity. }
  rewrite E. exact IH.
Qed.

(** X5: a non-empty list of courses that all have grade F (and a finite
    creditHours > 0, adding up to a finite total) has gpa 0 with
    totalCreditHours the sum of the credit hours, which is > 0: the result
    differs from that of a list without a valid course, whose total is 0. *)
Theorem calculateGpa_all_F (cs : list Course.t) :
  cs <> [] ->
  Forall (fun c => wf (Course.creditHours c) = true
                   /\ isFinite (Course.creditHours c)
                      && gt (Course.creditHours c) zero = true
                   /\ Course.grade c = "F") cs ->
  isFinite (courseCredits cs) = true ->
  calculateGpa (map Some cs)
  = Normal {| gpa := zero; totalCreditHours := courseCredits cs |}
  /\ gt (courseCredits cs) zero = true.
Proof.
  intros Hne Hall Hfin.
  assert (Hvalid : Forall (fun c => wf (Course.creditHours c) = true
                                    /\ validCourse c = true) cs).
  { eapply Forall_impl; [|exact Hall]. intros c (Hw & Hh & Eg).
    split; [exact Hw|]. unfold validCourse. rewrite Hh, Eg. reflexivity. }
  pose proof (valid_courses_credits_positive cs Hne Hvalid) as Hpos.
  split; [|apply positive_gt_zero; exact Hpos].
  rewrite calculateGpa_eq, objects_map_Some. cbv zeta.
  rewrite filter_all
    by (eapply Forall_impl; [|exact Hvalid]; intros c [_ Hv];
        apply validCourse_kept; exact Hv).
  rewrite (positive_not_le_zero _ Hpos), Hfin. cbn [orb negb].
  rewrite addedPoints_F.
  - destruct (positive_finite _ Hpos Hfin) as (m & e & ->). reflexivity.
  - eapply Forall_impl; [|exact Hall]. intros c (_ & Hh & Eg).
    split; [exact Eg|]. apply validCourse_kept.
    unfold validCourse. rewrite Hh, Eg. reflexivity.
Qed.

(** Two failed courses of 3 and 4 credit hours: gpa 0 over 7 credit hours. *)
Lemma calculateGpa_all_F_witness :
  calculateGpa (map Some [mkCourse (of_Z 3) "F"; mkCourse (of_Z 4) "F"])
  = Normal {| gpa := zero; totalCreditHours := of_Z 7 |}
  /\ gt (courseCredits [mkCourse (of_Z 3) "F"; mkCourse (of_Z 4) "F"]) zero
     = true.
Proof.
  apply (calculateGpa_all_F [mkCourse (of_Z 3) "F"; mkCourse (of_Z 4) "F"]).
  - discriminate.
  - repeat constructor; vm_compute; reflexivity.
  - vm_compute. reflexivity.
Defined.

(** * Exact results

    A result whose exact value is a binary64 number is that number: the
    rounding of a sum, product or quotient is bounded from below as it was
    from above. *)

Lemma binary_round_aux_ge m e l mb eb c :
  0 <= m -> 0 <= fexp prec emax (Zdigits2 m + e) - e ->
  0 < mb -> fexp prec emax (Zdigits2 mb + eb) <= eb ->
  c <= e -> c <= emin prec emax ->
  mb * 2 ^ (eb - c) <= m * 2 ^ (e - c) ->
  binary_round_aux prec emax false m e l = Infinity
  \/ (nonneg (binary_round_aux prec emax false m e l) = true
      /\ mb * 2 ^ (eb - emin prec emax)
         <= units (binary_round_aux prec emax false m e l)).
Proof.
  intros Hm Hn Hmb Hrep Hce Hcm Hv.
  destruct (binary_round_aux_spec false m e l Hm Hn) as (r & s & E & _ & _).
  destruct (shifted_mantissa_bounds m e Hm Hn) as ([Hq0 Hq53] & Hq52).
  cbn zeta in E. rewrite E. clear E.
  set (f := fexp prec emax (Zdigits2 m + e)) in *.
  set (n := f - e) in *. set (p := 2 ^ n) in *. set (q := m / p) in *.
  assert (Hfmin : emin prec emax <= f) by (subst f; unfold fexp; lia).
  assert (Hebmin : emin prec emax <= eb) by (unfold fexp in Hrep; lia).
  assert (Hp : 0 < p) by (apply pow2_pos; lia).
  pose proof (Z.div_mod m p ltac:(lia)) as Hdm. fold q in Hdm.
  pose proof (Z.mod_pos_bound m p Hp) as Hrem.
  set (rem := m mod p) in *.
  set (Pe := 2 ^ (e - c)). set (Pf := 2 ^ (f - c)). set (Pb := 2 ^ (eb - c)).
  fold Pe Pb in Hv.
  assert (HPe : 0 < Pe) by (apply pow2_pos; lia).
  assert (HPfpos : 0 < Pf) by (apply pow2_pos; lia).
  assert (HPbpos : 0 < Pb) by (apply pow2_pos; lia).
  assert (HPf : Pf = Pe * p).
  { subst Pf Pe p n. rewrite <- pow2_split by lia. f_equal. lia. }
  pose proof (Zdigits2_pos_bounds mb Hmb) as Hdb.
  assert (Hdb1 : 1 <= Zdigits2 mb) by (destruct mb; simpl; lia).
  (* the mantissa cut off is not below the bound *)
  assert (Hq : mb * Pb <= q * Pf).
  { destruct (Z.le_gt_cases f eb) as [Hfe|Hfe].
    - assert (HPb : Pb = 2 ^ (eb - f) * Pf).
      { subst Pb Pf. rewrite <- pow2_split by lia. f_equal. lia. }
      assert (0 < 2 ^ (eb - f)) by (apply pow2_pos; lia).
      rewrite HPb in *.
      assert (mb * 2 ^ (eb - f) < q + 1) by nia. nia.
    - assert (Hf : f = Zdigits2 m + e - 53)
        by (subst f; revert Hfe Hebmin; unfold fexp, emin, prec, emax; lia).
      specialize (Hq52 ltac:(lia)).
      assert (Hd : Zdigits2 mb + eb <= f + 52).
      { revert Hrep Hfe. rewrite Hf. unfold fexp, emin, prec, emax. lia. }
      apply Z.le_trans with (2 ^ 52 * Pf);
        [|apply Z.mul_le_mono_nonneg_r; lia].
      apply Z.le_trans with (2 ^ Zdigits2 mb * Pb);
        [apply Z.mul_le_mono_nonneg_r; lia|].
      subst Pb Pf. rewrite <- !pow2_split by lia. apply pow2_le. lia. }
  set (m2 := if r && (s || Z.odd q) then q + 1 else q).
  assert (Hm2q : q <= m2) by (subst m2; destruct (r && (s || Z.odd q)); lia).
  assert (Hm2 : mb * Pb <= m2 * Pf) by nia.
  assert (Hm2b : 0 <= m2 <= 2 ^ 53)
    by (subst m2; destruct (r && (s || Z.odd q)); lia).
  assert (Hm2n : emin prec emax < f -> 2 ^ 52 <= m2)
    by (intros Hf; specialize (Hq52 Hf); lia).
  assert (Hm2' : mb * 2 ^ (eb - emin prec emax) <= m2 * 2 ^ (f - emin prec emax)).
  { assert (Ef : Pf = 2 ^ (f - emin prec emax) * 2 ^ (emin prec emax - c))
      by (subst Pf; rewrite <- pow2_split by lia; f_equal; lia).
    assert (Eb : Pb = 2 ^ (eb - emin prec emax) * 2 ^ (emin prec emax - c))
      by (subst Pb; rewrite <- pow2_split by lia; f_equal; lia).
    assert (0 < 2 ^ (emin prec emax - c)) by (apply pow2_pos; lia).
    rewrite Ef, Eb in Hm2. nia. }
  destruct (finish_spec false m2 f Hfmin Hm2b Hm2n)
    as [[E0 _]|(m3 & e3 & Hpos & Hval & Hcan & Hfe & ->)].
  { exfalso. rewrite E0 in Hm2. nia. }
  destruct (Z.leb_spec e3 (emax - prec)) as [Hle|Hgt]; [right|left; reflexivity].
  split.
  - simpl. unfold bounded. rewrite Hcan. apply Z.leb_le in Hle. rewrite Hle.
    reflexivity.
  - unfold units. rewrite Hval. exact Hm2'.
Qed.

(** A rounding whose exact value is a binary64 number in range. *)
Lemma binary_round_aux_exact m e mb eb c :
  0 <= m -> 0 <= fexp prec emax (Zdigits2 m + e) - e ->
  0 < mb -> fexp prec emax (Zdigits2 mb + eb) <= eb -> eb <= emax - prec ->
  c <= e -> c <= emin prec emax ->
  m * 2 ^ (e - c) = mb * 2 ^ (eb - c) ->
  nonneg (binary_round_aux prec emax false m e loc_Exact) = true
  /\ units (binary_round_aux prec emax false m e loc_Exact)
     = mb * 2 ^ (eb - emin prec emax).
Proof.
  intros Hm Hn Hmb Hrep Hmax Hce Hcm Hv.
  destruct (binary_round_aux_le m e loc_Exact mb eb c)
    as [[Hnn Hle]|[_ Habs]]; try assumption; try lia.
  { right. split; [reflexivity|lia]. }
  destruct (binary_round_aux_ge m e loc_Exact mb eb c)
    as [E|[_ Hge]]; try assumption; try lia.
  { rewrite E in Hnn. discriminate Hnn. }
  split; [exact Hnn|lia].
Qed.

(** Two canonical numbers of the same value are equal. *)
Lemma nonneg_units_inj x y :
  nonneg x = true -> nonneg y = true -> units x = units y -> x = y.
Proof.
  intros Hx Hy E.
  destruct (nonneg_cases x Hx) as [->|(m1 & e1 & ->)];
  destruct (nonneg_cases y Hy) as [->|(m2 & e2 & ->)].
  - reflexivity.
  - exfalso. unfold units in E. destruct (nonneg_finite _ _ Hy) as ([? _] & _).
    assert (0 < 2 ^ (e2 - emin prec emax)) by (apply pow2_pos; lia). nia.
  - exfalso. unfold units in E. destruct (nonneg_finite _ _ Hx) as ([? _] & _).
    assert (0 < 2 ^ (e1 - emin prec emax)) by (apply pow2_pos; lia). nia.
  - unfold units in E.
    destruct (Z.lt_trichotomy e1 e2) as [H|[H|H]].
    + pose proof (units_lt_of_exponent _ _ _ _ Hx Hy H). lia.
    + subst e2. destruct (nonneg_finite _ _ Hx) as ([? _] & _).
      assert (0 < 2 ^ (e1 - emin prec emax)) by (apply pow2_pos; lia).
      assert (Zpos m1 = Zpos m2) by nia. congruence.
    + pose proof (units_lt_of_exponent _ _ _ _ Hy Hx H). lia.
Qed.

Lemma binary_round_exact (m : positive) (e : Z) mb eb :
  emin prec emax <= e ->
  0 < mb -> fexp prec emax (Zdigits2 mb + eb) <= eb -> eb <= emax - prec ->
  Zpos m * 2 ^ (e - emin prec emax) = mb * 2 ^ (eb - emin prec emax) ->
  nonneg (binary_round prec emax false m e) = true
  /\ units (binary_round prec emax false m e) = mb * 2 ^ (eb - emin prec emax).
Proof.
  intros He Hmb Hrep Hmax Hv. unfold binary_round.
  set (f0 := fexp prec emax (Zpos (digits2_pos m) + e)).
  assert (Hf0 : emin prec emax <= f0) by (subst f0; unfold fexp; lia).
  destruct (shl_align_spec m e f0) as (m' & -> & Em').
  set (e' := Z.min e f0) in *.
  assert (He' : emin prec emax <= e' /\ e' <= e /\ e' <= f0) by (subst e'; lia).
  assert (Hd' : Zdigits2 (Zpos m') = Zdigits2 (Zpos m) + (e - e'))
    by (rewrite Em'; apply Zdigits2_shift; lia).
  assert (Ef : fexp prec emax (Zdigits2 (Zpos m') + e') = f0)
    by (rewrite Hd'; subst f0; simpl Zdigits2; f_equal; lia).
  apply binary_round_aux_exact with (c := emin prec emax);
    try assumption; try lia.
  rewrite <- Hv, Em', <- Z.mul_assoc, <- pow2_split by lia.
  do 2 f_equal. lia.
Qed.

(** Whole numbers below 2^53 are binary64 numbers. *)
Lemma of_Z_exact n :
  0 < n < 2 ^ 53 ->
  nonneg (of_Z n) = true /\ units (of_Z n) = n * 2 ^ (0 - emin prec emax).
Proof.
  intros Hn. unfold of_Z, binary_normalize.
  destruct n as [|p|p]; try lia.
  apply binary_round_exact; try reflexivity;
    try (unfold emin, emax, prec; lia).
  pose proof (Zdigits2_pos_bounds (Zpos p) ltac:(lia)) as Hd.
  assert (Zdigits2 (Zpos p) - 1 < 53) by (apply pow2_lt_inv; lia).
  unfold fexp, emin, emax, prec. lia.
Qed.

(** A sum whose exact value is a binary64 number in range. *)
Lemma add_exact x y mb eb :
  nonneg x = true -> nonneg y = true ->
  0 < mb -> fexp prec emax (Zdigits2 mb + eb) <= eb -> eb <= emax - prec ->
  units x + units y = mb * 2 ^ (eb - emin prec emax) ->
  nonneg (add x y) = true /\ units (add x y) = units x + units y.
Proof.
  intros Hx Hy Hmb Hrep Hmax Hv.
  destruct x as [[|]| | |[|] mx ex]; try discriminate;
  destruct y as [[|]| | |[|] my ey]; try discriminate.
  - split; reflexivity.
  - split; [exact Hy|reflexivity].
  - split; [exact Hx|].
    change (add (S754_finite false mx ex) (S754_zero false))
      with (S754_finite false mx ex).
    change (units (S754_zero false)) with 0. lia.
  - destruct (nonneg_finite _ _ Hx) as ([Hex _] & _).
    destruct (nonneg_finite _ _ Hy) as ([Hey _] & _).
    rewrite Hv. revert Hv.
    unfold add, SFadd. cbv zeta. unfold cond_Zopp.
    destruct (shl_align_spec mx ex (Z.min ex ey)) as (mx' & Ex & Emx).
    destruct (shl_align_spec my ey (Z.min ex ey)) as (my' & Ey & Emy).
    rewrite Ex, Ey. cbn [fst].
    change (Zpos mx' + Zpos my') with (Zpos (mx' + my')).
    unfold binary_normalize. intros Hv.
    apply binary_round_exact; try assumption; try lia.
    rewrite <- Hv, Pos2Z.inj_add, Emx, Emy.
    replace (Z.min ex (Z.min ex ey)) with (Z.min ex ey) by lia.
    replace (Z.min ey (Z.min ex ey)) with (Z.min ex ey) by lia.
    unfold units.
    rewrite Z.mul_add_distr_r, <- !Z.mul_assoc, <- !pow2_split by lia.
    do 2 f_equal; f_equal; lia.
Qed.

(** A product whose exact value is a binary64 number in range; the values
    of the factors are counted in units of [2^emin], their product in units
    of [2^(2 emin)]. *)
Lemma mul_exact x y mb eb :
  nonneg x = true -> nonneg y = true -> 0 < units x -> 0 < units y ->
  0 < mb -> fexp prec emax (Zdigits2 mb + eb) <= eb -> eb <= emax - prec ->
  units x * units y = mb * 2 ^ (eb - 2 * emin prec emax) ->
  nonneg (mul x y) = true /\ units (mul x y) = mb * 2 ^ (eb - emin prec emax).
Proof.
  intros Hx Hy Hux Huy Hmb Hrep Hmax Hv.
  destruct (nonneg_cases x Hx) as [->|(mx & ex & ->)]; [simpl in Hux; lia|].
  destruct (nonneg_cases y Hy) as [->|(my & ey & ->)]; [simpl in Huy; lia|].
  destruct (nonneg_finite _ _ Hx) as ([Hex _] & _ & Hnx).
  destruct (nonneg_finite _ _ Hy) as ([Hey _] & _ & Hny).
  unfold units in Hv. unfold mul, SFmul. cbn [xorb].
  change (Zpos (mx * my)) with (Zpos mx * Zpos my).
  apply binary_round_aux_exact with (c := 2 * emin prec emax);
    try assumption; try lia; try (unfold emin, emax, prec; lia).
  - pose proof (Zdigits2_mul_ge (Zpos mx) (Zpos my) ltac:(lia) ltac:(lia)) as Hd.
    pose proof (digits2_pos_bounds mx) as Hbx.
    pose proof (digits2_pos_bounds my) as Hby.
    change (Zdigits2 (Zpos mx)) with (Zpos (digits2_pos mx)) in Hd.
    change (Zdigits2 (Zpos my)) with (Zpos (digits2_pos my)) in Hd.
    destruct (Z.eq_dec ex (emin prec emax)) as [Ex|Nx].
    + destruct (Z.eq_dec ey (emin prec emax)) as [Ey|Ny]; [format_lia|].
      specialize (Hny ltac:(lia)).
      assert (52 < Zpos (digits2_pos my)) by (apply pow2_lt_inv; lia).
      format_lia.
    + specialize (Hnx ltac:(lia)).
      assert (52 < Zpos (digits2_pos mx)) by (apply pow2_lt_inv; lia).
      format_lia.
  - rewrite <- Hv.
    replace (ex + ey - 2 * emin prec emax)
      with ((ex - emin prec emax) + (ey - emin prec emax)) by lia.
    rewrite pow2_split by lia. ring.
Qed.

(** A quotient whose exact value, [mb * 2^eb], is a binary64 number. *)
Lemma div_exact x y mb eb :
  nonneg x = true -> nonneg y = true -> 0 < units x -> 0 < units y ->
  0 < mb -> fexp prec emax (Zdigits2 mb + eb) <= eb -> eb <= 0 ->
  units x * 2 ^ (0 - eb) = mb * units y ->
  nonneg (div x y) = true /\ units (div x y) = mb * 2 ^ (eb - emin prec emax).
Proof.
  intros Hx Hy Hux Huy Hmb Hrep Heb0 Hv.
  destruct (nonneg_cases x Hx) as [->|(mx & ex & ->)]; [simpl in Hux; lia|].
  destruct (nonneg_cases y Hy) as [->|(my & ey & ->)]; [simpl in Huy; lia|].
  destruct (nonneg_finite _ _ Hx) as ([Hex Hex'] & _).
  destruct (nonneg_finite _ _ Hy) as ([Hey Hey'] & _).
  unfold units in Hv.
  unfold div, SFdiv, SFdiv_core_binary. cbn [xorb]. cbv zeta.
  set (d1 := Zdigits2 (Zpos mx)). set (d2 := Zdigits2 (Zpos my)).
  set (D := d1 + ex - (d2 + ey)).
  set (e' := Z.min (fexp prec emax D) (ex - ey)).
  pose proof (digits2_pos_bounds mx) as Hb1. fold (Zdigits2 (Zpos mx)) in Hb1.
  pose proof (digits2_pos_bounds my) as Hb2. fold (Zdigits2 (Zpos my)) in Hb2.
  fold d1 in Hb1. fold d2 in Hb2.
  assert (Hd1 : 1 <= d1) by (subst d1; simpl; lia).
  assert (Hd2 : 1 <= d2) by (subst d2; simpl; lia).
  pose proof (Zdigits2_pos_bounds mb Hmb) as Hdb.
  assert (Hdb1 : 1 <= Zdigits2 mb) by (destruct mb; simpl; lia).
  assert (Hebmin : emin prec emax <= eb) by (unfold fexp in Hrep; lia).
  (* the quotient has at least D digits above its exponent *)
  assert (HD : D <= Zdigits2 mb + eb).
  { assert (Hlt : 2 ^ (d1 - 1 + (ex - emin prec emax) + (0 - eb))
                  < 2 ^ (Zdigits2 mb + d2 + (ey - emin prec emax))).
    { rewrite !pow2_split by lia.
      assert (0 < 2 ^ (ex - emin prec emax)) by (apply pow2_pos; lia).
      assert (0 < 2 ^ (ey - emin prec emax)) by (apply pow2_pos; lia).
      assert (0 < 2 ^ (0 - eb)) by (apply pow2_pos; lia).
      apply Z.le_lt_trans
        with (Zpos mx * 2 ^ (ex - emin prec emax) * 2 ^ (0 - eb)).
      - apply Z.mul_le_mono_nonneg_r; [lia|].
        apply Z.mul_le_mono_nonneg_r; lia.
      - rewrite Hv.
        apply Z.lt_le_trans
          with (2 ^ Zdigits2 mb * (Zpos my * 2 ^ (ey - emin prec emax))).
        + apply Z.mul_lt_mono_pos_r; lia.
        + rewrite <- Z.mul_assoc. apply Z.mul_le_mono_nonneg_l; [lia|].
          apply Z.mul_le_mono_nonneg_r; lia. }
    apply pow2_lt_inv in Hlt; [|lia]. subst D. lia. }
  assert (He'eb : e' <= eb).
  { subst e'. revert Hrep HD. unfold fexp, emin, emax, prec. lia. }
  assert (Hfe' : e' <= fexp prec emax (Zdigits2 mb + eb)).
  { subst e'. revert HD. unfold fexp, emin, emax, prec. lia. }
  set (s := ex - ey - e').
  assert (Hs : 0 <= s) by (subst s e'; lia).
  assert (Es : s = ex - ey - e') by reflexivity. clearbody s.
  set (m' := match s with
             | 0 => Zpos mx
             | Zpos _ => Z.shiftl (Zpos mx) s
             | Zneg _ => 0
             end).
  assert (Em' : m' = Zpos mx * 2 ^ s).
  { subst m'. destruct s as [|p|p]; try lia.
    apply Z.shiftl_mul_pow2. lia. }
  (* the division leaves no remainder *)
  assert (Hq0 : m' = Zpos my * (mb * 2 ^ (eb - e'))).
  { rewrite Em'.
    assert (HK : 0 < 2 ^ (ey - emin prec emax)) by (apply pow2_pos; lia).
    apply Z.mul_reg_r with (2 ^ (ey - emin prec emax)); [lia|].
    rewrite <- Z.mul_assoc, <- pow2_split by lia.
    replace (s + (ey - emin prec emax))
      with ((ex - emin prec emax) + (0 - eb) + (eb - e')) by lia.
    rewrite (pow2_split (ex - emin prec emax + (0 - eb))) by lia.
    rewrite (pow2_split (ex - emin prec emax)) by lia.
    rewrite !Z.mul_assoc, Hv. ring. }
  pose proof (Z_div_mod m' (Zpos my) ltac:(lia)) as Hdm.
  destruct (Z.div_eucl m' (Zpos my)) as [q r] eqn:Edm.
  destruct Hdm as [Hdm Hr].
  assert (HP : 0 < 2 ^ (eb - e')) by (apply pow2_pos; lia).
  assert (Eq : q = mb * 2 ^ (eb - e') /\ r = 0).
  { rewrite Hq0 in Hdm.
    assert (Hz : Zpos my * (mb * 2 ^ (eb - e') - q) = r) by lia.
    assert (mb * 2 ^ (eb - e') - q = 0) by nia. lia. }
  destruct Eq as [-> ->].
  assert (El : new_location (Zpos my) 0 = loc_Exact).
  { unfold new_location, new_location_even, new_location_odd.
    destruct (Z.even (Zpos my)); reflexivity. }
  rewrite El.
  assert (Hdq : Zdigits2 (mb * 2 ^ (eb - e')) = Zdigits2 mb + (eb - e'))
    by (apply Zdigits2_shift; lia).
  apply binary_round_aux_exact with (c := Z.min e' (emin prec emax));
    try assumption; try lia.
  - rewrite Hdq. replace (Zdigits2 mb + (eb - e') + e')
      with (Zdigits2 mb + eb) by lia. lia.
  - unfold emax, prec. lia.
  - rewrite <- Z.mul_assoc, <- pow2_split by lia. do 2 f_equal. lia.
Qed.

(** ** Sums of whole multiples *)

Lemma fold_add_Z_ge ns :
  Forall (fun n => 0 < n) ns -> forall A, A <= fold_left Z.add ns A.
Proof.
  induction 1 as [|n ns Hn _ IH]; intros A; [cbn; lia|].
  cbn [fold_left]. specialize (IH (A + n)). lia.
Qed.

Lemma representable_below k e :
  0 < k < 2 ^ 53 -> emin prec emax <= e ->
  fexp prec emax (Zdigits2 k + e) <= e.
Proof.
  intros Hk He. pose proof (Zdigits2_pos_bounds k ltac:(lia)) as Hd.
  assert (Zdigits2 k - 1 < 53) by (apply pow2_lt_inv; lia).
  unfold fexp, emin, emax, prec in *. lia.
Qed.

Lemma positive_units x :
  nonneg x = true -> 0 < units x ->
  isFinite x = true /\ gt x zero = true /\ le x zero = false.
Proof.
  intros Hx Hu. destruct (nonneg_cases x Hx) as [->|(m & e & ->)];
    [simpl in Hu; lia|]. repeat split.
Qed.

(** Numbers that are [k * n * 2^e] for whole numbers [n] add up exactly, as
    long as [k] times the sum stays below 2^53. *)
Lemma fold_add_exact k e (xs : list number) (ns : list Z) :
  0 < k -> emin prec emax <= e <= 0 ->
  Forall2 (fun x n => 0 < n /\ nonneg x = true
                      /\ units x = k * n * 2 ^ (e - emin prec emax)) xs ns ->
  forall acc A,
    nonneg acc = true -> 0 <= A ->
    units acc = k * A * 2 ^ (e - emin prec emax) ->
    k * fold_left Z.add ns A < 2 ^ 53 ->
    nonneg (fold_left add xs acc) = true
    /\ units (fold_left add xs acc)
       = k * fold_left Z.add ns A * 2 ^ (e - emin prec emax).
Proof.
  intros Hk He. induction 1 as [|x n xs ns (Hn & Hx & Hux) Hall IH];
    intros acc A Hacc HA Hu Hlt; [split; assumption|].
  cbn [fold_left] in *.
  assert (Hpos : Forall (fun n => 0 < n) ns).
  { clear -Hall. induction Hall as [|? ? ? ? (? & _) _ IH]; constructor; auto. }
  pose proof (fold_add_Z_ge ns Hpos (A + n)) as Hge.
  assert (Hkn : 0 < k * (A + n) < 2 ^ 53) by nia.
  assert (Hrep : fexp prec emax (Zdigits2 (k * (A + n)) + e) <= e)
    by (apply representable_below; lia).
  assert (Hmax : e <= emax - prec) by (unfold emax, prec; lia).
  assert (Hval : units acc + units x
                 = k * (A + n) * 2 ^ (e - emin prec emax))
    by (rewrite Hu, Hux; ring).
  destruct (add_exact acc x (k * (A + n)) e Hacc Hx ltac:(lia) Hrep Hmax Hval)
    as [Hn' Hu'].
  apply IH; [exact Hn'|lia|rewrite Hu'; exact Hval|exact Hlt].
Qed.

(** ** Whole numbers of credit hours *)

Lemma whole_hours_units (hs : list number) (ns : list Z) :
  Forall2 (fun h n => 0 < n /\ h = of_Z n) hs ns ->
  forall A, 0 <= A -> fold_left Z.add ns A < 2 ^ 53 ->
  Forall2 (fun x n => 0 < n /\ nonneg x = true
                      /\ units x = 1 * n * 2 ^ (0 - emin prec emax)) hs ns.
Proof.
  induction 1 as [|h n hs ns (Hn & ->) Hall IH]; intros A HA Hlt;
    [constructor|].
  cbn [fold_left] in Hlt.
  assert (Hpos : Forall (fun n => 0 < n) ns).
  { clear -Hall. induction Hall as [|? ? ? ? (? & _) _ IH]; constructor; auto. }
  pose proof (fold_add_Z_ge ns Hpos (A + n)) as Hge.
  constructor; [|apply (IH (A + n)); lia].
  destruct (of_Z_exact n ltac:(lia)) as [H1 H2].
  split; [exact Hn|]. split; [exact H1|]. rewrite H2. ring.
Qed.

Lemma sum_whole (hs : list number) (ns : list Z) :
  Forall2 (fun h n => 0 < n /\ h = of_Z n) hs ns ->
  fold_left Z.add ns 0 < 2 ^ 53 ->
  sum hs = of_Z (fold_left Z.add ns 0).
Proof.
  intros Hall Hlt.
  destruct Hall as [|h n hs ns (Hn & Eh) Hall]; [reflexivity|].
  assert (Hall' : Forall2 (fun h n => 0 < n /\ h = of_Z n) (h :: hs) (n :: ns))
    by (constructor; auto).
  assert (Hpos : Forall (fun n => 0 < n) ns).
  { clear -Hall. induction Hall as [|? ? ? ? (? & _) _ IH]; constructor; auto. }
  pose proof (fold_add_Z_ge ns Hpos (0 + n)) as Hge.
  destruct (fold_add_exact 1 0 (h :: hs) (n :: ns) ltac:(lia)
              ltac:(unfold emin, emax, prec; lia)
              (whole_hours_units _ _ Hall' 0 ltac:(lia) Hlt) zero 0 eq_refl ltac:(lia)
              eq_refl ltac:(lia)) as [H1 H2].
  cbn [fold_left] in Hlt, Hge.
  destruct (of_Z_exact (fold_left Z.add (n :: ns) 0)
              ltac:(cbn [fold_left]; lia)) as [H3 H4].
  apply nonneg_units_inj; try assumption.
  unfold sum. rewrite H2, H4. ring.
Qed.

Lemma Forall2_map_left {A B C} (f : A -> B) (P : B -> C -> Prop) l l' :
  Forall2 (fun a c => P (f a) c) l l' -> Forall2 P (map f l) l'.
Proof. induction 1; cbn; constructor; auto. Qed.

Lemma Forall2_left {A B} (P : A -> Prop) (Q : A -> B -> Prop) l l' :
  (forall a b, Q a b -> P a) -> Forall2 Q l l' -> Forall P l.
Proof. intros H. induction 1; constructor; eauto. Qed.

(** The grade points are multiples of 1/4, and two-decimal numbers. *)
Lemma grade_points_quarters g p :
  pointsFor g = Some p ->
  roundToTwo p = p
  /\ (p = zero
      \/ exists k, 0 < k <= 16 /\ nonneg p = true
                   /\ units p = k * 2 ^ (-2 - emin prec emax)).
Proof.
  intros Hp. apply own_In in Hp. unfold GRADE_POINTS in Hp.
  cbn [map snd In] in Hp.
  destruct Hp as [<-|[<-|[<-|[<-|[<-|[<-|[<-|[<-|[<-|[]]]]]]]]]];
    (split; [vm_compute; reflexivity|]).
  - right. exists 16. repeat split; try lia; vm_compute; reflexivity.
  - right. exists 15. repeat split; try lia; vm_compute; reflexivity.
  - right. exists 14. repeat split; try lia; vm_compute; reflexivity.
  - right. exists 12. repeat split; try lia; vm_compute; reflexivity.
  - right. exists 10. repeat split; try lia; vm_compute; reflexivity.
  - right. exists 8. repeat split; try lia; vm_compute; reflexivity.
  - right. exists 6. repeat split; try lia; vm_compute; reflexivity.
  - right. exists 4. repeat split; try lia; vm_compute; reflexivity.
  - left. vm_compute. reflexivity.
Qed.

Lemma whole_sum_positive ns A :
  ns <> [] -> Forall (fun n => 0 < n) ns -> A < fold_left Z.add ns A.
Proof.
  intros Hne Hall. destruct Hall as [|n ns Hn Hall]; [congruence|].
  cbn [fold_left]. pose proof (fold_add_Z_ge ns Hall (A + n)). lia.
Qed.

Lemma of_Z_positive n :
  0 < n < 2 ^ 53 ->
  isFinite (of_Z n) = true /\ gt (of_Z n) zero = true
  /\ le (of_Z n) zero = false.
Proof.
  intros Hn. destruct (of_Z_exact n Hn) as [H1 H2].
  apply positive_units; [exact H1|]. rewrite H2.
  assert (0 < 2 ^ (0 - emin prec emax))
    by (apply pow2_pos; unfold emin, emax, prec; lia).
  nia.
Qed.

Lemma whole_each_below ns B :
  Forall (fun n => 0 < n) ns ->
  forall A, 0 <= A -> fold_left Z.add ns A < B ->
  Forall (fun n => 0 < n < B) ns.
Proof.
  induction 1 as [|n ns Hn Hall IH]; intros A HA Hlt; [constructor|].
  cbn [fold_left] in Hlt. pose proof (fold_add_Z_ge ns Hall (A + n)).
  constructor; [lia|]. apply (IH (A + n)); lia.
Qed.

Lemma Forall2_right {A B} (P : B -> Prop) (Q : A -> B -> Prop) l l' :
  (forall a b, Q a b -> P b) -> Forall2 Q l l' -> Forall P l'.
Proof. intros H. induction 1; constructor; eauto. Qed.

Lemma Forall2_Forall_right {A B} (P : B -> Prop) (Q : A -> B -> Prop) l l' :
  Forall2 Q l l' -> Forall P l' -> Forall2 (fun a b => Q a b /\ P b) l l'.
Proof.
  induction 1; intros H'; inversion H'; subst; constructor; auto.
Qed.

(** The total of whole numbers of credit hours. *)
Lemma whole_total {A} (hours : A -> number) (xs : list A) (ns : list Z) :
  Forall2 (fun x n => 0 < n /\ hours x = of_Z n) xs ns ->
  fold_left Z.add ns 0 < 2 ^ 53 ->
  sum (map hours xs) = of_Z (fold_left Z.add ns 0)
  /\ Forall (fun x => isFinite (hours x) = true /\ gt (hours x) zero = true) xs
  /\ (xs <> [] -> 0 < fold_left Z.add ns 0).
Proof.
  intros Hall Hlt.
  assert (Hpos : Forall (fun n => 0 < n) ns)
    by (eapply Forall2_right; [|exact Hall]; intros a b [H _]; exact H).
  pose proof (whole_each_below ns _ Hpos 0 ltac:(lia) Hlt) as Hsmall.
  split; [|split].
  - apply sum_whole; [|exact Hlt]. apply Forall2_map_left. exact Hall.
  - eapply Forall2_left;
      [|exact (Forall2_Forall_right _ _ _ _ Hall Hsmall)].
    cbn beta. intros x n [[_ E] Hn]. rewrite E.
    destruct (of_Z_positive n Hn) as (H1 & H2 & _). auto.
  - intros Hne. apply whole_sum_positive; [|exact Hpos].
    destruct Hall; congruence.
Qed.

(** X6: credit hours that are whole numbers add up exactly: when every
    course has a whole number n >= 1 of credit hours and a grade the filter
    accepts, and every term a whole number of credit hours and a gpa of
    [0, 4], the sums staying below 2^53, the totalCreditHours returned by
    calculateGpa and by calculateCgpa is the whole number that is the sum. *)
Theorem whole_credit_hours_add_exactly
  (cs : list Course.t) (ns : list Z)
  (ss : list SemesterSummary.t) (ms : list Z) :
  Forall2 (fun c n => 0 < n /\ Course.creditHours c = of_Z n) cs ns ->
  Forall (fun c => not_undefined (Get GRADE_POINTS (Course.grade c)) = true)
    cs ->
  fold_left Z.add ns 0 < 2 ^ 53 ->
  Forall2 (fun s m => 0 < m /\ SemesterSummary.creditHours s = of_Z m) ss ms ->
  Forall (fun s => isFinite (SemesterSummary.gpa s)
                   && ge (SemesterSummary.gpa s) zero
                   && le (SemesterSummary.gpa s) (of_Z 4) = true) ss ->
  fold_left Z.add ms 0 < 2 ^ 53 ->
  (exists r, calculateGpa (map Some cs) = Normal r
             /\ totalCreditHours r = of_Z (fold_left Z.add ns 0))
  /\ (exists r, calculateCgpa (map Some ss) = Normal r
                /\ totalCgpaCreditHours r = of_Z (fold_left Z.add ms 0)).
Proof.
  intros Hcs Hgs Hn Hss Hps Hm. split.
  - destruct (whole_total Course.creditHours cs ns Hcs Hn) as (Et & Hh & Hpos).
    eexists. split; [apply calculateGpa_eq|]. cbv zeta.
    rewrite objects_map_Some, filter_all.
    2:{ apply Forall_forall. intros c Hc. rewrite Forall_forall in Hh, Hgs.
        unfold keptCourse. destruct (Hh c Hc) as [-> ->].
        rewrite (Hgs c Hc). reflexivity. }
    unfold courseCredits. rewrite Et.
    destruct cs as [|c cs']; [inversion Hcs; subst; reflexivity|].
    specialize (Hpos ltac:(discriminate)).
    destruct (of_Z_positive _ (conj Hpos Hn)) as (H1 & _ & H3).
    rewrite H1, H3. reflexivity.
  - destruct (whole_total SemesterSummary.creditHours ss ms Hss Hm)
      as (Et & Hh & Hpos).
    eexists. split; [apply calculateCgpa_eq|]. cbv zeta.
    rewrite objects_map_Some, filter_all.
    2:{ apply Forall_forall. intros s Hs. rewrite Forall_forall in Hh, Hps.
        unfold validSemester. destruct (Hh s Hs) as [-> ->].
        rewrite (Hps s Hs). reflexivity. }
    unfold semesterCredits. rewrite Et.
    destruct ss as [|s ss']; [inversion Hss; subst; reflexivity|].
    specialize (Hpos ltac:(discriminate)).
    destruct (of_Z_positive _ (conj Hpos Hm)) as (H1 & _ & H3).
    rewrite H1, H3. reflexivity.
Qed.

(** Scenarios 1 and 4: 3 + 3 = 6 and 15 + 12 = 27 credit hours. *)
Lemma whole_credit_hours_add_exactly_witness :
  (exists r, calculateGpa (map Some scenario1) = Normal r
             /\ totalCreditHours r = of_Z (fold_left Z.add [3; 3] 0))
  /\ (exists r, calculateCgpa (map Some scenario4) = Normal r
                /\ totalCgpaCreditHours r = of_Z (fold_left Z.add [15; 12] 0)).
Proof.
  apply (whole_credit_hours_add_exactly scenario1 [3; 3] scenario4 [15; 12]).
  - repeat constructor; lia.
  - repeat constructor.
  - vm_compute. reflexivity.
  - repeat constructor; lia.
  - repeat constructor.
  - vm_compute. reflexivity.
Defined.

(** The points of courses that share a grade. *)
Lemma uniform_points g p (cs : list Course.t) (ns : list Z) :
  pointsFor g = Some p ->
  Forall2 (fun c n => 0 < n /\ Course.creditHours c = of_Z n
                      /\ Course.grade c = g) cs ns ->
  map addedPoints cs = map (fun n => mul (of_Z n) p) ns.
Proof.
  intros Hp. induction 1 as [|c n cs ns (Hn & Eh & Eg) _ IH]; [reflexivity|].
  cbn [map]. rewrite IH. f_equal.
  unfold addedPoints, Get. unfold pointsFor in Hp. rewrite Eg, Hp, Eh.
  reflexivity.
Qed.

(** X7: courses that all have the same grade of the table, each with a
    whole number n >= 1 of credit hours, fewer than 2^48 in all, have
    exactly the grade points of that grade as gpa (4 for A, 3.75 for A-,
    ...), and the whole sum as totalCreditHours: no rounding error shows. *)
Theorem calculateGpa_uniform_grade (g : string) (p : number)
  (cs : list Course.t) (ns : list Z) :
  pointsFor g = Some p ->
  cs <> [] ->
  Forall2 (fun c n => 0 < n /\ Course.creditHours c = of_Z n
                      /\ Course.grade c = g) cs ns ->
  fold_left Z.add ns 0 < 2 ^ 48 ->
  calculateGpa (map Some cs)
  = Normal {| gpa := p; totalCreditHours := of_Z (fold_left Z.add ns 0) |}.
Proof.
  intros Hp Hne Hall Hlt.
  assert (Hlt53 : fold_left Z.add ns 0 < 2 ^ 53) by lia.
  assert (Hhours : Forall2 (fun c n => 0 < n /\ Course.creditHours c = of_Z n)
                     cs ns).
  { clear -Hall. induction Hall as [|? ? ? ? (? & ? & _) _ IH];
      constructor; auto. }
  destruct (whole_total Course.creditHours cs ns Hhours Hlt53)
    as (Et & Hh & Hpos).
  specialize (Hpos Hne).
  assert (Hposn : Forall (fun n => 0 < n) ns)
    by (eapply Forall2_right; [|exact Hhours]; intros a b [H _]; exact H).
  pose proof (whole_each_below ns _ Hposn 0 ltac:(lia) Hlt) as Hsmall.
  set (N := fold_left Z.add ns 0) in *.
  destruct (of_Z_exact N ltac:(lia)) as [HTn HTu].
  destruct (of_Z_positive N ltac:(lia)) as (HTf & _ & HTle).
  rewrite calculateGpa_eq, objects_map_Some. cbv zeta.
  rewrite filter_all.
  2:{ apply Forall_forall. intros c Hc. rewrite Forall_forall in Hh.
      unfold keptCourse. destruct (Hh c Hc) as [-> ->].
      assert (Eg : Course.grade c = g).
      { clear -Hall Hc. induction Hall as [|? ? ? ? (_ & _ & ?) _ IH];
          [inversion Hc|]. destruct Hc as [<-|Hc]; auto. }
      unfold Get. unfold pointsFor in Hp. rewrite Eg, Hp. reflexivity. }
  unfold courseCredits. rewrite Et, HTle, HTf. cbn [orb negb].
  rewrite (uniform_points g p cs ns Hp Hall).
  destruct (grade_points_quarters g p Hp) as [Hround [->|(k & Hk & Hpn & Hpu)]].
  - (* grade F *)
    assert (E0 : sum (map (fun n => mul (of_Z n) zero) ns) = zero).
    { unfold sum. clear -Hsmall. induction Hsmall as [|n ns Hn _ IH];
        [reflexivity|]. cbn [map fold_left].
      destruct (of_Z_exact n ltac:(lia)) as [H1 H2].
      destruct (nonneg_cases _ H1) as [E|(m & e & E)]; rewrite E in *.
      - exfalso. cbn in H2.
        assert (0 < 2 ^ (0 - emin prec emax))
          by (apply pow2_pos; unfold emin, emax, prec; lia). nia.
      - exact IH. }
    rewrite E0.
    destruct (nonneg_cases _ HTn) as [E|(m & e & E)]; rewrite E in *;
      [discriminate HTle|].
    reflexivity.
  - (* the points are k/4 with k > 0 *)
    assert (Hterms : Forall2 (fun x n => 0 < n /\ nonneg x = true
                        /\ units x = k * n * 2 ^ (-2 - emin prec emax))
                       (map (fun n => mul (of_Z n) p) ns) ns).
    { clear -Hsmall Hk Hpn Hpu. induction Hsmall as [|n ns Hn _ IH];
        [constructor|]. cbn [map]. constructor; [|exact IH].
      destruct (of_Z_exact n ltac:(lia)) as [H1 H2].
      assert (0 < 2 ^ (0 - emin prec emax))
        by (apply pow2_pos; unfold emin, emax, prec; lia).
      assert (0 < 2 ^ (-2 - emin prec emax))
        by (apply pow2_pos; unfold emin, emax, prec; lia).
      destruct (mul_exact (of_Z n) p (n * k) (-2)) as [H3 H4];
        try assumption; try nia.
      - apply representable_below; [nia|unfold emin, emax, prec; lia].
      - unfold emax, prec. lia.
      - rewrite H2, Hpu.
        replace (-2 - 2 * emin prec emax)
          with ((0 - emin prec emax) + (-2 - emin prec emax)) by lia.
        rewrite pow2_split by (unfold emin, emax, prec; lia). ring.
      - split; [lia|]. split; [exact H3|]. rewrite H4. ring. }
    destruct (fold_add_exact k (-2) _ ns ltac:(lia)
                ltac:(unfold emin, emax, prec; lia) Hterms zero 0 eq_refl
                ltac:(lia) ltac:(cbn; lia) ltac:(fold N; nia)) as [HPn HPu].
    fold N in HPu. fold (sum (map (fun n => mul (of_Z n) p) ns)) in HPn, HPu.
    set (P := sum (map (fun n => mul (of_Z n) p) ns)) in *.
    assert (H0 : 0 < 2 ^ (0 - emin prec emax))
      by (apply pow2_pos; unfold emin, emax, prec; lia).
    assert (H2 : 0 < 2 ^ (-2 - emin prec emax))
      by (apply pow2_pos; unfold emin, emax, prec; lia).
    assert (E4 : 2 ^ (0 - emin prec emax) = 2 ^ (-2 - emin prec emax) * 4).
    { replace (0 - emin prec emax) with ((-2 - emin prec emax) + 2) by lia.
      rewrite pow2_split by (unfold emin, emax, prec; lia). reflexivity. }
    assert (Hrep : fexp prec emax (Zdigits2 k + -2) <= -2)
      by (apply representable_below; [lia|unfold emin, emax, prec; lia]).
    assert (Hval : units P * 2 ^ (0 - -2) = k * units (of_Z N))
      by (rewrite HPu, HTu, E4; change (2 ^ (0 - -2)) with 4; ring).
    destruct (div_exact P (of_Z N) k (-2) HPn HTn ltac:(nia) ltac:(nia)
                ltac:(lia) Hrep ltac:(lia) Hval) as [HDn HDu].
    assert (Ediv : div P (of_Z N) = p)
      by (apply nonneg_units_inj; try assumption; lia).
    rewrite Ediv, Hround.
    destruct (nonneg_cases _ Hpn) as [E|(m & e & E)]; rewrite E;
      reflexivity.
Qed.

(** Three courses of grade A-, of 3, 4 and 2 credit hours: gpa 3.75. *)
Lemma calculateGpa_uniform_grade_witness :
  calculateGpa
    (map Some [mkCourse (of_Z 3) "A-"; mkCourse (of_Z 4) "A-";
               mkCourse (of_Z 2) "A-"])
  = Normal {| gpa := decimal 375 2;
              totalCreditHours := of_Z (fold_left Z.add [3; 4; 2] 0) |}.
Proof.
  apply (calculateGpa_uniform_grade "A-" (decimal 375 2)
           [mkCourse (of_Z 3) "A-"; mkCourse (of_Z 4) "A-";
            mkCourse (of_Z 2) "A-"] [3; 4; 2]).
  - reflexivity.
  - discriminate.
  - repeat constructor; lia.
  - vm_compute. reflexivity.
Defined.

(** * The component *)

(** ** One recalculation *)

Lemma gpa_side_refl a : gpa_side a a.
Proof. unfold gpa_side. intuition. Qed.

Lemma gpa_side_trans a b c : gpa_side a b -> gpa_side b c -> gpa_side a c.
Proof.
  unfold gpa_side.
  intros (E1 & E2 & E3 & E4 & E5 & E6 & H7 & H8)
         (F1 & F2 & F3 & F4 & F5 & F6 & G7 & G8).
  rewrite F1, F2, F3, F4, F5, F6. repeat (split; [assumption|]). auto.
Qed.

Lemma cgpa_side_refl a : cgpa_side a a.
Proof. unfold cgpa_side. intuition. Qed.

Lemma cgpa_side_trans a b c : cgpa_side a b -> cgpa_side b c -> cgpa_side a c.
Proof.
  unfold cgpa_side.
  intros (E1 & E2 & E3 & E4 & E5 & E6 & H7 & H8)
         (F1 & F2 & F3 & F4 & F5 & F6 & G7 & G8).
  rewrite F1, F2, F3, F4, F5, F6. repeat (split; [assumption|]). auto.
Qed.

Lemma gpa_side_set_courses v a : gpa_side a (App.set_courses v a).
Proof. unfold gpa_side. simpl. intuition. Qed.

Lemma cgpa_side_set_semesters v a : cgpa_side a (App.set_semesters v a).
Proof. unfold cgpa_side. simpl. intuition. Qed.

Lemma calculateGpa_returns l : exists r, calculateGpa l = Normal r.
Proof. eexists. apply calculateGpa_eq. Qed.

Lemma calculateCgpa_returns l : exists r, calculateCgpa l = Normal r.
Proof. eexists. apply calculateCgpa_eq. Qed.

Lemma recalculateGpa_spec N a :
  exists a',
    App.recalculateGpa N a = Normal a'
    /\ App.courses a' = App.courses a
    /\ gpa_side a a'
    /\ gpa_shown N a'.
Proof.
  unfold App.recalculateGpa. cbv zeta.
  destruct (calculateGpa_returns
              (map (fun c => Some (App.rawCourse N c)) (App.courses a)))
    as [[g h] Hr].
  rewrite Hr. cbn [bind]. eexists. split; [reflexivity|].
  unfold gpa_shown, gpa_side.
  destruct (gt (App.currentTotalCreditHours
                  (App.set_gpa {| gpa := g; totalCreditHours := h |} a)) zero);
    cbn; intuition (try discriminate; try (apply in_or_app; auto)).
Qed.

Lemma recalculateCgpa_spec N a :
  exists a',
    App.recalculateCgpa N a = Normal a'
    /\ App.semesters a' = App.semesters a
    /\ cgpa_side a a'
    /\ cgpa_shown N a'.
Proof.
  unfold App.recalculateCgpa. cbv zeta.
  destruct (calculateCgpa_returns
              (map (fun s => Some (App.rawSemester N s)) (App.semesters a)))
    as [[g h] Hr].
  rewrite Hr. cbn [bind]. eexists. split; [reflexivity|].
  unfold cgpa_shown, cgpa_side.
  destruct g as [g|]; cbn;
    intuition (try discriminate; try (apply in_or_app; auto)).
Qed.

(** ** A form emits [valueChanges] *)

Lemma emit_recalculateGpa N n a :
  exists a',
    App.emit n (App.recalculateGpa N) a = Normal a'
    /\ App.courses a' = App.courses a
    /\ gpa_side a a'
    /\ ((0 < n)%nat \/ gpa_shown N a -> gpa_shown N a').
Proof.
  revert a. induction n as [|n IH]; intros a.
  - exists a. cbn. split; [reflexivity|]. split; [reflexivity|].
    split; [apply gpa_side_refl|]. intros [H|H]; [inversion H|exact H].
  - cbn [App.emit].
    destruct (recalculateGpa_spec N a) as (a1 & -> & Hc1 & Hs1 & Hg1).
    cbn [bind]. destruct (IH a1) as (a2 & -> & Hc2 & Hs2 & Hg2).
    exists a2. split; [reflexivity|]. split; [congruence|].
    split; [eapply gpa_side_trans; eassumption|]. auto.
Qed.

Lemma emit_recalculateCgpa N n a :
  exists a',
    App.emit n (App.recalculateCgpa N) a = Normal a'
    /\ App.semesters a' = App.semesters a
    /\ cgpa_side a a'
    /\ ((0 < n)%nat \/ cgpa_shown N a -> cgpa_shown N a').
Proof.
  revert a. induction n as [|n IH]; intros a.
  - exists a. cbn. split; [reflexivity|]. split; [reflexivity|].
    split; [apply cgpa_side_refl|]. intros [H|H]; [inversion H|exact H].
  - cbn [App.emit].
    destruct (recalculateCgpa_spec N a) as (a1 & -> & Hc1 & Hs1 & Hg1).
    cbn [bind]. destruct (IH a1) as (a2 & -> & Hc2 & Hs2 & Hg2).
    exists a2. split; [reflexivity|]. split; [congruence|].
    split; [eapply cgpa_side_trans; eassumption|]. auto.
Qed.

Lemma courses_changed_spec N v a :
  exists a',
    App.courses_changed N v a = Normal a'
    /\ App.courses a' = v
    /\ gpa_side a a'
    /\ ((0 < App.gpaFormSubscribers a)%nat -> gpa_shown N a').
Proof.
  unfold App.courses_changed.
  destruct (emit_recalculateGpa N (App.gpaFormSubscribers a)
              (App.set_courses v a)) as (a' & E & Hc & Hs & Hg).
  exists a'. split; [exact E|]. split; [exact Hc|].
  split; [eapply gpa_side_trans; [apply gpa_side_set_courses|exact Hs]|].
  auto.
Qed.

Lemma semesters_changed_spec N v a :
  exists a',
    App.semesters_changed N v a = Normal a'
    /\ App.semesters a' = v
    /\ cgpa_side a a'
    /\ ((0 < App.semestersFormSubscribers a)%nat -> cgpa_shown N a').
Proof.
  unfold App.semesters_changed.
  destruct (emit_recalculateCgpa N (App.semestersFormSubscribers a)
              (App.set_semesters v a)) as (a' & E & Hc & Hs & Hg).
  exists a'. split; [exact E|]. split; [exact Hc|].
  split; [eapply cgpa_side_trans; [apply cgpa_side_set_semesters|exact Hs]|].
  auto.
Qed.

(** The course side changes: what was true on the page stays true. *)
Lemma on_page_gpa_side N a a' :
  on_page N a -> gpa_side a a' -> App.courses a' <> [] -> gpa_shown N a' ->
  on_page N a'.
Proof.
  unfold on_page, gpa_side, cgpa_shown, pulses_end.
  intros (Hc & Hs & Hn1 & Hn2 & Hg & Hcg & Hp1 & Hp2)
         (Es & En1 & En2 & Ec & Et & Ep & Hpulse & Htimers) Hc' Hg'.
  rewrite Es, En1, En2, Ec, Et, Ep. intuition.
Qed.

Lemma on_page_cgpa_side N a a' :
  on_page N a -> cgpa_side a a' -> App.semesters a' <> [] -> cgpa_shown N a' ->
  on_page N a'.
Proof.
  unfold on_page, cgpa_side, gpa_shown, pulses_end.
  intros (Hc & Hs & Hn1 & Hn2 & Hg & Hcg & Hp1 & Hp2)
         (Es & En1 & En2 & Ec & Et & Ep & Hpulse & Htimers) Hc' Hg'.
  rewrite Es, En1, En2, Ec, Et, Ep. intuition.
Qed.

(** ** The rows of a form array *)

Lemma removeAt_length {A} i (l : list A) :
  (i < List.length l)%nat ->
  List.length (FormArray.removeAt i l) = pred (List.length l).
Proof.
  revert i. induction l as [|x l IH]; intros i Hi; [inversion Hi|].
  destruct i as [|i]; [reflexivity|]. cbn [FormArray.removeAt List.length] in *.
  rewrite IH by lia. destruct l; [inversion Hi; lia|reflexivity].
Qed.

Lemma removeAt_beyond {A} i (l : list A) :
  (List.length l <= i)%nat -> FormArray.removeAt i l = l.
Proof.
  revert i. induction l as [|x l IH]; intros i Hi; [destruct i; reflexivity|].
  destruct i as [|i]; [inversion Hi|]. cbn [FormArray.removeAt List.length] in *.
  rewrite IH by lia. reflexivity.
Qed.

Lemma removeAt_nonempty {A} i (l : list A) :
  (1 < List.length l)%nat -> FormArray.removeAt i l <> [].
Proof.
  intros Hl E. apply (f_equal (@List.length A)) in E.
  destruct (Nat.lt_ge_cases i (List.length l)) as [Hi|Hi].
  - rewrite removeAt_length in E by assumption. cbn in E. lia.
  - rewrite removeAt_beyond in E by assumption. cbn in E. lia.
Qed.

Lemma removeAt_In {A} i (l : list A) x y :
  nth_error l i = Some y -> In x l -> x <> y -> In x (FormArray.removeAt i l).
Proof.
  revert i. induction l as [|z l IH]; intros i Hn Hx Hxy; [inversion Hx|].
  destruct i as [|i]; cbn in *.
  - injection Hn as ->. destruct Hx as [->|Hx]; [contradiction|exact Hx].
  - destruct Hx as [->|Hx]; [left; reflexivity|right; eauto].
Qed.

Lemma setValue_nonempty {A} i (v : A) (l : list A) :
  l <> [] -> FormArray.setValue i v l <> [].
Proof. destruct l; [congruence|]. destruct i; discriminate. Qed.

Lemma setValue_Forall {A} (P : A -> Prop) i v (l : list A) :
  P v -> Forall P l -> Forall P (FormArray.setValue i v l).
Proof.
  intros Hv. revert i. induction l as [|x l IH]; intros i Hl; [destruct i; exact Hl|].
  inversion Hl; subst. destruct i; cbn; constructor; auto.
Qed.

Lemma removeAt_Forall {A} (P : A -> Prop) i (l : list A) :
  Forall P l -> Forall P (FormArray.removeAt i l).
Proof.
  revert i. induction l as [|x l IH]; intros i Hl; [destruct i; exact Hl|].
  inversion Hl; subst. destruct i; cbn; [assumption|constructor; auto].
Qed.

Lemma reset_first_spec {A} (v : A) (l : list A) :
  l <> [] -> exists x rest, l = x :: rest
                            /\ FormArray.reset_first v l = Normal (v :: rest).
Proof. destruct l as [|x rest]; [congruence|]. intros _. eauto. Qed.

(** ** The buttons of the course form *)

Lemma addCourse_spec N a :
  on_page N a ->
  exists a',
    App.addCourse N a = Normal a'
    /\ App.courses a' = App.courses a ++ [App.defaultCourse]
    /\ gpa_side a a'
    /\ on_page N a'.
Proof.
  intros Hp. unfold App.addCourse.
  destruct (courses_changed_spec N (App.courses a ++ [App.defaultCourse]) a)
    as (a' & E & Hc & Hs & Hg).
  exists a'. split; [exact E|]. split; [exact Hc|]. split; [exact Hs|].
  apply (on_page_gpa_side N a); try assumption.
  - rewrite Hc. destruct (App.courses a); discriminate.
  - apply Hg. destruct Hp as (_ & _ & -> & _). lia.
Qed.

Lemma removeCourse_spec N index a :
  on_page N a ->
  exists a',
    App.removeCourse N index a = Normal a'
    /\ App.courses a'
       = (if (1 <? List.length (App.courses a))%nat
          then FormArray.removeAt index (App.courses a)
          else [App.defaultCourse])
    /\ gpa_side a a'
    /\ on_page N a'.
Proof.
  intros Hp. unfold App.removeCourse.
  assert (Hne : App.courses a <> []) by apply Hp.
  assert (Hin : exists a1 v,
            (if (1 <? List.length (App.courses a))%nat
             then App.courses_changed N
                    (FormArray.removeAt index (App.courses a)) a
             else v <- FormArray.reset_first App.defaultCourse (App.courses a) ;;
                  App.courses_changed N v a) = Normal a1
            /\ v = (if (1 <? List.length (App.courses a))%nat
                    then FormArray.removeAt index (App.courses a)
                    else [App.defaultCourse])
            /\ App.courses a1 = v /\ v <> [] /\ gpa_side a a1).
  { destruct (1 <? List.length (App.courses a))%nat eqn:Hl.
    - apply Nat.ltb_lt in Hl.
      destruct (courses_changed_spec N
                  (FormArray.removeAt index (App.courses a)) a)
        as (a1 & E & Hc & Hs & _).
      exists a1, (FormArray.removeAt index (App.courses a)).
      split; [exact E|]. split; [reflexivity|]. split; [exact Hc|].
      split; [apply removeAt_nonempty; exact Hl|exact Hs].
    - apply Nat.ltb_ge in Hl.
      destruct (reset_first_spec App.defaultCourse _ Hne)
        as (x & rest & El & ->).
      cbn [bind].
      destruct (courses_changed_spec N (App.defaultCourse :: rest) a)
        as (a1 & E & Hc & Hs & _).
      assert (rest = [])
        by (rewrite El in Hl; destruct rest; [reflexivity|cbn in Hl; lia]).
      subst rest.
      exists a1, [App.defaultCourse].
      split; [exact E|]. split; [reflexivity|]. split; [exact Hc|].
      split; [discriminate|exact Hs]. }
  destruct Hin as (a1 & v & -> & Ev & Hc1 & Hv & Hs1). cbn [bind].
  destruct (recalculateGpa_spec N a1) as (a2 & E2 & Hc2 & Hs2 & Hg2).
  exists a2. split; [exact E2|]. split; [congruence|].
  assert (Hs : gpa_side a a2) by (eapply gpa_side_trans; eassumption).
  split; [exact Hs|].
  apply (on_page_gpa_side N a); try assumption. congruence.
Qed.

Lemma removeCourses_spec N fuel a :
  (List.length (App.courses a) <= S fuel)%nat ->
  App.courses a <> [] ->
  exists a' x,
    App.removeCourses N fuel a = Normal a'
    /\ App.courses a' = [x]
    /\ gpa_side a a'.
Proof.
  revert a. induction fuel as [|n IH]; intros a Hl Hne.
  - cbn [App.removeCourses].
    destruct (App.courses a) as [|x [|y l]] eqn:E; [congruence| |cbn in Hl; lia].
    cbn. exists a, x. split; [reflexivity|]. split; [exact E|].
    apply gpa_side_refl.
  - cbn [App.removeCourses].
    destruct (App.courses a) as [|x [|y l]] eqn:E; [congruence| |].
    + cbn. exists a, x. split; [reflexivity|]. split; [exact E|].
      apply gpa_side_refl.
    + cbn [List.length Nat.ltb Nat.leb FormArray.removeAt].
      destruct (courses_changed_spec N (y :: l) a) as (a1 & -> & Hc & Hs & _).
      cbn [bind].
      destruct (IH a1) as (a2 & z & E2 & Hc2 & Hs2).
      * rewrite Hc. cbn in Hl |- *. lia.
      * rewrite Hc. discriminate.
      * exists a2, z. split; [exact E2|]. split; [exact Hc2|].
        eapply gpa_side_trans; eassumption.
Qed.

Lemma resetCourses_spec N a :
  on_page N a ->
  exists a',
    App.resetCourses N a = Normal a'
    /\ App.courses a' = [App.defaultCourse]
    /\ gpa_side a a'
    /\ on_page N a'.
Proof.
  intros Hp. unfold App.resetCourses.
  assert (Hne : App.courses a <> []) by apply Hp.
  destruct (removeCourses_spec N (List.length (App.courses a)) a
              ltac:(lia) Hne) as (a1 & x & -> & Hc1 & Hs1).
  cbn [bind]. rewrite Hc1. cbn [List.length Nat.eqb FormArray.reset_first bind].
  destruct (courses_changed_spec N [App.defaultCourse] a1)
    as (a2 & -> & Hc2 & Hs2 & _).
  cbn [bind].
  destruct (recalculateGpa_spec N a2) as (a3 & E3 & Hc3 & Hs3 & Hg3).
  exists a3. split; [exact E3|]. split; [congruence|].
  assert (Hs : gpa_side a a3)
    by (eapply gpa_side_trans; [|exact Hs3];
        eapply gpa_side_trans; eassumption).
  split; [exact Hs|].
  apply (on_page_gpa_side N a); try assumption. rewrite Hc3, Hc2. discriminate.
Qed.

Lemma setCourse_spec N index value a :
  on_page N a ->
  exists a',
    App.handle N (App.SetCourse index value) a = Normal a'
    /\ App.courses a'
       = (if (index <? List.length (App.courses a))%nat
          then FormArray.setValue index value (App.courses a)
          else App.courses a)
    /\ gpa_side a a'
    /\ on_page N a'.
Proof.
  intros Hp. cbn [App.handle].
  destruct (index <? List.length (App.courses a))%nat.
  - destruct (courses_changed_spec N
                (FormArray.setValue index value (App.courses a)) a)
      as (a' & E & Hc & Hs & Hg).
    exists a'. split; [exact E|]. split; [exact Hc|]. split; [exact Hs|].
    apply (on_page_gpa_side N a); try assumption.
    + rewrite Hc. apply setValue_nonempty. apply Hp.
    + apply Hg. destruct Hp as (_ & _ & -> & _). lia.
  - exists a. split; [reflexivity|]. split; [reflexivity|].
    split; [apply gpa_side_refl|exact Hp].
Qed.

(** ** The buttons of the term form *)

Lemma addSemester_spec N a :
  on_page N a ->
  exists a',
    App.addSemester N a = Normal a'
    /\ App.semesters a'
       = App.semesters a
         ++ [App.blankSemester (List.length (App.semesters a) + 1)]
    /\ cgpa_side a a'
    /\ on_page N a'.
Proof.
  intros Hp. unfold App.addSemester. cbv zeta.
  destruct (semesters_changed_spec N
              (App.semesters a
               ++ [App.blankSemester (List.length (App.semesters a) + 1)]) a)
    as (a' & E & Hc & Hs & Hg).
  exists a'. split; [exact E|]. split; [exact Hc|]. split; [exact Hs|].
  apply (on_page_cgpa_side N a); try assumption.
  - rewrite Hc. destruct (App.semesters a); discriminate.
  - apply Hg. destruct Hp as (_ & _ & _ & -> & _). lia.
Qed.

Lemma removeSemester_spec N index a :
  on_page N a ->
  exists a',
    App.removeSemester N index a = Normal a'
    /\ App.semesters a'
       = (if (1 <? List.length (App.semesters a))%nat
          then FormArray.removeAt index (App.semesters a)
          else [App.blankSemester 1])
    /\ cgpa_side a a'
    /\ on_page N a'.
Proof.
  intros Hp. unfold App.removeSemester.
  assert (Hne : App.semesters a <> []) by apply Hp.
  assert (Hin : exists a1 v,
            (if (1 <? List.length (App.semesters a))%nat
             then App.semesters_changed N
                    (FormArray.removeAt index (App.semesters a)) a
             else v <- FormArray.reset_first (App.blankSemester 1)
                         (App.semesters a) ;;
                  App.semesters_changed N v a) = Normal a1
            /\ v = (if (1 <? List.length (App.semesters a))%nat
                    then FormArray.removeAt index (App.semesters a)
                    else [App.blankSemester 1])
            /\ App.semesters a1 = v /\ v <> [] /\ cgpa_side a a1).
  { destruct (1 <? List.length (App.semesters a))%nat eqn:Hl.
    - apply Nat.ltb_lt in Hl.
      destruct (semesters_changed_spec N
                  (FormArray.removeAt index (App.semesters a)) a)
        as (a1 & E & Hc & Hs & _).
      exists a1, (FormArray.removeAt index (App.semesters a)).
      split; [exact E|]. split; [reflexivity|]. split; [exact Hc|].
      split; [apply removeAt_nonempty; exact Hl|exact Hs].
    - apply Nat.ltb_ge in Hl.
      destruct (reset_first_spec (App.blankSemester 1) _ Hne)
        as (x & rest & El & ->).
      cbn [bind].
      destruct (semesters_changed_spec N ((App.blankSemester 1) :: rest) a)
        as (a1 & E & Hc & Hs & _).
      assert (rest = [])
        by (rewrite El in Hl; destruct rest; [reflexivity|cbn in Hl; lia]).
      subst rest.
      exists a1, [App.blankSemester 1].
      split; [exact E|]. split; [reflexivity|]. split; [exact Hc|].
      split; [discriminate|exact Hs]. }
  destruct Hin as (a1 & v & -> & Ev & Hc1 & Hv & Hs1). cbn [bind].
  destruct (recalculateCgpa_spec N a1) as (a2 & E2 & Hc2 & Hs2 & Hg2).
  exists a2. split; [exact E2|]. split; [congruence|].
  assert (Hs : cgpa_side a a2) by (eapply cgpa_side_trans; eassumption).
  split; [exact Hs|].
  apply (on_page_cgpa_side N a); try assumption. congruence.
Qed.

Lemma removeSemesters_spec N fuel a :
  (List.length (App.semesters a) <= S fuel)%nat ->
  App.semesters a <> [] ->
  exists a' x,
    App.removeSemesters N fuel a = Normal a'
    /\ App.semesters a' = [x]
    /\ cgpa_side a a'.
Proof.
  revert a. induction fuel as [|n IH]; intros a Hl Hne.
  - cbn [App.removeSemesters].
    destruct (App.semesters a) as [|x [|y l]] eqn:E; [congruence| |cbn in Hl; lia].
    cbn. exists a, x. split; [reflexivity|]. split; [exact E|].
    apply cgpa_side_refl.
  - cbn [App.removeSemesters].
    destruct (App.semesters a) as [|x [|y l]] eqn:E; [congruence| |].
    + cbn. exists a, x. split; [reflexivity|]. split; [exact E|].
      apply cgpa_side_refl.
    + cbn [List.length Nat.ltb Nat.leb FormArray.removeAt].
      destruct (semesters_changed_spec N (y :: l) a) as (a1 & -> & Hc & Hs & _).
      cbn [bind].
      destruct (IH a1) as (a2 & z & E2 & Hc2 & Hs2).
      * rewrite Hc. cbn in Hl |- *. lia.
      * rewrite Hc. discriminate.
      * exists a2, z. split; [exact E2|]. split; [exact Hc2|].
        eapply cgpa_side_trans; eassumption.
Qed.

Lemma resetSemesters_spec N a :
  on_page N a ->
  exists a',
    App.resetSemesters N a = Normal a'
    /\ App.semesters a' = [App.blankSemester 1]
    /\ cgpa_side a a'
    /\ on_page N a'.
Proof.
  intros Hp. unfold App.resetSemesters.
  assert (Hne : App.semesters a <> []) by apply Hp.
  destruct (removeSemesters_spec N (List.length (App.semesters a)) a
              ltac:(lia) Hne) as (a1 & x & -> & Hc1 & Hs1).
  cbn [bind]. rewrite Hc1. cbn [List.length Nat.eqb FormArray.reset_first bind].
  destruct (semesters_changed_spec N [App.blankSemester 1] a1)
    as (a2 & -> & Hc2 & Hs2 & _).
  cbn [bind].
  destruct (recalculateCgpa_spec N a2) as (a3 & E3 & Hc3 & Hs3 & Hg3).
  exists a3. split; [exact E3|]. split; [congruence|].
  assert (Hs : cgpa_side a a3)
    by (eapply cgpa_side_trans; [|exact Hs3];
        eapply cgpa_side_trans; eassumption).
  split; [exact Hs|].
  apply (on_page_cgpa_side N a); try assumption. rewrite Hc3, Hc2. discriminate.
Qed.

Lemma setSemester_spec N index value a :
  on_page N a ->
  exists a',
    App.handle N (App.SetSemester index value) a = Normal a'
    /\ App.semesters a'
       = (if (index <? List.length (App.semesters a))%nat
          then FormArray.setValue index value (App.semesters a)
          else App.semesters a)
    /\ cgpa_side a a'
    /\ on_page N a'.
Proof.
  intros Hp. cbn [App.handle].
  destruct (index <? List.length (App.semesters a))%nat.
  - destruct (semesters_changed_spec N
                (FormArray.setValue index value (App.semesters a)) a)
      as (a' & E & Hc & Hs & Hg).
    exists a'. split; [exact E|]. split; [exact Hc|]. split; [exact Hs|].
    apply (on_page_cgpa_side N a); try assumption.
    + rewrite Hc. apply setValue_nonempty. apply Hp.
    + apply Hg. destruct Hp as (_ & _ & _ & -> & _). lia.
  - exists a. split; [reflexivity|]. split; [reflexivity|].
    split; [apply cgpa_side_refl|exact Hp].
Qed.

(** ** A pending timer runs *)

Lemma timeout_spec N index a :
  on_page N a ->
  exists a',
    App.handle N (App.Timeout index) a = Normal a'
    /\ App.courses a' = App.courses a
    /\ App.semesters a' = App.semesters a
    /\ on_page N a'.
Proof.
  intros Hp. cbn [App.handle].
  destruct (nth_error (App.timers a) index) as [[d k]|] eqn:En;
    [|exists a; auto].
  eexists. split; [reflexivity|].
  destruct Hp as (Hc & Hs & Hn1 & Hn2 & Hg & Hcg & Hp1 & Hp2).
  unfold on_page, gpa_shown, cgpa_shown, pulses_end in *.
  assert (Hkeep : forall x, In x (App.timers a) -> x <> (d, k) ->
                    In x (FormArray.removeAt index (App.timers a)))
    by (intros x Hx Hne; eapply removeAt_In; eassumption).
  destruct k; cbn; repeat split; try assumption; intros Hpulse;
    try discriminate Hpulse;
    try (apply in_or_app; right; left; reflexivity);
    try (apply in_or_app; left); apply Hkeep; auto; discriminate.
Qed.

(** ** Every event keeps the component as it should be *)

Lemma handle_on_page N e a :
  on_page N a -> exists a', App.handle N e a = Normal a' /\ on_page N a'.
Proof.
  intros Hp. destruct e as [|i| |i v| |i| |i v|i].
  - destruct (addCourse_spec N a Hp) as (a' & E & _ & _ & H). eauto.
  - destruct (removeCourse_spec N i a Hp) as (a' & E & _ & _ & H). eauto.
  - destruct (resetCourses_spec N a Hp) as (a' & E & _ & _ & H). eauto.
  - destruct (setCourse_spec N i v a Hp) as (a' & E & _ & _ & H). eauto.
  - destruct (addSemester_spec N a Hp) as (a' & E & _ & _ & H). eauto.
  - destruct (removeSemester_spec N i a Hp) as (a' & E & _ & _ & H). eauto.
  - destruct (resetSemesters_spec N a Hp) as (a' & E & _ & _ & H). eauto.
  - destruct (setSemester_spec N i v a Hp) as (a' & E & _ & _ & H). eauto.
  - destruct (timeout_spec N i a Hp) as (a' & E & _ & _ & H). eauto.
Qed.

Lemma run_on_page N events a :
  on_page N a -> exists a', App.run N events a = Normal a' /\ on_page N a'.
Proof.
  revert a. induction events as [|e es IH]; intros a Hp;
    [exists a; split; [reflexivity|exact Hp]|].
  cbn [App.run]. destruct (handle_on_page N e a Hp) as (a1 & -> & Hp1).
  cbn [bind]. apply IH. exact Hp1.
Qed.

Lemma started_on_page N :
  exists a, (a <- App.constructor N ;; App.ngOnInit N a) = Normal a
            /\ on_page N a
            /\ App.courses a = [App.defaultCourse]
            /\ App.semesters a = [App.blankSemester 1].
Proof.
  unfold App.constructor, App.addCourse, App.addSemester, App.courses_changed,
    App.semesters_changed. cbn [App.fields App.gpaFormSubscribers App.emit bind
    App.set_courses App.semestersFormSubscribers App.courses App.semesters
    app List.length Nat.add]. cbv zeta.
  cbn [App.fields App.gpaFormSubscribers App.emit bind
    App.set_courses App.semestersFormSubscribers App.courses App.semesters
    App.set_semesters app List.length Nat.add].
  unfold App.ngOnInit.
  match goal with |- context [App.recalculateGpa N ?x] =>
    destruct (recalculateGpa_spec N x) as (a1 & -> & Hc1 & Hs1 & Hg1) end.
  cbn [bind].
  destruct (recalculateCgpa_spec N a1) as (a2 & -> & Hc2 & Hs2 & Hg2).
  exists a2. split; [reflexivity|].
  destruct Hs1 as (E1 & E2 & E3 & E4 & E5 & E6 & H7 & H8).
  destruct Hs2 as (F1 & F2 & F3 & F4 & F5 & F6 & G7 & G8).
  cbn in Hc1, E1, E2, E3, E4, E5, E6, H7.
  assert (Hcs : App.courses a2 = [App.defaultCourse]) by congruence.
  assert (Hss : App.semesters a2 = [App.blankSemester 1]) by congruence.
  split; [|split; assumption].
  unfold on_page. rewrite Hcs, Hss.
  split; [discriminate|]. split; [discriminate|].
  split; [congruence|]. split; [congruence|].
  split. { unfold gpa_shown in *. rewrite F1, F4, F5. exact Hg1. }
  split; [exact Hg2|].
  split.
  - intros H. rewrite F6 in H. apply H7 in H. discriminate H.
  - intros H. apply G7 in H. rewrite E6 in H. discriminate H.
Qed.

Lemma session_on_page N events :
  exists a, App.session N events = Normal a /\ on_page N a.
Proof.
  unfold App.session.
  destruct (started_on_page N) as (a0 & E & Hp & _).
  destruct (App.constructor N) as [c|] eqn:Ec; [|discriminate E].
  cbn [bind] in E |- *. rewrite E. cbn [bind]. apply run_on_page. exact Hp.
Qed.

(** ** Sessions *)

Lemma run_app N es1 es2 a :
  App.run N (es1 ++ es2) a = (a' <- App.run N es1 a ;; App.run N es2 a').
Proof.
  revert a. induction es1 as [|e es1 IH]; intros a; [reflexivity|].
  cbn [app App.run]. destruct (App.handle N e a); [apply IH|reflexivity].
Qed.

Lemma session_snoc N events es :
  App.session N (events ++ es)
  = (a <- App.session N events ;; App.run N es a).
Proof.
  unfold App.session.
  destruct (App.constructor N) as [a0|]; [|reflexivity]. cbn [bind].
  destruct (App.ngOnInit N a0) as [a1|]; [|reflexivity]. cbn [bind].
  apply run_app.
Qed.

Lemma raw_courses N (l : list CourseGroup.t) :
  map (fun c => Some (App.rawCourse N c)) l = map Some (map (App.rawCourse N) l).
Proof. rewrite map_map. reflexivity. Qed.

Lemma raw_semesters N (l : list SemesterGroup.t) :
  map (fun s => Some (App.rawSemester N s)) l
  = map Some (map (App.rawSemester N) l).
Proof. rewrite map_map. reflexivity. Qed.

(** What is shown is determined by the rows. *)
Lemma gpa_shown_same N a b :
  gpa_shown N a -> gpa_shown N b -> App.courses a = App.courses b ->
  App.currentGpa a = App.currentGpa b
  /\ App.currentTotalCreditHours a = App.currentTotalCreditHours b.
Proof.
  unfold gpa_shown. intros Ha Hb E. rewrite E, Hb in Ha.
  injection Ha as -> ->. split; reflexivity.
Qed.

Lemma cgpa_shown_same N a b :
  cgpa_shown N a -> cgpa_shown N b -> App.semesters a = App.semesters b ->
  App.currentCgpa a = App.currentCgpa b
  /\ App.currentTotalCgpaCredits a = App.currentTotalCgpaCredits b.
Proof.
  unfold cgpa_shown. intros Ha Hb E. rewrite E, Hb in Ha.
  injection Ha as -> ->. split; reflexivity.
Qed.

(** ** The numbers of the rows stay valid *)

Lemma or_zero_wf x : wf x = true -> wf (Control.or_zero x) = true.
Proof. destruct x as [s|s| |s m e]; intros H; try reflexivity; exact H. Qed.

Lemma defaultCourse_wf N : course_wf N App.defaultCourse.
Proof. vm_compute. reflexivity. Qed.

Lemma blankSemester_wf N index : semester_wf N (App.blankSemester index).
Proof. split; reflexivity. Qed.

Lemma handle_rows_wf N e a :
  on_page N a -> event_wf N e -> rows_wf N a ->
  exists a', App.handle N e a = Normal a' /\ on_page N a' /\ rows_wf N a'.
Proof.
  intros Hp He [Hc Hs]. unfold rows_wf.
  destruct e as [|i| |i v| |i| |i v|i].
  - destruct (addCourse_spec N a Hp) as (a' & E & Ec & (Es & _) & H).
    exists a'. split; [exact E|]. split; [exact H|].
    rewrite Ec, Es. split; try assumption.
    apply Forall_app. split; [assumption|].
    constructor; [apply defaultCourse_wf|constructor].
  - destruct (removeCourse_spec N i a Hp) as (a' & E & Ec & (Es & _) & H).
    exists a'. split; [exact E|]. split; [exact H|].
    rewrite Ec, Es. split; try assumption.
    destruct (1 <? List.length (App.courses a))%nat.
    + apply removeAt_Forall. assumption.
    + constructor; [apply defaultCourse_wf|constructor].
  - destruct (resetCourses_spec N a Hp) as (a' & E & Ec & (Es & _) & H).
    exists a'. split; [exact E|]. split; [exact H|].
    rewrite Ec, Es. split; try assumption.
    constructor; [apply defaultCourse_wf|constructor].
  - destruct (setCourse_spec N i v a Hp) as (a' & E & Ec & (Es & _) & H).
    exists a'. split; [exact E|]. split; [exact H|].
    rewrite Ec, Es. split; try assumption.
    destruct (i <? List.length (App.courses a))%nat; [|assumption].
    apply setValue_Forall; assumption.
  - destruct (addSemester_spec N a Hp) as (a' & E & Ec & (Es & _) & H).
    exists a'. split; [exact E|]. split; [exact H|].
    rewrite Ec, Es. split; try assumption.
    apply Forall_app. split; [assumption|].
    constructor; [apply blankSemester_wf|constructor].
  - destruct (removeSemester_spec N i a Hp) as (a' & E & Ec & (Es & _) & H).
    exists a'. split; [exact E|]. split; [exact H|].
    rewrite Ec, Es. split; try assumption.
    destruct (1 <? List.length (App.semesters a))%nat.
    + apply removeAt_Forall. assumption.
    + constructor; [apply blankSemester_wf|constructor].
  - destruct (resetSemesters_spec N a Hp) as (a' & E & Ec & (Es & _) & H).
    exists a'. split; [exact E|]. split; [exact H|].
    rewrite Ec, Es. split; try assumption.
    constructor; [apply blankSemester_wf|constructor].
  - destruct (setSemester_spec N i v a Hp) as (a' & E & Ec & (Es & _) & H).
    exists a'. split; [exact E|]. split; [exact H|].
    rewrite Ec, Es. split; try assumption.
    destruct (i <? List.length (App.semesters a))%nat; [|assumption].
    apply setValue_Forall; assumption.
  - destruct (timeout_spec N i a Hp) as (a' & E & Ec & Es & H).
    exists a'. split; [exact E|]. split; [exact H|].
    rewrite Ec, Es. split; assumption.
Qed.

Lemma run_rows_wf N events a :
  on_page N a -> Forall (event_wf N) events -> rows_wf N a ->
  exists a', App.run N events a = Normal a' /\ on_page N a' /\ rows_wf N a'.
Proof.
  revert a. induction events as [|e es IH]; intros a Hp He Hw;
    [exists a; auto|].
  inversion He; subst. cbn [App.run].
  destruct (handle_rows_wf N e a Hp ltac:(assumption) Hw) as (a1 & -> & Hp1 & Hw1).
  cbn [bind]. apply IH; assumption.
Qed.

Lemma session_rows_wf N events :
  Forall (event_wf N) events ->
  exists a, App.session N events = Normal a /\ on_page N a /\ rows_wf N a.
Proof.
  intros He. unfold App.session.
  destruct (started_on_page N) as (a0 & E & Hp & Hc & Hs).
  destruct (App.constructor N) as [c|] eqn:Ec; [|discriminate E].
  cbn [bind] in E |- *. rewrite E. cbn [bind].
  apply run_rows_wf; try assumption.
  unfold rows_wf. rewrite Hc, Hs.
  split; (constructor; [|constructor]);
    [apply defaultCourse_wf|apply blankSemester_wf].
Qed.

(** ** Properties of the component *)

(** X8: whatever the user does after the component is on the page (adding,
    removing and resetting rows, giving rows new values, with timers running
    at any moment), no method of the component throws, and neither form is
    ever left without a row. *)
Theorem App_never_without_rows (N : string -> number) (events : list App.event) :
  exists a,
    App.session N events = Normal a
    /\ App.courses a <> []
    /\ App.semesters a <> [].
Proof.
  destruct (session_on_page N events) as (a & E & Hc & Hs & _).
  exists a. auto.
Qed.

(** X9: after every event, the GPA and total credit hours shown are the
    result of calculateGpa on the current course rows, and the CGPA and total
    shown are the result of calculateCgpa on the current term rows; the
    numbers on the page are never stale. *)
Theorem App_shows_current_results (N : string -> number)
  (events : list App.event) :
  exists a,
    App.session N events = Normal a
    /\ calculateGpa (map (fun c => Some (App.rawCourse N c)) (App.courses a))
       = Normal {| gpa := App.currentGpa a;
                   totalCreditHours := App.currentTotalCreditHours a |}
    /\ calculateCgpa
         (map (fun s => Some (App.rawSemester N s)) (App.semesters a))
       = Normal {| cgpa := App.currentCgpa a;
                   totalCgpaCreditHours := App.currentTotalCgpaCredits a |}.
Proof.
  destruct (session_on_page N events) as (a & E & _ & _ & _ & _ & Hg & Hc & _).
  exists a. auto.
Qed.

(** X10: a pulse flag that is on always has the timer that turns it off
    pending, so that once no timer is pending neither result is shown as
    pulsing. *)
Theorem App_pulses_end (N : string -> number) (events : list App.event) :
  exists a,
    App.session N events = Normal a
    /\ (App.isGpaPulsing a = true -> In (220, App.GpaPulseOff) (App.timers a))
    /\ (App.isCgpaPulsing a = true -> In (220, App.CgpaPulseOff) (App.timers a))
    /\ (App.timers a = [] ->
        App.isGpaPulsing a = false /\ App.isCgpaPulsing a = false).
Proof.
  destruct (session_on_page N events)
    as (a & E & _ & _ & _ & _ & _ & _ & Hg & Hc).
  exists a. split; [exact E|]. split; [exact Hg|]. split; [exact Hc|].
  intros Ht. rewrite Ht in *.
  destruct (App.isGpaPulsing a); [destruct (Hg eq_refl)|].
  destruct (App.isCgpaPulsing a); [destruct (Hc eq_refl)|].
  split; reflexivity.
Qed.

(** X11: when every number the user gives a row is a binary64 value, the GPA
    shown is always one of the two-decimal numbers 0.00, 0.01, ..., 4.00, and
    the CGPA shown is always [null] or one of them. *)
Theorem App_shows_two_decimals (N : string -> number)
  (events : list App.event) :
  Forall (event_wf N) events ->
  exists a,
    App.session N events = Normal a
    /\ (exists k, 0 <= k <= 400 /\ App.currentGpa a = decimal k 2)
    /\ (App.currentCgpa a = None
        \/ exists k, 0 <= k <= 400 /\ App.currentCgpa a = Some (decimal k 2)).
Proof.
  intros He.
  destruct (session_rows_wf N events He)
    as (a & E & (_ & _ & _ & _ & Hg & Hc & _) & Hwc & Hws).
  exists a. split; [exact E|]. unfold gpa_shown, cgpa_shown in *. split.
  - rewrite raw_courses in Hg.
    destruct (calculateGpa_decimal (map Some (map (App.rawCourse N) (App.courses a))))
      as (r & k & Er & Hk & Ek & _).
    { rewrite objects_map_Some. apply Forall_map.
      eapply Forall_impl; [|exact Hwc]. intros c Hcw.
      apply or_zero_wf. exact Hcw. }
    rewrite Er in Hg. injection Hg as ->. exists k.
    split; [exact Hk|exact Ek].
  - rewrite raw_semesters in Hc.
    destruct (calculateCgpa_decimal
                (map Some (map (App.rawSemester N) (App.semesters a))))
      as (r & Er & Hr).
    { rewrite objects_map_Some. apply Forall_map.
      eapply Forall_impl; [|exact Hws]. intros s Hsw. exact Hsw. }
    rewrite Er in Hc. injection Hc as ->.
    destruct Hr as [[En _]|(k & Hk & Ek & _)].
    + left. exact En.
    + right. exists k. split; [exact Hk|exact Ek].
Qed.

(** A session in which the only course is given two credit hours and grade
    B+, and a term is added. *)
Lemma App_shows_two_decimals_witness :
  Forall (event_wf (fun _ => NaN))
    [ App.SetCourse 0 {| CourseGroup.name := Some "Calculus";
                         CourseGroup.creditHours := Control.Num (of_Z 2);
                         CourseGroup.grade := Some "B+" |};
      App.AddSemester; App.Timeout 0 ]
  /\ exists a,
      App.session (fun _ => NaN)
        [ App.SetCourse 0 {| CourseGroup.name := Some "Calculus";
                             CourseGroup.creditHours := Control.Num (of_Z 2);
                             CourseGroup.grade := Some "B+" |};
          App.AddSemester; App.Timeout 0 ] = Normal a
      /\ (exists k, 0 <= k <= 400 /\ App.currentGpa a = decimal k 2)
      /\ (App.currentCgpa a = None
          \/ exists k, 0 <= k <= 400 /\ App.currentCgpa a = Some (decimal k 2)).
Proof.
  assert (H : Forall (event_wf (fun _ => NaN))
                [ App.SetCourse 0 {| CourseGroup.name := Some "Calculus";
                                     CourseGroup.creditHours := Control.Num (of_Z 2);
                                     CourseGroup.grade := Some "B+" |};
                  App.AddSemester; App.Timeout 0 ]).
  { constructor; [vm_compute; reflexivity|].
    constructor; [exact I|]. constructor; [exact I|]. constructor. }
  split; [exact H|]. exact (App_shows_two_decimals _ _ H).
Defined.

(** X12: "Reset" on the course form, at any moment, leaves exactly one row
    with the default values (no name, 3 credit hours, grade A); the GPA shown
    is then 4 and the total credit hours 3; the term form and its result are
    as they were. *)
Theorem resetCourses_one_default_row (N : string -> number)
  (events : list App.event) :
  exists a0 a,
    App.session N events = Normal a0
    /\ App.session N (events ++ [App.ResetCourses]) = Normal a
    /\ App.courses a = [App.defaultCourse]
    /\ App.currentGpa a = of_Z 4
    /\ App.currentTotalCreditHours a = of_Z 3
    /\ App.semesters a = App.semesters a0
    /\ App.currentCgpa a = App.currentCgpa a0
    /\ App.currentTotalCgpaCredits a = App.currentTotalCgpaCredits a0.
Proof.
  destruct (session_on_page N events) as (a0 & E0 & Hp0).
  destruct (resetCourses_spec N a0 Hp0)
    as (a & E & Ec & (Es & _ & _ & Eg & Et & _) & Hp).
  exists a0, a. split; [exact E0|].
  split; [rewrite session_snoc, E0; cbn [bind App.run App.handle]; rewrite E;
          reflexivity|].
  split; [exact Ec|].
  destruct Hp as (_ & _ & _ & _ & Hg & _). unfold gpa_shown in Hg.
  rewrite Ec in Hg.
  assert (Ev : calculateGpa
                 (map (fun c => Some (App.rawCourse N c)) [App.defaultCourse])
               = Normal {| gpa := of_Z 4; totalCreditHours := of_Z 3 |})
    by (vm_compute; reflexivity).
  rewrite Ev in Hg. injection Hg as <- <-. auto.
Qed.

(** X13: "Reset" on the term form, at any moment, leaves exactly one row,
    named "Semester 1", with empty GPA and credit hours; no CGPA is shown
    ([null]) and the total is 0; the course form and its result are as they
    were. *)
Theorem resetSemesters_one_blank_row (N : string -> number)
  (events : list App.event) :
  exists a0 a,
    App.session N events = Normal a0
    /\ App.session N (events ++ [App.ResetSemesters]) = Normal a
    /\ App.semesters a
       = [ {| SemesterGroup.name := Some "Semester 1";
              SemesterGroup.gpa := Control.Null;
              SemesterGroup.creditHours := Control.Null |} ]
    /\ App.currentCgpa a = None
    /\ App.currentTotalCgpaCredits a = zero
    /\ App.courses a = App.courses a0
    /\ App.currentGpa a = App.currentGpa a0
    /\ App.currentTotalCreditHours a = App.currentTotalCreditHours a0.
Proof.
  destruct (session_on_page N events) as (a0 & E0 & Hp0).
  destruct (resetSemesters_spec N a0 Hp0)
    as (a & E & Ec & (Es & _ & _ & Eg & Et & _) & Hp).
  exists a0, a. split; [exact E0|].
  split; [rewrite session_snoc, E0; cbn [bind App.run App.handle]; rewrite E;
          reflexivity|].
  split; [exact Ec|].
  destruct Hp as (_ & _ & _ & _ & _ & Hg & _). unfold cgpa_shown in Hg.
  rewrite Ec in Hg.
  assert (Ev : calculateCgpa
                 (map (fun s => Some (App.rawSemester N s)) [App.blankSemester 1])
               = Normal {| cgpa := None; totalCgpaCreditHours := zero |})
    by (vm_compute; reflexivity).
  rewrite Ev in Hg. injection Hg as <- <-. auto.
Qed.

Lemma removeAt_last {A} (l : list A) x :
  FormArray.removeAt (List.length l) (l ++ [x]) = l.
Proof. induction l as [|y l IH]; [reflexivity|]. cbn. rewrite IH. reflexivity. Qed.

(** X14: adding a course row and then removing it again, at any moment,
    brings back the rows there were, and with them the GPA and total credit
    hours shown. *)
Theorem addCourse_removeCourse_round_trip (N : string -> number)
  (events : list App.event) :
  exists a0 a,
    App.session N events = Normal a0
    /\ App.session N
         (events ++ [App.AddCourse;
                     App.RemoveCourse (List.length (App.courses a0))])
       = Normal a
    /\ App.courses a = App.courses a0
    /\ App.currentGpa a = App.currentGpa a0
    /\ App.currentTotalCreditHours a = App.currentTotalCreditHours a0.
Proof.
  destruct (session_on_page N events) as (a0 & E0 & Hp0).
  destruct (addCourse_spec N a0 Hp0) as (a1 & E1 & Ec1 & _ & Hp1).
  destruct (removeCourse_spec N (List.length (App.courses a0)) a1 Hp1)
    as (a & E & Ec & _ & Hp).
  exists a0, a. split; [exact E0|].
  split; [rewrite session_snoc, E0; cbn [bind App.run App.handle];
          rewrite E1; cbn [bind]; rewrite E; reflexivity|].
  assert (Hc : App.courses a = App.courses a0).
  { rewrite Ec, Ec1, removeAt_last.
    assert (Hne : App.courses a0 <> []) by apply Hp0.
    assert (Hl : (1 <? List.length (App.courses a0 ++ [App.defaultCourse]))%nat
                 = true).
    { apply Nat.ltb_lt. rewrite length_app.
      destruct (App.courses a0); [congruence|]. cbn [List.length]. lia. }
    rewrite Hl. reflexivity. }
  split; [exact Hc|].
  apply (gpa_shown_same N); [apply Hp|apply Hp0|exact Hc].
Qed.

(** X15: adding a term row never changes the CGPA and the total shown: the
    new row, named "Semester n" for the n-th row, has empty GPA and credit
    hours and does not count. *)
Theorem addSemester_keeps_cgpa (N : string -> number)
  (events : list App.event) :
  exists a0 a,
    App.session N events = Normal a0
    /\ App.session N (events ++ [App.AddSemester]) = Normal a
    /\ App.semesters a
       = App.semesters a0
         ++ [App.blankSemester (List.length (App.semesters a0) + 1)]
    /\ App.currentCgpa a = App.currentCgpa a0
    /\ App.currentTotalCgpaCredits a = App.currentTotalCgpaCredits a0.
Proof.
  destruct (session_on_page N events) as (a0 & E0 & Hp0).
  destruct (addSemester_spec N a0 Hp0) as (a & E & Ec & _ & Hp).
  exists a0, a. split; [exact E0|].
  split; [rewrite session_snoc, E0; cbn [bind App.run App.handle]; rewrite E;
          reflexivity|].
  split; [exact Ec|].
  destruct Hp as (_ & _ & _ & _ & _ & Hg & _).
  destruct Hp0 as (_ & _ & _ & _ & _ & Hg0 & _).
  unfold cgpa_shown in *. rewrite Ec, map_app in Hg. cbn [map] in Hg.
  rewrite calculateCgpa_invalid_ignored, app_nil_r, Hg0 in Hg by reflexivity.
  injection Hg as -> ->. split; reflexivity.
Qed.

(** ** Empty controls *)

Lemma or_zero_positive x :
  isFinite (Control.or_zero x) && gt (Control.or_zero x) zero
  = isFinite x && gt x zero.
Proof. destruct x as [[|]|[|]| |[|] m e]; reflexivity. Qed.

(** Terms of GPA 0 weigh nothing. *)
Lemma semesterWeighted_zero vs :
  Forall (fun s => SemesterSummary.gpa s = zero /\ validSemester s = true) vs ->
  semesterWeighted vs = zero.
Proof.
  unfold semesterWeighted, sum.
  induction 1 as [|s vs [Eg Hv] _ IH]; [reflexivity|].
  cbn [map fold_left]. rewrite Eg.
  unfold validSemester in Hv. rewrite Eg in Hv.
  destruct (SemesterSummary.creditHours s) as [[|]|[|]| |[|] m e];
    try discriminate Hv.
  exact IH.
Qed.

(** X16: a term row whose GPA control is empty is read as GPA 0, not left
    out: when every GPA control is empty and some row has credit hours that
    are a finite number > 0 (the hours adding up to a finite total), the
    recalculation shows a CGPA of 0, not [null], with that total > 0. *)
Theorem empty_gpa_counts_as_zero (N : string -> number) (a : App.t) :
  Forall (fun s => SemesterGroup.gpa s = Control.Null
                   /\ wf (Control.Number N (SemesterGroup.creditHours s)) = true)
    (App.semesters a) ->
  Exists (fun s =>
            isFinite (Control.Number N (SemesterGroup.creditHours s))
            && gt (Control.Number N (SemesterGroup.creditHours s)) zero = true)
    (App.semesters a) ->
  isFinite (semesterCredits
              (filter validSemester
                 (map (App.rawSemester N) (App.semesters a)))) = true ->
  exists a',
    App.recalculateCgpa N a = Normal a'
    /\ App.currentCgpa a' = Some zero
    /\ App.currentTotalCgpaCredits a'
       = semesterCredits
           (filter validSemester (map (App.rawSemester N) (App.semesters a)))
    /\ gt (App.currentTotalCgpaCredits a') zero = true.
Proof.
  intros Hall Hex Hfin. unfold App.recalculateCgpa. cbv zeta.
  rewrite raw_semesters, calculateCgpa_eq, objects_map_Some. cbv zeta.
  set (vs := filter validSemester (map (App.rawSemester N) (App.semesters a)))
    in *.
  assert (Hvs : Forall (fun s => SemesterSummary.gpa s = zero
                                 /\ wf (SemesterSummary.creditHours s) = true
                                 /\ validSemester s = true) vs).
  { apply Forall_forall. intros s Hs. apply filter_In in Hs.
    destruct Hs as [Hin Hv]. apply in_map_iff in Hin.
    destruct Hin as (row & <- & Hrow).
    rewrite Forall_forall in Hall. destruct (Hall row Hrow) as [Eg Hw].
    cbn [App.rawSemester SemesterSummary.gpa SemesterSummary.creditHours].
    rewrite Eg. auto. }
  assert (Hne : vs <> []).
  { apply Exists_exists in Hex. destruct Hex as (row & Hrow & Hh).
    rewrite Forall_forall in Hall. destruct (Hall row Hrow) as [Eg _].
    assert (Hin : In (App.rawSemester N row) vs).
    { apply filter_In. split; [apply in_map; exact Hrow|].
      unfold validSemester.
      cbn [App.rawSemester SemesterSummary.gpa SemesterSummary.creditHours].
      rewrite Eg. cbn [Control.Number]. apply andb_true_iff in Hh.
      destruct Hh as [-> ->]. reflexivity. }
    intros E. rewrite E in Hin. exact Hin. }
  assert (Hpos : positive_number (semesterCredits vs) = true).
  { apply valid_semesters_credits_positive; [exact Hne|].
    eapply Forall_impl; [|exact Hvs]. intros s (_ & Hw & Hv). auto. }
  assert (Hw0 : semesterWeighted vs = zero).
  { apply semesterWeighted_zero. eapply Forall_impl; [|exact Hvs].
    intros s (Eg & _ & Hv). auto. }
  destruct vs as [|v vs'] eqn:Evs; [congruence|]. rewrite <- Evs in *.
  clear Evs. cbv iota.
  rewrite (positive_not_le_zero _ Hpos), Hfin, Hw0. cbn [orb negb bind].
  destruct (positive_finite _ Hpos Hfin) as (m & e & Et).
  eexists. split; [reflexivity|]. rewrite Et.
  split; [reflexivity|]. split; reflexivity.
Qed.

(** One term row, its GPA left empty and 15 credit hours given. *)
Lemma empty_gpa_counts_as_zero_witness :
  exists a',
    App.recalculateCgpa (fun _ => NaN)
      (App.set_semesters
         [ {| SemesterGroup.name := Some "Semester 1";
              SemesterGroup.gpa := Control.Null;
              SemesterGroup.creditHours := Control.Num (of_Z 15) |} ]
         App.fields) = Normal a'
    /\ App.currentCgpa a' = Some zero
    /\ App.currentTotalCgpaCredits a' = of_Z 15
    /\ gt (App.currentTotalCgpaCredits a') zero = true.
Proof.
  apply (empty_gpa_counts_as_zero (fun _ => NaN)
           (App.set_semesters
              [ {| SemesterGroup.name := Some "Semester 1";
                   SemesterGroup.gpa := Control.Null;
                   SemesterGroup.creditHours := Control.Num (of_Z 15) |} ]
              App.fields)).
  - constructor; [split; vm_compute; reflexivity|constructor].
  - constructor. vm_compute. reflexivity.
  - vm_compute. reflexivity.
Defined.

(** X17: a course row whose credit-hours control is empty, or holds anything
    that [Number] does not read as a finite number > 0, does not count: the
    GPA and total shown are those of the other rows. *)
Theorem course_without_credit_hours_ignored (N : string -> number)
  (a : App.t) (l1 l2 : list CourseGroup.t) (c : CourseGroup.t) :
  isFinite (Control.Number N (CourseGroup.creditHours c))
  && gt (Control.Number N (CourseGroup.creditHours c)) zero = false ->
  exists a1 a2,
    App.recalculateGpa N (App.set_courses (l1 ++ c :: l2) a) = Normal a1
    /\ App.recalculateGpa N (App.set_courses (l1 ++ l2) a) = Normal a2
    /\ App.currentGpa a1 = App.currentGpa a2
    /\ App.currentTotalCreditHours a1 = App.currentTotalCreditHours a2.
Proof.
  intros Hc.
  destruct (recalculateGpa_spec N (App.set_courses (l1 ++ c :: l2) a))
    as (a1 & E1 & Hc1 & _ & Hg1).
  destruct (recalculateGpa_spec N (App.set_courses (l1 ++ l2) a))
    as (a2 & E2 & Hc2 & _ & Hg2).
  exists a1, a2. split; [exact E1|]. split; [exact E2|].
  unfold gpa_shown in *. rewrite Hc1 in Hg1. rewrite Hc2 in Hg2.
  cbn [App.set_courses App.courses] in Hg1, Hg2.
  rewrite map_app in Hg1. cbn [map] in Hg1.
  rewrite calculateGpa_rejected_ignored, <- map_app, Hg2 in Hg1.
  - injection Hg1 as -> ->. split; reflexivity.
  - unfold keptCourse. cbn [App.rawCourse Course.creditHours].
    rewrite or_zero_positive, Hc. reflexivity.
Qed.

(** A row with an empty credit-hours control beside the default row. *)
Lemma course_without_credit_hours_ignored_witness :
  exists a1 a2,
    App.recalculateGpa (fun _ => NaN)
      (App.set_courses
         ([App.defaultCourse]
          ++ {| CourseGroup.name := Some "Physics";
                CourseGroup.creditHours := Control.Null;
                CourseGroup.grade := Some "F" |} :: [])
         App.fields) = Normal a1
    /\ App.recalculateGpa (fun _ => NaN)
         (App.set_courses ([App.defaultCourse] ++ []) App.fields) = Normal a2
    /\ App.currentGpa a1 = App.currentGpa a2
    /\ App.currentTotalCreditHours a1 = App.currentTotalCreditHours a2.
Proof.
  apply (course_without_credit_hours_ignored (fun _ => NaN) App.fields
           [App.defaultCourse] []
           {| CourseGroup.name := Some "Physics";
              CourseGroup.creditHours := Control.Null;
              CourseGroup.grade := Some "F" |}).
  vm_compute. reflexivity.
Defined.

(** X18: a component fresh on the page, before any input, has one course
    row with the default values and one empty term row named "Semester 1";
    it shows a GPA of 4 over 3 credit hours (the default row counts as an
    A), no CGPA, and has one GPA pulse pending. *)
Theorem App_first_display (N : string -> number) :
  exists a,
    App.session N [] = Normal a
    /\ App.courses a = [App.defaultCourse]
    /\ App.semesters a = [App.blankSemester 1]
    /\ App.currentGpa a = of_Z 4
    /\ App.currentTotalCreditHours a = of_Z 3
    /\ App.currentCgpa a = None
    /\ App.currentTotalCgpaCredits a = zero
    /\ App.isGpaPulsing a = false
    /\ App.isCgpaPulsing a = false
    /\ App.timers a = [(0, App.GpaPulseOn)].
Proof.
  eexists. split; [vm_compute; reflexivity|].
  repeat split; vm_compute; reflexivity.
Qed.
